(** * Seega backend: domain rules and game service

    A shallow embedding of [app/domain] (models, placement, movement,
    capture and victory rules) and of [app/services/game_service.py],
    with the properties of the specification stated and proved over it.

    - Python integers are [Z].  A [list] indexed by an integer follows
      Python's rule: negative indices count from the end, anything else out
      of range raises [IndexError].  The dict [pieces_count] is a [gmap]
      whose missing key raises [KeyError]; the dict of valid moves keeps its
      insertion order.
    - Code runs in a state-and-exception monad.  An exception carries the
      state reached when it was raised, because the objects are mutated in
      place: what a failed request has already written stays written.
    - The values drawn from the environment (uuid4 identifiers and tokens,
      [random.choice([1, 2])]) are arguments of the operations that draw
      them, so every statement holds for all draws.
    - A run of the service is a list of requests applied to the empty
      repository; each request is one uninterrupted step, as under the
      single-threaded scheduling the service relies on. *)

From Stdlib Require Import ZArith Lia.
From stdpp Require Import base option list strings gmap pretty.

Local Open Scope Z_scope.

(** ** Exceptions and the state-and-exception monad *)

Inductive exn :=
  | IndexError
  | KeyError
  | AttributeError
  | HTTPException (status_code : Z) (detail : string).

Inductive outcome (S A : Type) :=
  | Return (a : A) (s : S)
  | Raise (e : exn) (s : S).
Arguments Return {S A} a s.
Arguments Raise {S A} e s.

Definition M (S A : Type) : Type := S → outcome S A.

Global Instance M_ret {S} : MRet (M S) := λ A a s, Return a s.
Global Instance M_bind {S} : MBind (M S) := λ A B f m s,
  match m s with
  | Return a s' => f a s'
  | Raise e s' => Raise e s'
  end.

Definition raise {S A} (e : exn) : M S A := λ s, Raise e s.
Definition gets {S A} (f : S → A) : M S A := λ s, Return (f s) s.
Definition modify {S} (f : S → S) : M S () := λ s, Return () (f s).

(** The state in which a computation stops, whether it returns or raises. *)
Definition final {S A} (o : outcome S A) : S :=
  match o with Return _ s => s | Raise _ s => s end.

(** [for x in l: body], the loop's local variables threaded as [acc]. *)
Fixpoint for_in {S A B} (l : list A) (acc : B) (body : A → B → M S B) : M S B :=
  match l with
  | [] => mret acc
  | a :: l' => acc' ← body a acc; for_in l' acc' body
  end.

(** ** Python containers *)

(** Position designated by index [i] in a sequence of length [n]. *)
Definition py_index (n i : Z) : option nat :=
  if decide (0 ≤ i < n) then Some (Z.to_nat i)
  else if decide (- n ≤ i < 0) then Some (Z.to_nat (n + i))
  else None.

(** [l[i]] *)
Definition list_getitem {A} (l : list A) (i : Z) : option A :=
  k ← py_index (Z.of_nat (length l)) i; l !! k.

(** [l[i] = v] *)
Definition list_setitem {A} (l : list A) (i : Z) (v : A) : option (list A) :=
  k ← py_index (Z.of_nat (length l)) i; Some (<[k:=v]> l).

(** ** models.py *)

Definition EMPTY : Z := 0.
Definition PLAYER1 : Z := 1.
Definition PLAYER2 : Z := 2.

Inductive Phase := PLACEMENT | MOVEMENT.
Inductive GameStatus := WAITING | READY | PLAYING | FINISHED.

Global Instance Phase_eq_dec : EqDecision Phase.
Proof. solve_decision. Defined.
Global Instance GameStatus_eq_dec : EqDecision GameStatus.
Proof. solve_decision. Defined.

Record Board := { cells : list (list Z) }.

Definition REFUGE_X : Z := 2.
Definition REFUGE_Y : Z := 2.
Definition SIZE : Z := 5.

(** [[[0]*5 for _ in range(5)]] *)
Definition Board_new : Board := {| cells := replicate 5 (replicate 5 0) |}.

(** [self.cells[y][x]] *)
Definition Board_get (self : Board) (x y : Z) : option Z :=
  row ← list_getitem (cells self) y; list_getitem row x.

(** [self.cells[y][x] = value] *)
Definition Board_set (self : Board) (x y value : Z) : option Board :=
  row ← list_getitem (cells self) y;
  row' ← list_setitem row x value;
  cells' ← list_setitem (cells self) y row';
  Some {| cells := cells' |}.

Definition Board_is_valid_position (x y : Z) : bool :=
  bool_decide (0 ≤ x < SIZE) && bool_decide (0 ≤ y < SIZE).

Definition Board_is_empty (self : Board) (x y : Z) : option bool :=
  v ← Board_get self x y; Some (bool_decide (v = EMPTY)).

Definition Board_is_refuge (x y : Z) : bool :=
  bool_decide (x = REFUGE_X) && bool_decide (y = REFUGE_Y).

Definition Board_to_list (self : Board) : list (list Z) := cells self.

Record PlayerSession := {
  player_number : Z;
  token : string;
  connected : bool
}.

(** [rematch_requests] is the attribute [rematch_game] adds to the object
    on first use: [None] while the attribute does not exist. *)
Record GameState := {
  game_id : string;
  board : Board;
  phase : Phase;
  status : GameStatus;
  current_player : Z;
  player1 : option PlayerSession;
  player2 : option PlayerSession;
  pieces_count : gmap Z Z;
  placement_remaining : Z;
  chain_capture_piece : option (Z * Z);
  winner : option Z;
  game_over : bool;
  total_pieces_placed : Z;
  rematch_requests : option (gset Z)
}.

(** Attribute assignments [state.f = v]. *)
Definition set_board (v : Board) (s : GameState) : GameState :=
  {| game_id := game_id s; board := v; phase := phase s; status := status s;
     current_player := current_player s; player1 := player1 s;
     player2 := player2 s; pieces_count := pieces_count s;
     placement_remaining := placement_remaining s;
     chain_capture_piece := chain_capture_piece s; winner := winner s;
     game_over := game_over s; total_pieces_placed := total_pieces_placed s;
     rematch_requests := rematch_requests s |}.
Definition set_phase (v : Phase) (s : GameState) : GameState :=
  {| game_id := game_id s; board := board s; phase := v; status := status s;
     current_player := current_player s; player1 := player1 s;
     player2 := player2 s; pieces_count := pieces_count s;
     placement_remaining := placement_remaining s;
     chain_capture_piece := chain_capture_piece s; winner := winner s;
     game_over := game_over s; total_pieces_placed := total_pieces_placed s;
     rematch_requests := rematch_requests s |}.
Definition set_status (v : GameStatus) (s : GameState) : GameState :=
  {| game_id := game_id s; board := board s; phase := phase s; status := v;
     current_player := current_player s; player1 := player1 s;
     player2 := player2 s; pieces_count := pieces_count s;
     placement_remaining := placement_remaining s;
     chain_capture_piece := chain_capture_piece s; winner := winner s;
     game_over := game_over s; total_pieces_placed := total_pieces_placed s;
     rematch_requests := rematch_requests s |}.
Definition set_current_player (v : Z) (s : GameState) : GameState :=
  {| game_id := game_id s; board := board s; phase := phase s;
     status := status s; current_player := v; player1 := player1 s;
     player2 := player2 s; pieces_count := pieces_count s;
     placement_remaining := placement_remaining s;
     chain_capture_piece := chain_capture_piece s; winner := winner s;
     game_over := game_over s; total_pieces_placed := total_pieces_placed s;
     rematch_requests := rematch_requests s |}.
Definition set_player1 (v : option PlayerSession) (s : GameState) : GameState :=
  {| game_id := game_id s; board := board s; phase := phase s;
     status := status s; current_player := current_player s; player1 := v;
     player2 := player2 s; pieces_count := pieces_count s;
     placement_remaining := placement_remaining s;
     chain_capture_piece := chain_capture_piece s; winner := winner s;
     game_over := game_over s; total_pieces_placed := total_pieces_placed s;
     rematch_requests := rematch_requests s |}.
Definition set_player2 (v : option PlayerSession) (s : GameState) : GameState :=
  {| game_id := game_id s; board := board s; phase := phase s;
     status := status s; current_player := current_player s;
     player1 := player1 s; player2 := v; pieces_count := pieces_count s;
     placement_remaining := placement_remaining s;
     chain_capture_piece := chain_capture_piece s; winner := winner s;
     game_over := game_over s; total_pieces_placed := total_pieces_placed s;
     rematch_requests := rematch_requests s |}.
Definition set_pieces_count (v : gmap Z Z) (s : GameState) : GameState :=
  {| game_id := game_id s; board := board s; phase := phase s;
     status := status s; current_player := current_player s;
     player1 := player1 s; player2 := player2 s; pieces_count := v;
     placement_remaining := placement_remaining s;
     chain_capture_piece := chain_capture_piece s; winner := winner s;
     game_over := game_over s; total_pieces_placed := total_pieces_placed s;
     rematch_requests := rematch_requests s |}.
Definition set_placement_remaining (v : Z) (s : GameState) : GameState :=
  {| game_id := game_id s; board := board s; phase := phase s;
     status := status s; current_player := current_player s;
     player1 := player1 s; player2 := player2 s;
     pieces_count := pieces_count s; placement_remaining := v;
     chain_capture_piece := chain_capture_piece s; winner := winner s;
     game_over := game_over s; total_pieces_placed := total_pieces_placed s;
     rematch_requests := rematch_requests s |}.
Definition set_chain_capture_piece (v : option (Z * Z)) (s : GameState) : GameState :=
  {| game_id := game_id s; board := board s; phase := phase s;
     status := status s; current_player := current_player s;
     player1 := player1 s; player2 := player2 s;
     pieces_count := pieces_count s;
     placement_remaining := placement_remaining s;
     chain_capture_piece := v; winner := winner s;
     game_over := game_over s; total_pieces_placed := total_pieces_placed s;
     rematch_requests := rematch_requests s |}.
Definition set_winner (v : option Z) (s : GameState) : GameState :=
  {| game_id := game_id s; board := board s; phase := phase s;
     status := status s; current_player := current_player s;
     player1 := player1 s; player2 := player2 s;
     pieces_count := pieces_count s;
     placement_remaining := placement_remaining s;
     chain_capture_piece := chain_capture_piece s; winner := v;
     game_over := game_over s; total_pieces_placed := total_pieces_placed s;
     rematch_requests := rematch_requests s |}.
Definition set_game_over (v : bool) (s : GameState) : GameState :=
  {| game_id := game_id s; board := board s; phase := phase s;
     status := status s; current_player := current_player s;
     player1 := player1 s; player2 := player2 s;
     pieces_count := pieces_count s;
     placement_remaining := placement_remaining s;
     chain_capture_piece := chain_capture_piece s; winner := winner s;
     game_over := v; total_pieces_placed := total_pieces_placed s;
     rematch_requests := rematch_requests s |}.
Definition set_total_pieces_placed (v : Z) (s : GameState) : GameState :=
  {| game_id := game_id s; board := board s; phase := phase s;
     status := status s; current_player := current_player s;
     player1 := player1 s; player2 := player2 s;
     pieces_count := pieces_count s;
     placement_remaining := placement_remaining s;
     chain_capture_piece := chain_capture_piece s; winner := winner s;
     game_over := game_over s; total_pieces_placed := v;
     rematch_requests := rematch_requests s |}.
Definition set_rematch_requests (v : option (gset Z)) (s : GameState) : GameState :=
  {| game_id := game_id s; board := board s; phase := phase s;
     status := status s; current_player := current_player s;
     player1 := player1 s; player2 := player2 s;
     pieces_count := pieces_count s;
     placement_remaining := placement_remaining s;
     chain_capture_piece := chain_capture_piece s; winner := winner s;
     game_over := game_over s; total_pieces_placed := total_pieces_placed s;
     rematch_requests := v |}.

(** [state.board.get(x, y)], [state.board.set(x, y, value)] and
    [state.board.is_empty(x, y)] on the session object. *)
Definition board_get (x y : Z) : M GameState Z := λ s,
  match Board_get (board s) x y with
  | Some v => Return v s
  | None => Raise IndexError s
  end.

Definition board_set (x y value : Z) : M GameState () := λ s,
  match Board_set (board s) x y value with
  | Some b => Return () (set_board b s)
  | None => Raise IndexError s
  end.

Definition board_is_empty (x y : Z) : M GameState bool := λ s,
  match Board_is_empty (board s) x y with
  | Some b => Return b s
  | None => Raise IndexError s
  end.

(** [state.pieces_count[k]] and [state.pieces_count[k] = v] *)
Definition count_get (k : Z) : M GameState Z := λ s,
  match pieces_count s !! k with
  | Some v => Return v s
  | None => Raise KeyError s
  end.

Definition count_set (k v : Z) : M GameState () :=
  modify (λ s, set_pieces_count (<[k:=v]> (pieces_count s)) s).

Definition get_player_session (s : GameState) (player_number : Z) : option PlayerSession :=
  if decide (player_number = 1) then player1 s else player2 s.

Definition get_opponent (player_number : Z) : Z :=
  if decide (player_number = 1) then 2 else 1.

Definition switch_turn : M GameState () :=
  modify (λ s, set_current_player (get_opponent (current_player s)) s);;
  ph ← gets phase;
  if decide (ph = PLACEMENT) then modify (set_placement_remaining 2)
  else mret ().

Record MoveResult := {
  success : bool;
  captures : list (Z * Z);
  extra_turn : bool;
  phase_changed : bool;
  result_game_over : bool;
  result_winner : option Z;
  message : string
}.

(** [for x in l: body] where the body may [return] from the enclosing
    function: [Some r] leaves the loop with [r]. *)
Fixpoint for_return {S A R} (l : list A) (body : A → M S (option R)) : M S (option R) :=
  match l with
  | [] => mret None
  | a :: l' =>
      r ← body a;
      match r with
      | Some v => mret (Some v)
      | None => for_return l' body
      end
  end.

(** [d[k] = v] on a dict kept in insertion order. *)
Fixpoint dict_setitem {K V} `{EqDecision K} (d : list (K * V)) (k : K) (v : V) : list (K * V) :=
  match d with
  | [] => [(k, v)]
  | (k', v') :: d' =>
      if decide (k' = k) then (k', v) :: d' else (k', v') :: dict_setitem d' k v
  end.

(** ** rules_capture.py *)

Module rules_capture.

Definition check_captures (x y player : Z) : M GameState (list (Z * Z)) :=
  let opponent := if decide (player = 1) then 2 else 1 in
  let directions := [(1, 0); (-1, 0); (0, 1); (0, -1)] in
  for_in directions [] (λ '(dx, dy) (captured : list (Z * Z)),
    let enemy_x := x + dx in
    let enemy_y := y + dy in
    let support_x := x + 2 * dx in
    let support_y := y + 2 * dy in
    if negb (Board_is_valid_position enemy_x enemy_y) then mret captured
    else if negb (Board_is_valid_position support_x support_y) then mret captured
    else
      e ← board_get enemy_x enemy_y;
      if decide (e ≠ opponent) then mret captured
      else if Board_is_refuge enemy_x enemy_y then mret captured
      else
        sp ← board_get support_x support_y;
        if decide (sp = player) then mret (captured ++ [(enemy_x, enemy_y)])
        else mret captured).

Definition apply_captures (captures : list (Z * Z)) : M GameState () :=
  for_in captures () (λ '(x, y) _,
    player ← board_get x y;
    board_set x y EMPTY;;
    n ← count_get player;
    count_set player (n - 1)).

Definition has_capture_chain (x y player : Z) : M GameState bool :=
  let directions := [(0, 1); (0, -1); (1, 0); (-1, 0)] in
  possible_moves ← for_in directions [] (λ '(dx, dy) (possible_moves : list (Z * Z)),
    let new_x := x + dx in
    let new_y := y + dy in
    if Board_is_valid_position new_x new_y then
      e ← board_is_empty new_x new_y;
      if (e : bool) then mret (possible_moves ++ [(new_x, new_y)])
      else mret possible_moves
    else mret possible_moves);
  r ← for_return possible_moves (λ '(move_x, move_y),
    board_set x y EMPTY;;
    board_set move_x move_y player;;
    captures ← check_captures move_x move_y player;
    board_set move_x move_y EMPTY;;
    board_set x y player;;
    if decide (0 < Z.of_nat (length captures)) then mret (Some true)
    else mret None);
  match r with
  | Some b => mret b
  | None => mret false
  end.

End rules_capture.

(** ** rules_phase1.py *)

Module rules_phase1.

Definition can_place_piece (x y player : Z) : M GameState (bool * string) :=
  ph ← gets phase;
  if decide (ph ≠ PLACEMENT) then
    mret (false, "No estás en la fase de posicionamiento")
  else
  cp ← gets current_player;
  if decide (cp ≠ player) then mret (false, "No es tu turno")
  else
  pr ← gets placement_remaining;
  if decide (pr ≤ 0) then
    mret (false, "Ya colocaste todas tus piezas este turno")
  else
  if negb (Board_is_valid_position x y) then
    mret (false, "Posición fuera del tablero")
  else
  e ← board_is_empty x y;
  if negb (e : bool) then mret (false, "La celda ya está ocupada")
  else
  if Board_is_refuge x y then
    mret (false, "No se puede colocar en el refugio central")
  else mret (true, "OK").

Definition place_piece (x y player : Z) : M GameState bool :=
  board_set x y player;;
  n ← count_get player;
  count_set player (n + 1);;
  modify (λ s, set_total_pieces_placed (total_pieces_placed s + 1) s);;
  modify (λ s, set_placement_remaining (placement_remaining s - 1) s);;
  pr ← gets placement_remaining;
  (if decide (pr = 0) then switch_turn else mret ());;
  total ← gets total_pieces_placed;
  if decide (24 ≤ total) then
    modify (set_phase MOVEMENT);;
    modify (set_chain_capture_piece None);;
    mret true
  else mret false.

Definition get_valid_placements : M GameState (list (Z * Z)) :=
  ph ← gets phase;
  if decide (ph ≠ PLACEMENT) then mret []
  else
    for_in (seqZ 0 SIZE) [] (λ y (valid : list (Z * Z)),
      for_in (seqZ 0 SIZE) valid (λ x (valid : list (Z * Z)),
        e ← board_is_empty x y;
        if (e : bool) && negb (Board_is_refuge x y) then mret (valid ++ [(x, y)])
        else mret valid)).

End rules_phase1.

(** ** rules_phase2.py *)

Module rules_phase2.

Definition can_move_piece (from_x from_y to_x to_y player : Z)
  : M GameState (bool * string) :=
  ph ← gets phase;
  if decide (ph ≠ MOVEMENT) then mret (false, "No estás en la fase de movimiento")
  else
  cp ← gets current_player;
  if decide (cp ≠ player) then mret (false, "No es tu turno")
  else
  if negb (Board_is_valid_position from_x from_y) then
    mret (false, "Posición origen inválida")
  else
  if negb (Board_is_valid_position to_x to_y) then
    mret (false, "Posición destino inválida")
  else
  p ← board_get from_x from_y;
  if decide (p ≠ player) then mret (false, "No es tu pieza")
  else
  e ← board_is_empty to_x to_y;
  if negb (e : bool) then mret (false, "El destino no está vacío")
  else
  let dx := Z.abs (to_x - from_x) in
  let dy := Z.abs (to_y - from_y) in
  if negb (bool_decide (dx = 1) && bool_decide (dy = 0)
           || bool_decide (dx = 0) && bool_decide (dy = 1)) then
    mret (false, "Solo puedes mover 1 celda en dirección ortogonal")
  else
  chain ← gets chain_capture_piece;
  match chain with
  | Some (chain_x, chain_y) =>
      if bool_decide (from_x ≠ chain_x) || bool_decide (from_y ≠ chain_y) then
        mret (false, "Debes continuar moviendo la pieza en (" +:+ pretty chain_x
                       +:+ ", " +:+ pretty chain_y +:+ ")")
      else mret (true, "OK")
  | None => mret (true, "OK")
  end.

Definition move_piece (from_x from_y to_x to_y : Z) : M GameState () :=
  player ← board_get from_x from_y;
  board_set from_x from_y EMPTY;;
  board_set to_x to_y player.

Definition get_valid_moves_for_piece (x y : Z) : M GameState (list (Z * Z)) :=
  ph ← gets phase;
  if decide (ph ≠ MOVEMENT) then mret []
  else
  player ← board_get x y;
  if decide (player = EMPTY) then mret []
  else
    let directions := [(0, 1); (0, -1); (1, 0); (-1, 0)] in
    for_in directions [] (λ '(dx, dy) (valid_moves : list (Z * Z)),
      let new_x := x + dx in
      let new_y := y + dy in
      if Board_is_valid_position new_x new_y then
        e ← board_is_empty new_x new_y;
        if (e : bool) then mret (valid_moves ++ [(new_x, new_y)])
        else mret valid_moves
      else mret valid_moves).

Definition get_all_valid_moves (player : Z)
  : M GameState (list ((Z * Z) * list (Z * Z))) :=
  ph ← gets phase;
  if decide (ph ≠ MOVEMENT) then mret []
  else
  chain ← gets chain_capture_piece;
  match chain with
  | Some (x, y) =>
      moves ← get_valid_moves_for_piece x y;
      match moves with
      | [] => mret []
      | _ => mret [((x, y), moves)]
      end
  | None =>
      for_in (seqZ 0 SIZE) [] (λ y (all_moves : list ((Z * Z) * list (Z * Z))),
        for_in (seqZ 0 SIZE) all_moves (λ x (all_moves : list ((Z * Z) * list (Z * Z))),
          p ← board_get x y;
          if decide (p = player) then
            moves ← get_valid_moves_for_piece x y;
            match moves with
            | [] => mret all_moves
            | _ => mret (dict_setitem all_moves (x, y) moves)
            end
          else mret all_moves))
  end.

End rules_phase2.

(** ** rules_victory.py *)

Module rules_victory.

Definition check_victory : M GameState (bool * option Z * string) :=
  ph ← gets phase;
  if decide (ph ≠ MOVEMENT) then mret (false, None, EmptyString)
  else
  p1_pieces ← count_get 1;
  p2_pieces ← count_get 2;
  if decide (p1_pieces < 2) then
    mret (true, Some 2, "Jugador 1 tiene menos de 2 piezas")
  else
  if decide (p2_pieces < 2) then
    mret (true, Some 1, "Jugador 2 tiene menos de 2 piezas")
  else
  cp ← gets current_player;
  current_moves ← rules_phase2.get_all_valid_moves cp;
  if decide (length current_moves = 0%nat) then
    if decide (p2_pieces < p1_pieces) then
      mret (true, Some 1, "Jugador 2 bloqueado, Jugador 1 tiene más piezas")
    else if decide (p1_pieces < p2_pieces) then
      mret (true, Some 2, "Jugador 1 bloqueado, Jugador 2 tiene más piezas")
    else
      cp' ← gets current_player;
      let winner := if decide (cp' = 1) then 2 else 1 in
      mret (true, Some winner,
            "Jugador " +:+ pretty cp' +:+ " bloqueado, empate en piezas")
  else mret (false, None, EmptyString).

Definition is_stalemate (player : Z) : M GameState bool :=
  ph ← gets phase;
  if decide (ph ≠ MOVEMENT) then mret false
  else
    moves ← rules_phase2.get_all_valid_moves player;
    mret (bool_decide (length moves = 0%nat)).

End rules_victory.

(** ** repo_memory.py and notifier.py

    The service works on one session object fetched from the repository
    and on the notifier.  The repository holds every session under its own
    [game_id] ([save] is its only writer), so the object a request mutates
    in place is the one stored under the request's game id: a request opens
    it, runs on the pair (session, service) and, when it stops (normally or
    with an exception), the repository entry shows the mutated object.
    The notifier only queues tasks on the event loop; the queue is kept as
    the list of notifications requested so far. *)

Inductive Event :=
  | opponent_joined
  | opponent_placed (x y player : Z)
  | opponent_moved (from to : Z * Z) (captured : list (Z * Z)) (extraTurn : bool)
  | your_turn
  | game_over_event (winner : option Z) (reason : string)
  | phase_changed_event
  | opponent_left
  | rematch_requested
  | rematch_started (currentPlayer : Z).

Inductive Notification :=
  | notify_game_event (game_id : string) (event : Event) (exclude_token : option string)
  | notify_specific_player (game_id : string) (player_token : option string) (event : Event)
  | notify_game_started_delayed (game_id : string).

Record Service := {
  games : gmap string GameState;
  notifier : list Notification
}.

Definition on_state {A} (m : M GameState A) : M (GameState * Service) A := λ '(s, w),
  match m s with
  | Return a s' => Return a (s', w)
  | Raise e s' => Raise e (s', w)
  end.

(** [self.repo.save(state)] *)
Definition repo_save : M (GameState * Service) () :=
  modify (λ '(s, w),
    (s, {| games := <[game_id s := s]> (games w); notifier := notifier w |})).

(** [self.repo.delete(game_id)] *)
Definition repo_delete (game_id : string) : M (GameState * Service) () :=
  modify (λ '(s, w),
    (s, {| games := delete game_id (games w); notifier := notifier w |})).

Definition notify (n : Notification) : M (GameState * Service) () :=
  modify (λ '(s, w),
    (s, {| games := games w; notifier := notifier w ++ [n] |})).

(** The repository entry of the opened session shows the object as the
    request left it (unless the request deleted the entry). *)
Definition close (game_id : string) (sw : GameState * Service) : Service :=
  {| games := alter (λ _, sw.1) game_id (games sw.2);
     notifier := notifier sw.2 |}.

(** [state = self.repo.get(game_id); if not state: raise 404], then the
    rest of the request on the object. *)
Definition with_game {A} (game_id : string) (body : M (GameState * Service) A)
  : M Service A := λ w,
  match games w !! game_id with
  | None => Raise (HTTPException 404 "Partida no encontrada") w
  | Some s =>
      match body (s, w) with
      | Return a sw => Return a (close game_id sw)
      | Raise e sw => Raise e (close game_id sw)
      end
  end.

(** ** game_service.py *)

Record JoinGameResponse := {
  gameId : string;
  playerToken : string;
  playerNumber : Z;
  join_status : GameStatus
}.

Record GameStateResponse := {
  view_gameId : string;
  view_board : list (list Z);
  view_phase : Phase;
  view_status : GameStatus;
  currentPlayer : Z;
  yourPlayerNumber : Z;
  isYourTurn : bool;
  piecesCount : gmap Z Z;
  placementRemaining : Z;
  chainCapturePiece : option (Z * Z);
  view_winner : option Z;
  gameOver : bool
}.

Record ActionResponse := {
  response_state : GameStateResponse;
  response_result : MoveResult
}.

Inductive ValidActions :=
  | cannot_act (reason : string)
  | placement_actions (validPlacements : list (Z * Z)) (remaining : Z)
  | movement_actions (validMoves : list (string * list (Z * Z)))
      (chainCapture : option (Z * Z)).

Record LeaveGameResponse := {
  leave_message : string;
  gameDeleted : bool
}.

Record RematchResponse := {
  rematch_message : string;
  rematchStarted : bool;
  rematch_currentPlayer : option Z
}.

(** [p and p.token == t] *)
Definition has_token (p : option PlayerSession) (t : string) : bool :=
  match p with
  | Some p => bool_decide (token p = t)
  | None => false
  end.

(** Truth value of an optional string: [None] and the empty string are
    false. *)
Definition truthy (t : option string) : bool :=
  match t with
  | Some t => negb (bool_decide (t = EmptyString))
  | None => false
  end.

(** [MoveResult(success=True, ...)] with the dataclass defaults elsewhere. *)
Definition MoveResult_new (captures : list (Z * Z)) (phase_changed : bool)
  (message : string) : MoveResult :=
  {| success := true; captures := captures; extra_turn := false;
     phase_changed := phase_changed; result_game_over := false;
     result_winner := None; message := message |}.

Definition set_extra_turn (v : bool) (r : MoveResult) : MoveResult :=
  {| success := success r; captures := captures r; extra_turn := v;
     phase_changed := phase_changed r; result_game_over := result_game_over r;
     result_winner := result_winner r; message := message r |}.

(** [result.game_over = True; result.winner = winner; result.message = reason] *)
Definition set_result_over (winner : option Z) (reason : string) (r : MoveResult)
  : MoveResult :=
  {| success := success r; captures := captures r; extra_turn := extra_turn r;
     phase_changed := phase_changed r; result_game_over := true;
     result_winner := winner; message := reason |}.

Module GameService.

Definition _serialize_state (state : GameState) (player_num : Z) : GameStateResponse :=
  {| view_gameId := game_id state;
     view_board := Board_to_list (board state);
     view_phase := phase state;
     view_status := status state;
     currentPlayer := current_player state;
     yourPlayerNumber := player_num;
     isYourTurn := bool_decide (current_player state = player_num);
     piecesCount := pieces_count state;
     placementRemaining := placement_remaining state;
     chainCapturePiece := chain_capture_piece state;
     view_winner := winner state;
     gameOver := game_over state |}.

(** The identifiers drawn by [_generate_game_id] and [_generate_token]
    (uuid4) and the starting player drawn by [random.choice([1, 2])] are
    arguments of the operations that draw them. *)
Definition create_game (game_id player_token : string) : M Service JoinGameResponse :=
  let state :=
    {| game_id := game_id; board := Board_new; phase := PLACEMENT;
       status := WAITING; current_player := 1;
       player1 := Some {| player_number := 1; token := player_token;
                          connected := true |};
       player2 := None; pieces_count := {[ 1 := 0; 2 := 0 ]};
       placement_remaining := 2; chain_capture_piece := None;
       winner := None; game_over := false; total_pieces_placed := 0;
       rematch_requests := None |} in
  modify (λ w, {| games := <[game_id := state]> (games w);
                  notifier := notifier w |});;
  mret {| gameId := game_id; playerToken := player_token; playerNumber := 1;
          join_status := WAITING |}.

Definition join_game (player_token : string) (choice : Z)
  (game_id : string) (existing_token : option string) : M Service JoinGameResponse :=
  (* where [existing_token] is true it is a string: [its_token] *)
  let its_token := default EmptyString existing_token in
  with_game game_id (
    state ← gets fst;
    if truthy existing_token && has_token (player1 state) its_token then
      mret {| gameId := game_id; playerToken := its_token;
              playerNumber := 1; join_status := status state |}
    else if truthy existing_token && has_token (player2 state) its_token then
      mret {| gameId := game_id; playerToken := its_token;
              playerNumber := 2; join_status := status state |}
    else if decide (status state ≠ WAITING) then
      match player2 state with
      | Some p2 =>
          if negb (truthy existing_token) then
            mret {| gameId := game_id; playerToken := token p2;
                    playerNumber := 2; join_status := status state |}
          else raise (HTTPException 400 "La partida ya está llena o terminada")
      | None => raise (HTTPException 400 "La partida ya está llena o terminada")
      end
    else
      on_state (modify (set_player2
        (Some {| player_number := 2; token := player_token; connected := true |})));;
      on_state (modify (set_status PLAYING));;
      on_state (modify (set_current_player choice));;
      repo_save;;
      notify (notify_game_event game_id opponent_joined (Some player_token));;
      notify (notify_game_started_delayed game_id);;
      mret {| gameId := game_id; playerToken := player_token; playerNumber := 2;
              join_status := PLAYING |}).

Definition reconnect_game (game_id player_token : string) : M Service JoinGameResponse :=
  with_game game_id (
    state ← gets fst;
    let player_num :=
      if has_token (player1 state) player_token then Some 1
      else if has_token (player2 state) player_token then Some 2
      else None in
    match player_num with
    | None => raise (HTTPException 403 "Token inválido para esta partida")
    | Some n =>
        mret {| gameId := game_id; playerToken := player_token;
                playerNumber := n; join_status := status state |}
    end).

Definition _get_and_validate_game {A} (game_id player_token : string)
  (rest : M (GameState * Service) A) : M Service A :=
  with_game game_id (
    state ← gets fst;
    if has_token (player1 state) player_token then rest
    else if has_token (player2 state) player_token then rest
    else raise (HTTPException 403 "Token inválido")).

Definition _get_player_number (player_token : string) : M (GameState * Service) Z :=
  state ← gets fst;
  if has_token (player1 state) player_token then mret 1
  else if has_token (player2 state) player_token then mret 2
  else raise (HTTPException 403 "Token inválido").

Definition _get_opponent_token (player_token : string)
  : M (GameState * Service) (option string) :=
  state ← gets fst;
  if has_token (player1 state) player_token then mret (token <$> player2 state)
  else if has_token (player2 state) player_token then mret (token <$> player1 state)
  else mret None.

Definition _notify_opponent_action (game_id player_token : string) (event : Event)
  : M (GameState * Service) () :=
  notify (notify_game_event game_id event (Some player_token)).

Definition get_game_state (game_id player_token : string) : M Service GameStateResponse :=
  _get_and_validate_game game_id player_token (
    player_num ← _get_player_number player_token;
    state ← gets fst;
    mret (_serialize_state state player_num)).

(** The dict comprehension keyed by ["{fx},{fy}"]. *)
Definition moves_by_origin (moves : list ((Z * Z) * list (Z * Z)))
  : list (string * list (Z * Z)) :=
  foldl (λ d '((fx, fy), targets),
           dict_setitem d (pretty fx +:+ "," +:+ pretty fy) targets) [] moves.

Definition get_valid_actions (game_id player_token : string) : M Service ValidActions :=
  _get_and_validate_game game_id player_token (
    player_num ← _get_player_number player_token;
    state ← gets fst;
    if decide (current_player state ≠ player_num) then
      mret (cannot_act "No es tu turno")
    else if decide (phase state = PLACEMENT) then
      placements ← on_state rules_phase1.get_valid_placements;
      state ← gets fst;
      mret (placement_actions placements (placement_remaining state))
    else
      moves ← on_state (rules_phase2.get_all_valid_moves player_num);
      state ← gets fst;
      mret (movement_actions (moves_by_origin moves) (chain_capture_piece state))).

(** [state.winner = winner; state.game_over = True; state.status = FINISHED] *)
Definition finish (winner : option Z) : M (GameState * Service) () :=
  on_state (modify (set_winner winner));;
  on_state (modify (set_game_over true));;
  on_state (modify (set_status FINISHED)).

Definition place_piece (game_id player_token : string) (x y : Z)
  : M Service ActionResponse :=
  _get_and_validate_game game_id player_token (
    player_num ← _get_player_number player_token;
    '(can_place, message) ← on_state (rules_phase1.can_place_piece x y player_num);
    if negb (can_place : bool) then raise (HTTPException 400 message)
    else
      phase_changed ← on_state (rules_phase1.place_piece x y player_num);
      let result := MoveResult_new [] phase_changed "Pieza colocada exitosamente" in
      repo_save;;
      _notify_opponent_action game_id player_token (opponent_placed x y player_num);;
      result ←
        (if negb (phase_changed : bool) then
           opponent_token ← _get_opponent_token player_token;
           cp ← gets (λ sw, current_player sw.1);
           (if truthy opponent_token && bool_decide (cp ≠ player_num) then
              notify (notify_specific_player game_id opponent_token your_turn)
            else mret ());;
           '(has_winner, winner, reason) ← on_state rules_victory.check_victory;
           if (has_winner : bool) then
             finish winner;;
             repo_save;;
             notify (notify_game_event game_id (game_over_event winner reason) None);;
             mret (set_result_over winner reason result)
           else mret result
         else mret result);
      (if (phase_changed : bool) then
         notify (notify_game_event game_id phase_changed_event None)
       else mret ());;
      state ← gets fst;
      mret {| response_state := _serialize_state state player_num;
              response_result := result |}).

Definition move_piece (game_id player_token : string) (from_x from_y to_x to_y : Z)
  : M Service ActionResponse :=
  _get_and_validate_game game_id player_token (
    player_num ← _get_player_number player_token;
    '(can_move, message) ←
      on_state (rules_phase2.can_move_piece from_x from_y to_x to_y player_num);
    if negb (can_move : bool) then raise (HTTPException 400 message)
    else
      on_state (rules_phase2.move_piece from_x from_y to_x to_y);;
      captures ← on_state (rules_capture.check_captures to_x to_y player_num);
      let result := MoveResult_new captures false EmptyString in
      result ←
        (if decide (0 < Z.of_nat (length captures)) then
           on_state (rules_capture.apply_captures captures);;
           has_chain ← on_state (rules_capture.has_capture_chain to_x to_y player_num);
           if (has_chain : bool) then
             on_state (modify (set_chain_capture_piece (Some (to_x, to_y))));;
             mret (set_extra_turn true result)
           else
             on_state (modify (set_chain_capture_piece None));;
             on_state switch_turn;;
             mret result
         else
           on_state (modify (set_chain_capture_piece None));;
           on_state switch_turn;;
           mret result);
      '(has_winner, winner, reason) ← on_state rules_victory.check_victory;
      result ←
        (if (has_winner : bool) then
           finish winner;;
           mret (set_result_over winner reason result)
         else mret result);
      repo_save;;
      _notify_opponent_action game_id player_token
        (opponent_moved (from_x, from_y) (to_x, to_y) captures (extra_turn result));;
      result ←
        (if result_game_over result then
           notify (notify_game_event game_id (game_over_event winner reason) None);;
           mret result
         else if negb (extra_turn result) then
           '(has_winner, winner, reason) ← on_state rules_victory.check_victory;
           if (has_winner : bool) then
             finish winner;;
             repo_save;;
             notify (notify_game_event game_id (game_over_event winner reason) None);;
             mret (set_result_over winner reason result)
           else
             opponent_token ← _get_opponent_token player_token;
             notify (notify_specific_player game_id opponent_token your_turn);;
             mret result
         else mret result);
      state ← gets fst;
      mret {| response_state := _serialize_state state player_num;
              response_result := result |}).

Definition leave_game (game_id player_token : string) : M Service LeaveGameResponse :=
  with_game game_id (
    state ← gets fst;
    opponent_token ←
      (if has_token (player1 state) player_token then
         on_state (modify (set_player1 None));;
         mret (token <$> player2 state)
       else if has_token (player2 state) player_token then
         on_state (modify (set_player2 None));;
         mret (token <$> player1 state)
       else raise (HTTPException 403 "Token inválido"));
    (if truthy opponent_token then
       notify (notify_specific_player game_id opponent_token opponent_left)
     else mret ());;
    state ← gets fst;
    match player1 state, player2 state with
    | None, None =>
        repo_delete game_id;;
        mret {| leave_message := "Partida eliminada (ambos jugadores abandonaron)";
                gameDeleted := true |}
    | p1, _ =>
        on_state (modify (set_status FINISHED));;
        on_state (modify (set_game_over true));;
        (match p1 with
         | Some _ => on_state (modify (set_winner (Some 1)))
         | None => on_state (modify (set_winner (Some 2)))
         end);;
        repo_save;;
        (if truthy opponent_token then
           w ← gets (λ sw, winner sw.1);
           notify (notify_specific_player game_id opponent_token
                     (game_over_event w "Tu oponente abandonó la partida"))
         else mret ());;
        mret {| leave_message := "Has abandonado la partida";
                gameDeleted := false |}
    end).

Definition rematch_game (choice : Z) (game_id player_token : string)
  : M Service RematchResponse :=
  with_game game_id (
    state ← gets fst;
    if negb (game_over state) then
      raise (HTTPException 400 "El juego aún no ha terminado")
    else
    player_num ←
      (if has_token (player1 state) player_token then mret 1
       else if has_token (player2 state) player_token then mret 2
       else raise (HTTPException 403 "Token inválido"));
    (match rematch_requests state with
     | None => on_state (modify (set_rematch_requests (Some ∅)))
     | Some _ => mret ()
     end);;
    on_state (modify (λ s,
      set_rematch_requests (Some ({[ player_num ]} ∪ default ∅ (rematch_requests s))) s));;
    requests ← gets (λ sw, default ∅ (rematch_requests sw.1));
    if decide (2 ≤ size requests)%nat then
      on_state (modify (set_board Board_new));;
      on_state (modify (set_phase PLACEMENT));;
      on_state (modify (set_status PLAYING));;
      on_state (modify (set_current_player choice));;
      on_state (modify (set_pieces_count {[ 1 := 0; 2 := 0 ]}));;
      on_state (modify (set_placement_remaining 2));;
      on_state (modify (set_total_pieces_placed 0));;
      on_state (modify (set_winner None));;
      on_state (modify (set_game_over false));;
      on_state (modify (set_chain_capture_piece None));;
      on_state (modify (set_rematch_requests (Some ∅)));;
      repo_save;;
      notify (notify_game_event game_id (rematch_started choice) None);;
      mret {| rematch_message := "Rematch iniciado"; rematchStarted := true;
              rematch_currentPlayer := Some choice |}
    else
      let opponent_num := if decide (player_num = 1) then 2 else 1 in
      state ← gets fst;
      match (if decide (opponent_num = 1) then player1 state else player2 state) with
      | None => raise AttributeError
      | Some opponent =>
          notify (notify_specific_player game_id (Some (token opponent))
                    rematch_requested);;
          repo_save;;
          mret {| rematch_message := "Esperando confirmación del oponente";
                  rematchStarted := false; rematch_currentPlayer := None |}
      end).

End GameService.

(** ** Runs of the service *)

Inductive Action :=
  | CreateGame (game_id player_token : string)
  | JoinGame (player_token : string) (choice : Z) (game_id : string)
      (existing_token : option string)
  | ReconnectGame (game_id player_token : string)
  | GetGameState (game_id player_token : string)
  | GetValidActions (game_id player_token : string)
  | PlacePiece (game_id player_token : string) (x y : Z)
  | MovePiece (game_id player_token : string) (from_x from_y to_x to_y : Z)
  | LeaveGame (game_id player_token : string)
  | RematchGame (choice : Z) (game_id player_token : string).

(** The service after one request, whether it answered or failed. *)
Definition step (a : Action) (w : Service) : Service :=
  match a with
  | CreateGame g t => final (GameService.create_game g t w)
  | JoinGame t c g e => final (GameService.join_game t c g e w)
  | ReconnectGame g t => final (GameService.reconnect_game g t w)
  | GetGameState g t => final (GameService.get_game_state g t w)
  | GetValidActions g t => final (GameService.get_valid_actions g t w)
  | PlacePiece g t x y => final (GameService.place_piece g t x y w)
  | MovePiece g t fx fy tx ty => final (GameService.move_piece g t fx fy tx ty w)
  | LeaveGame g t => final (GameService.leave_game g t w)
  | RematchGame c g t => final (GameService.rematch_game c g t w)
  end.

Definition run (l : list Action) (w : Service) : Service :=
  foldl (λ w a, step a w) w l.

(** The service at process start. *)
Definition initial : Service := {| games := ∅; notifier := [] |}.

(** ** Well-formed boards and the vocabulary of the properties *)

Definition wf_board (b : Board) : Prop :=
  length (cells b) = 5%nat ∧ Forall (λ row, length row = 5%nat) (cells b).

(** Cell [(x, y)] is on the board and holds [v]. *)
Definition holds (b : Board) (x y v : Z) : Prop :=
  Board_is_valid_position x y = true ∧ Board_get b x y = Some v.

(** Custody in direction [d] for a piece of [player] landed on [(x, y)]. *)
Definition custody (b : Board) (x y player : Z) (d : Z * Z) : Prop :=
  holds b (x + d.1) (y + d.2) (get_opponent player)
  ∧ (x + d.1, y + d.2) ≠ (REFUGE_X, REFUGE_Y)
  ∧ holds b (x + 2 * d.1) (y + 2 * d.2) player.

(** The seat a token resolves to. *)
Definition seat (s : GameState) (t : string) : option Z :=
  if has_token (player1 s) t then Some 1
  else if has_token (player2 s) t then Some 2
  else None.

(** The pending chain pointer references a cell holding a piece of the
    player whose turn it is. *)
Definition chain_ok (s : GameState) : Prop :=
  ∀ x y, chain_capture_piece s = Some (x, y) →
    holds (board s) x y (current_player s).

(** ** Invariants of the stored sessions *)

(** What every stored session satisfies: a 5x5 board, both piece counters
    present, a chain pointer only in the movement phase and only on a piece
    of the player to move, and, while waiting for player 2, a placement
    phase in which player 1 has at most its first two pieces down. *)
Record session_inv (s : GameState) : Prop := {
  inv_board : wf_board (board s);
  inv_counts : is_Some (pieces_count s !! 1) ∧ is_Some (pieces_count s !! 2);
  inv_chain : ∀ x y, chain_capture_piece s = Some (x, y) →
                phase s = MOVEMENT ∧ holds (board s) x y (current_player s);
  inv_waiting : status s = WAITING →
                player2 s = None ∧ phase s = PLACEMENT
                ∧ (current_player s = 1 →
                   total_pieces_placed s + placement_remaining s ≤ 2)
}.

(** Every session is stored under its own id and satisfies the invariant. *)
Definition service_inv (w : Service) : Prop :=
  ∀ k s, games w !! k = Some s → game_id s = k ∧ session_inv s.

(** A computation that only moves the state along a preorder [R]
    (equality for code that does not write, a frame for code that writes
    some fields only), wherever it stops. *)
Definition preserves {S A} (R : relation S) (m : M S A) : Prop :=
  ∀ s, R s (final (m s)).

(** Relations along which requests move the state. *)
Definition keeps {S} (P : S → Prop) : relation S := λ s s', P s → P s'.

Definition same_game_id : relation GameState :=
  λ s s', game_id s' = game_id s.

Definition stays_in_movement : relation GameState :=
  λ s s', phase s = MOVEMENT → phase s' = MOVEMENT.

Definition on_session (R : relation GameState) : relation (GameState * Service) :=
  λ sw sw', R sw.1 sw'.1.

(** A request on session [gid] keeps the object's id and leaves the other
    entries of the repository alone. *)
Definition request_frame (gid : string) : relation (GameState * Service) :=
  λ sw sw', game_id sw.1 = gid →
    game_id sw'.1 = gid ∧ ∀ k, k ≠ gid → games sw'.2 !! k = games sw.2 !! k.

(** A rematch request on session [gid] that finds both players asking and
    restarts the session. *)
Definition rematch_starts (gid : string) (a : Action) (w : Service) : Prop :=
  match a with
  | RematchGame c g t =>
      g = gid ∧ ∃ r w', GameService.rematch_game c g t w = Return r w'
                        ∧ rematchStarted r = true
  | _ => False
  end.

(** [create_game] drawing the id of session [gid] again (uuid4 ids are
    taken to be unique). *)
Definition redraws_id (gid : string) (a : Action) : Prop :=
  match a with
  | CreateGame g _ => g = gid
  | _ => False
  end.

(** A sequence of requests none of which restarts session [gid]. *)
Fixpoint no_restart (gid : string) (l : list Action) (w : Service) : Prop :=
  match l with
  | [] => True
  | a :: l' =>
      ¬ rematch_starts gid a w ∧ ¬ redraws_id gid a ∧ no_restart gid l' (step a w)
  end.

(** ** Sample sessions *)

Definition seat_A : PlayerSession :=
  {| player_number := 1; token := "token-a"; connected := true |}.
Definition seat_B : PlayerSession :=
  {| player_number := 2; token := "token-b"; connected := true |}.

(** A two-player session in play on the given board, all 24 pieces placed. *)
Definition session (rows : list (list Z)) (ph : Phase) (turn n1 n2 : Z)
  (chain : option (Z * Z)) : GameState :=
  {| game_id := "G1"; board := {| cells := rows |}; phase := ph;
     status := PLAYING; current_player := turn;
     player1 := Some seat_A; player2 := Some seat_B;
     pieces_count := {[ 1 := n1; 2 := n2 ]};
     placement_remaining := 2; chain_capture_piece := chain;
     winner := None; game_over := false; total_pieces_placed := 24;
     rematch_requests := None |}.

(** Player 1 to move with ten pieces, walled in by the five pieces of
    player 2 on the middle row. *)
Definition walled_in_leader : GameState :=
  session [[1; 1; 1; 1; 1];
           [1; 1; 1; 1; 1];
           [2; 2; 2; 2; 2];
           [0; 0; 0; 0; 0];
           [0; 0; 0; 0; 0]] MOVEMENT 1 10 5 None.

(** Player 1 to move, walled in, both sides holding five pieces. *)
Definition walled_in_level : GameState :=
  session [[1; 1; 1; 1; 1];
           [2; 2; 2; 2; 2];
           [0; 0; 0; 0; 0];
           [0; 0; 0; 0; 0];
           [0; 0; 0; 0; 0]] MOVEMENT 1 5 5 None.

(** Player 2 is down to one piece. *)
Definition last_piece : GameState :=
  session [[1; 1; 0; 0; 0];
           [0; 0; 0; 0; 0];
           [0; 0; 0; 0; 2];
           [0; 0; 0; 0; 0];
           [0; 0; 0; 0; 0]] MOVEMENT 2 2 1 None.

(** Player 1 has just landed on (1, 1): the piece of player 2 on (1, 2) is
    in custody between (1, 1) and (1, 3); the one on the refuge is not. *)
Definition custody_board : GameState :=
  session [[0; 0; 0; 0; 0];
           [0; 1; 0; 0; 0];
           [0; 2; 2; 1; 0];
           [0; 1; 0; 0; 0];
           [0; 0; 0; 0; 0]] MOVEMENT 1 3 2 None.

(** Player 1 has just landed on (2, 1); the piece of player 2 on the refuge
    is flanked by (2, 1) and (2, 3), and on its row by (1, 2) and (3, 2). *)
Definition refuge_board : GameState :=
  session [[0; 0; 0; 0; 0];
           [0; 0; 1; 0; 0];
           [0; 1; 2; 1; 0];
           [0; 0; 1; 0; 0];
           [0; 0; 0; 2; 0]] MOVEMENT 1 4 2 None.

(** A service holding one session, with nothing queued for delivery. *)
Definition stored (s : GameState) : Service :=
  {| games := {[ game_id s := s ]}; notifier := [] |}.

(** The service after [create_game] drew game id G1 and token token-a. *)
Definition lobby : Service :=
  final (GameService.create_game "G1" "token-a" initial).

(** ** Sample games *)

Definition place_a (x y : Z) : Action := PlacePiece "G1" "token-a" x y.
Definition place_b (x y : Z) : Action := PlacePiece "G1" "token-b" x y.

(** Player 1 creates G1, player 2 joins and player 1 is drawn to start. *)
Definition seating : list Action :=
  [CreateGame "G1" "token-a"; JoinGame "token-b" 1 "G1" None].

(** A placement phase after which player 1, by moving (2, 1) to the refuge,
    captures (2, 3) and can capture again from (2, 3). *)
Definition last_piece_to_place : list Action :=
  seating ++
  [place_a 2 1; place_a 2 4; place_b 2 3; place_b 3 3;
   place_a 3 2; place_a 1 2; place_b 3 1; place_b 4 1;
   place_a 4 3; place_a 0 0; place_b 0 2; place_b 4 2;
   place_a 1 0; place_a 2 0; place_b 0 3; place_b 1 3;
   place_a 3 0; place_a 4 0; place_b 0 4; place_b 1 4;
   place_a 0 1; place_a 1 1; place_b 3 4].

Definition chain_opening : list Action :=
  last_piece_to_place ++ [place_b 4 4].

(** The session after [chain_opening], after the move of (2, 1) to the
    refuge, and after the removal of the piece captured on (2, 3). *)
Definition chain_start : GameState :=
  session [[1; 1; 1; 1; 1];
           [1; 1; 1; 2; 2];
           [2; 1; 0; 1; 2];
           [2; 2; 2; 2; 1];
           [2; 2; 1; 2; 2]] MOVEMENT 1 12 12 None.

Definition chain_moved : GameState :=
  set_board {| cells := [[1; 1; 1; 1; 1];
                         [1; 1; 0; 2; 2];
                         [2; 1; 1; 1; 2];
                         [2; 2; 2; 2; 1];
                         [2; 2; 1; 2; 2]] |} chain_start.

Definition chain_captured : GameState :=
  set_pieces_count {[ 1 := 12; 2 := 11 ]}
    (set_board {| cells := [[1; 1; 1; 1; 1];
                            [1; 1; 0; 2; 2];
                            [2; 1; 1; 1; 2];
                            [2; 2; 0; 2; 1];
                            [2; 2; 1; 2; 2]] |} chain_start).

Definition chain_game : list Action :=
  chain_opening ++ [MovePiece "G1" "token-a" 2 1 2 2].

(** A placement phase after which the first move of player 1, (2, 1) to the
    refuge, captures nothing and leaves player 2 without a move: the game
    ends at once. *)
Definition short_game : list Action :=
  seating ++
  [place_a 2 1; place_a 1 1; place_b 4 1; place_b 0 2;
   place_a 3 1; place_a 2 0; place_b 4 2; place_b 0 3;
   place_a 1 2; place_a 3 2; place_b 1 3; place_b 3 3;
   place_a 2 3; place_a 0 0; place_b 4 3; place_b 0 4;
   place_a 1 0; place_a 3 0; place_b 1 4; place_b 2 4;
   place_a 4 0; place_a 0 1; place_b 3 4; place_b 4 4;
   MovePiece "G1" "token-a" 2 1 2 2].

(** Both players then ask for a rematch; player 2 is drawn to start. *)
Definition rematch_both : list Action :=
  [RematchGame 2 "G1" "token-a"; RematchGame 2 "G1" "token-b"].

(** ** Vocabulary of the further properties *)

(** The cells of the board in the order of the nested loops
    [for y in range(SIZE): for x in range(SIZE)]. *)
Definition all_cells : list (Z * Z) :=
  y ← seqZ 0 SIZE; x ← seqZ 0 SIZE; [(x, y)].

(** A session is finished exactly when its game is over, and then it has
    a winner, player 1 or player 2. *)
Record settled (s : GameState) : Prop := {
  settled_status : game_over s = true ↔ status s = FINISHED;
  settled_winner : game_over s = true ↔ is_Some (winner s);
  settled_seat : ∀ n, winner s = Some n → n = 1 ∨ n = 2
}.

(** A property of every stored session. *)
Definition stored_sessions (P : GameState → Prop) (w : Service) : Prop :=
  ∀ k s, games w !! k = Some s → P s.

(** The token [_get_opponent_token] returns for the holder of [t]. *)
Definition opponent_token (s : GameState) (t : string) : option string :=
  if has_token (player1 s) t then token <$> player2 s
  else if has_token (player2 s) t then token <$> player1 s
  else None.

(** The session [move_piece] leaves once the captures are applied: pinned
    on the moved piece when a further capture is possible ([extra]),
    otherwise with the chain pointer cleared and the turn passed. *)
Definition after_move (extra : bool) (to : Z * Z) (s : GameState) : GameState :=
  if extra then set_chain_capture_piece (Some to) s
  else set_current_player (get_opponent (current_player s))
         (set_chain_capture_piece None s).

(** The session once [check_victory] has answered: marked finished with
    its winner when the game is over. *)
Definition after_victory_check (over : bool) (win : option Z) (s : GameState)
  : GameState :=
  if over then set_status FINISHED (set_game_over true (set_winner win s)) else s.

(** The exception a computation stops with, if it raises. *)
Definition failure {S A} (o : outcome S A) : option exn :=
  match o with
  | Return _ _ => None
  | Raise e _ => Some e
  end.

(** The exception request [a] is answered with, if it fails. *)
Definition raised (a : Action) (w : Service) : option exn :=
  match a with
  | CreateGame g t => failure (GameService.create_game g t w)
  | JoinGame t c g e => failure (GameService.join_game t c g e w)
  | ReconnectGame g t => failure (GameService.reconnect_game g t w)
  | GetGameState g t => failure (GameService.get_game_state g t w)
  | GetValidActions g t => failure (GameService.get_valid_actions g t w)
  | PlacePiece g t x y => failure (GameService.place_piece g t x y w)
  | MovePiece g t fx fy tx ty => failure (GameService.move_piece g t fx fy tx ty w)
  | LeaveGame g t => failure (GameService.leave_game g t w)
  | RematchGame c g t => failure (GameService.rematch_game c g t w)
  end.

(** The game id a request names. *)
Definition target (a : Action) : string :=
  match a with
  | CreateGame g _ | JoinGame _ _ g _ | ReconnectGame g _ | GetGameState g _
  | GetValidActions g _ | PlacePiece g _ _ _ | MovePiece g _ _ _ _ _
  | LeaveGame g _ | RematchGame _ g _ => g
  end.

(** While pieces are being placed, the player to move has a placement
    left. *)
Definition placements_left (s : GameState) : Prop :=
  phase s = PLACEMENT → 0 < placement_remaining s.

(** Placement under way: player 1 has put down two pieces, player 2 one of
    its two. *)
Definition early_placement : GameState :=
  {| game_id := "G1";
     board := {| cells := [[1; 1; 0; 0; 0];
                           [0; 0; 0; 0; 0];
                           [0; 0; 0; 0; 2];
                           [0; 0; 0; 0; 0];
                           [0; 0; 0; 0; 0]] |};
     phase := PLACEMENT; status := PLAYING; current_player := 2;
     player1 := Some seat_A; player2 := Some seat_B;
     pieces_count := {[ 1 := 2; 2 := 1 ]};
     placement_remaining := 1; chain_capture_piece := None;
     winner := None; game_over := false; total_pieces_placed := 3;
     rematch_requests := None |}.

(** * Properties *)

(** ** The monad *)

Lemma bind_Return {S A B} (m : M S A) (f : A → M S B) s a s' :
  m s = Return a s' → (m ≫= f) s = f a s'.
Proof. intros H. unfold mbind, M_bind. by rewrite H. Qed.

Lemma bind_Raise {S A B} (m : M S A) (f : A → M S B) s e s' :
  m s = Raise e s' → (m ≫= f) s = Raise e s'.
Proof. intros H. unfold mbind, M_bind. by rewrite H. Qed.

Section preserves.
Context {S : Type} (R : relation S) `{!PreOrder R}.

Lemma preserves_ret {A} (a : A) : preserves R (mret a : M S A).
Proof. intros s. simpl. reflexivity. Qed.

Lemma preserves_raise {A} e : preserves R (raise e : M S A).
Proof. intros s. simpl. reflexivity. Qed.

Lemma preserves_gets {A} (f : S → A) : preserves R (gets f).
Proof. intros s. simpl. reflexivity. Qed.

Lemma preserves_modify (f : S → S) : (∀ s, R s (f s)) → preserves R (modify f).
Proof. intros H s. apply H. Qed.

Lemma preserves_bind {A B} (m : M S A) (f : A → M S B) :
  preserves R m → (∀ a, preserves R (f a)) → preserves R (m ≫= f).
Proof.
  intros Hm Hf s. specialize (Hm s). unfold mbind, M_bind.
  destruct (m s) as [a s'|e s']; simpl in *; [|done].
  etrans; [exact Hm|apply Hf].
Qed.

Lemma preserves_for_in {A B} (l : list A) (body : A → B → M S B) acc :
  (∀ a b, preserves R (body a b)) → preserves R (for_in l acc body).
Proof.
  intros Hb. revert acc. induction l as [|a l IH]; intros acc; simpl.
  - apply preserves_ret.
  - apply preserves_bind; auto.
Qed.

Lemma preserves_for_return {A B} (l : list A) (body : A → M S (option B)) :
  (∀ a, preserves R (body a)) → preserves R (for_return l body).
Proof.
  intros Hb. induction l as [|a l IH]; simpl.
  - apply preserves_ret.
  - apply preserves_bind; [auto|]. intros [b|]; [apply preserves_ret|done].
Qed.
End preserves.

(** ** Python indexing and the board *)

Lemma py_index_in_range n i : 0 ≤ i < n → py_index n i = Some (Z.to_nat i).
Proof. intros H. unfold py_index. by rewrite decide_True. Qed.

Lemma valid_position_iff x y :
  Board_is_valid_position x y = true ↔ 0 ≤ x < 5 ∧ 0 ≤ y < 5.
Proof.
  unfold Board_is_valid_position, SIZE.
  rewrite andb_true_iff, !bool_decide_eq_true. done.
Qed.

Lemma wf_board_row b i :
  wf_board b → (i < 5)%nat → ∃ row, cells b !! i = Some row ∧ length row = 5%nat.
Proof.
  intros [Hl Hr] Hi.
  destruct (lookup_lt_is_Some_2 (cells b) i) as [row Hrow]; [lia|].
  exists row. split; [done|].
  by eapply (Forall_lookup_1 _ _ _ _ Hr).
Qed.

Lemma Board_get_lookup b x y :
  wf_board b → Board_is_valid_position x y = true →
  Board_get b x y = row ← cells b !! Z.to_nat y; row !! Z.to_nat x.
Proof.
  intros Hwf [Hx Hy]%valid_position_iff.
  destruct (wf_board_row b (Z.to_nat y) Hwf) as (row & Hrow & Hlen); [lia|].
  unfold Board_get, list_getitem.
  rewrite (proj1 Hwf), py_index_in_range by lia. simpl.
  rewrite Hrow. simpl. rewrite Hlen, py_index_in_range by lia. done.
Qed.

Lemma Board_get_is_Some b x y :
  wf_board b → Board_is_valid_position x y = true → is_Some (Board_get b x y).
Proof.
  intros Hwf Hv. rewrite Board_get_lookup by done.
  apply valid_position_iff in Hv as [Hx Hy].
  destruct (wf_board_row b (Z.to_nat y) Hwf) as (row & Hrow & Hlen); [lia|].
  rewrite Hrow. simpl. apply lookup_lt_is_Some_2. lia.
Qed.

Lemma Board_set_spec b x y v :
  wf_board b → Board_is_valid_position x y = true →
  ∃ b', Board_set b x y v = Some b' ∧ wf_board b' ∧
    ∀ x' y', Board_is_valid_position x' y' = true →
      Board_get b' x' y' =
        if decide (x' = x ∧ y' = y) then Some v else Board_get b x' y'.
Proof.
  intros Hwf Hv. pose proof Hv as [Hx Hy]%valid_position_iff.
  destruct (wf_board_row b (Z.to_nat y) Hwf) as (row & Hrow & Hlen); [lia|].
  set (b' := {| cells := <[Z.to_nat y := <[Z.to_nat x := v]> row]> (cells b) |}).
  assert (Hwf' : wf_board b').
  { destruct Hwf as [Hl Hr]. split; simpl.
    - by rewrite length_insert.
    - apply Forall_insert; [done|]. by rewrite length_insert. }
  exists b'. split; [|split; [done|]].
  - unfold Board_set, list_getitem, list_setitem.
    rewrite (proj1 Hwf), py_index_in_range by lia. simpl.
    rewrite Hrow. simpl. rewrite Hlen, py_index_in_range by lia. done.
  - intros x' y' Hv'. pose proof Hv' as [Hx' Hy']%valid_position_iff.
    rewrite !Board_get_lookup by done. simpl.
    destruct (decide (y' = y)) as [->|Hne].
    + rewrite list_lookup_insert_eq by (rewrite (proj1 Hwf); lia). simpl.
      rewrite Hrow. simpl.
      destruct (decide (x' = x)) as [->|Hnx].
      * rewrite decide_True by done.
        apply list_lookup_insert_eq. lia.
      * rewrite decide_False by (intros [? _]; done).
        apply list_lookup_insert_ne. lia.
    + rewrite decide_False by (intros [_ ?]; done).
      rewrite list_lookup_insert_ne by lia. done.
Qed.

Lemma Board_ext b b' :
  wf_board b → wf_board b' →
  (∀ x y, Board_is_valid_position x y = true → Board_get b x y = Board_get b' x y) →
  b = b'.
Proof.
  intros Hwf Hwf' Heq. destruct b as [c], b' as [c']. f_equal.
  apply list_eq. intros i.
  destruct (decide (i < 5)%nat) as [Hi|Hi].
  - destruct (wf_board_row _ i Hwf Hi) as (row & Hrow & Hlen).
    destruct (wf_board_row _ i Hwf' Hi) as (row' & Hrow' & Hlen').
    simpl in *. rewrite Hrow, Hrow'. f_equal.
    apply list_eq. intros j.
    destruct (decide (j < 5)%nat) as [Hj|Hj].
    + assert (Hv : Board_is_valid_position (Z.of_nat j) (Z.of_nat i) = true)
        by (apply valid_position_iff; lia).
      specialize (Heq _ _ Hv). rewrite !Board_get_lookup in Heq by done.
      simpl in Heq. rewrite !Nat2Z.id, Hrow, Hrow' in Heq. done.
    + rewrite !lookup_ge_None_2 by lia. done.
  - destruct Hwf as [Hl _], Hwf' as [Hl' _]. simpl in *.
    rewrite !lookup_ge_None_2 by lia. done.
Qed.

Lemma wf_Board_new : wf_board Board_new.
Proof. split; [done|]. simpl. repeat constructor. Qed.

Lemma board_get_Return s x y v :
  Board_get (board s) x y = Some v → board_get x y s = Return v s.
Proof. intros H. unfold board_get. by rewrite H. Qed.

Lemma board_get_valid s x y :
  wf_board (board s) → Board_is_valid_position x y = true →
  ∃ v, Board_get (board s) x y = Some v ∧ board_get x y s = Return v s.
Proof.
  intros Hwf Hv. destruct (Board_get_is_Some _ _ _ Hwf Hv) as [v Hg].
  exists v. split; [done|]. by apply board_get_Return.
Qed.

Lemma board_is_empty_Return s x y v :
  Board_get (board s) x y = Some v →
  board_is_empty x y s = Return (bool_decide (v = EMPTY)) s.
Proof. intros H. unfold board_is_empty, Board_is_empty. by rewrite H. Qed.

Lemma board_set_valid s x y v :
  wf_board (board s) → Board_is_valid_position x y = true →
  ∃ b', board_set x y v s = Return () (set_board b' s) ∧ wf_board b' ∧
    ∀ x' y', Board_is_valid_position x' y' = true →
      Board_get b' x' y' =
        if decide (x' = x ∧ y' = y) then Some v else Board_get (board s) x' y'.
Proof.
  intros Hwf Hv. destruct (Board_set_spec _ _ _ v Hwf Hv) as (b' & Hs & Hwf' & Hg).
  exists b'. split; [|done]. unfold board_set. by rewrite Hs.
Qed.

Lemma for_in_Return {S A B} (l : list A) (body : A → B → M S B) (g : A → B → B) s :
  (∀ a acc, body a acc s = Return (g a acc) s) →
  ∀ acc, for_in l acc body s = Return (foldl (λ acc a, g a acc) acc l) s.
Proof.
  intros Hb. induction l as [|a l IH]; intros acc; simpl; [done|].
  rewrite (bind_Return _ _ _ _ _ (Hb a acc)). apply IH.
Qed.

(** ** Custody capture *)

Global Instance holds_dec b x y v : Decision (holds b x y v).
Proof. unfold holds. apply _. Defined.

Global Instance custody_dec b x y player d : Decision (custody b x y player d).
Proof. unfold custody. apply _. Defined.

Lemma refuge_iff x y : Board_is_refuge x y = true ↔ (x, y) = (REFUGE_X, REFUGE_Y).
Proof.
  unfold Board_is_refuge. rewrite andb_true_iff, !bool_decide_eq_true.
  split; [intros [-> ->]; done|intros [= -> ->]; done].
Qed.

(** The loop body of [check_captures] appends the neighbour in direction
    [d] exactly when custody holds in that direction. *)
Lemma check_captures_eq s x y player :
  wf_board (board s) →
  rules_capture.check_captures x y player s =
    Return ((λ d, (x + d.1, y + d.2)) <$>
              filter (custody (board s) x y player) [(1, 0); (-1, 0); (0, 1); (0, -1)]) s.
Proof.
  intros Hwf. unfold rules_capture.check_captures.
  rewrite (for_in_Return _ _
    (λ d acc, if decide (custody (board s) x y player d)
              then acc ++ [(x + d.1, y + d.2)] else acc)).
  - simpl. f_equal.
    rewrite !filter_cons, filter_nil.
    repeat case_decide; reflexivity.
  - intros [dx dy] acc.
    change (if decide (player = 1) then 2 else 1) with (get_opponent player).
    cbv beta iota zeta.
    destruct (decide (custody (board s) x y player (dx, dy)))
      as [([Hve Hge] & Hr & [Hvs Hgs])|Hc]; simpl in *.
    + rewrite Hve, Hvs. simpl.
      rewrite (bind_Return _ _ _ _ _ (board_get_Return _ _ _ _ Hge)).
      rewrite decide_False by (intros ?; done).
      destruct (Board_is_refuge (x + dx) (y + dy)) eqn:Hr';
        [by apply refuge_iff in Hr'|].
      rewrite (bind_Return _ _ _ _ _ (board_get_Return _ _ _ _ Hgs)).
      by rewrite decide_True.
    + destruct (Board_is_valid_position (x + dx) (y + dy)) eqn:He; [|done].
      destruct (Board_is_valid_position (x + 2 * dx) (y + 2 * dy)) eqn:Hs; [|done].
      simpl.
      destruct (board_get_valid s _ _ Hwf He) as (e & Hge & Hre).
      destruct (board_get_valid s _ _ Hwf Hs) as (sp & Hgs & Hrs).
      rewrite (bind_Return _ _ _ _ _ Hre).
      destruct (decide (e ≠ get_opponent player)) as [Hne|Heq%dec_stable]; [done|].
      destruct (Board_is_refuge (x + dx) (y + dy)) eqn:Hr; [done|].
      rewrite (bind_Return _ _ _ _ _ Hrs).
      destruct (decide (sp = player)) as [->|Hne]; [|done].
      exfalso. apply Hc. unfold custody, holds. simpl. repeat split; try done.
      * congruence.
      * intros Hr'%refuge_iff. congruence.
Qed.

(** C2. [check_captures] returns, without touching the session, exactly the
    cells [(x, y) + d], [d] an orthogonal direction, that are on the board,
    hold the opponent's piece, are not the refuge [(2, 2)] and have the
    player's own piece on the board at [(x, y) + 2d]; the list follows the
    scan order +x, -x, +y, -y, has at most four entries and never contains
    the refuge. *)
Theorem check_captures_spec (s : GameState) (x y player : Z) :
  wf_board (board s) →
  ∃ captured,
    rules_capture.check_captures x y player s = Return captured s
    ∧ (∀ c, c ∈ captured ↔
         ∃ d, d ∈ [(1, 0); (-1, 0); (0, 1); (0, -1)]
              ∧ c = (x + d.1, y + d.2)
              ∧ holds (board s) c.1 c.2 (get_opponent player)
              ∧ c ≠ (2, 2)
              ∧ holds (board s) (x + 2 * d.1) (y + 2 * d.2) player)
    ∧ captured `sublist_of` [(x + 1, y); (x - 1, y); (x, y + 1); (x, y - 1)]
    ∧ (length captured ≤ 4)%nat
    ∧ (2, 2) ∉ captured.
Proof.
  intros Hwf. eexists. split; [by apply check_captures_eq|].
  set (dirs := [(1, 0); (-1, 0); (0, 1); (0, -1)]).
  assert (Hmem : ∀ c,
    c ∈ (λ d, (x + d.1, y + d.2)) <$> filter (custody (board s) x y player) dirs ↔
    ∃ d, d ∈ dirs ∧ c = (x + d.1, y + d.2)
         ∧ holds (board s) c.1 c.2 (get_opponent player)
         ∧ c ≠ (2, 2)
         ∧ holds (board s) (x + 2 * d.1) (y + 2 * d.2) player).
  { intros c. rewrite list_elem_of_fmap. split.
    - intros (d & -> & [(He & Hr & Hs) Hd]%list_elem_of_filter).
      exists d. done.
    - intros (d & Hd & -> & He & Hr & Hs). exists d. split; [done|].
      apply list_elem_of_filter. done. }
  split; [exact Hmem|]. split; [|split].
  - replace [(x + 1, y); (x - 1, y); (x, y + 1); (x, y - 1)]
      with ((λ d, (x + d.1, y + d.2)) <$> dirs)
      by (simpl; repeat f_equal; lia).
    apply fmap_sublist, sublist_filter.
  - rewrite length_fmap. etrans; [apply length_filter|]. done.
  - intros (d & _ & _ & _ & Hr & _)%Hmem. done.
Qed.

(** ** Code that does not write *)

Ltac preserves_step :=
  match goal with
  | |- preserves _ (mret _) => apply preserves_ret; try apply _
  | |- preserves _ (raise _) => apply preserves_raise; try apply _
  | |- preserves _ (gets _) => apply preserves_gets; try apply _
  | |- preserves _ (_ ≫= _) => apply preserves_bind; [try apply _| |intros ?]
  | |- preserves _ (for_in _ _ _) => apply preserves_for_in; [try apply _|intros ? ?]
  | |- preserves _ (for_return _ _) => apply preserves_for_return; [try apply _|intros ?]
  | |- preserves _ (if ?b then _ else _) => destruct b
  | |- preserves _ (match ?x with _ => _ end) => destruct x
  | |- preserves _ (match ?x with _ => _ end _) => destruct x; cbv beta iota
  | |- preserves _ (let _ := _ in _) => cbv zeta
  end.

Lemma board_get_readonly x y : preserves eq (board_get x y).
Proof. intros s. unfold board_get. by destruct (Board_get _ _ _). Qed.

Lemma count_get_readonly k : preserves eq (count_get k).
Proof. intros s. unfold count_get. by destruct (_ !! _). Qed.

Lemma board_is_empty_readonly x y : preserves eq (board_is_empty x y).
Proof. intros s. unfold board_is_empty. by destruct (Board_is_empty _ _ _). Qed.

Create HintDb readonly.
#[global] Hint Resolve board_get_readonly count_get_readonly
  board_is_empty_readonly : readonly.

Ltac readonly := repeat (preserves_step || solve [eauto with readonly]).

Lemma check_captures_readonly x y player :
  preserves eq (rules_capture.check_captures x y player).
Proof. unfold rules_capture.check_captures. readonly. Qed.

Lemma get_valid_moves_for_piece_readonly x y :
  preserves eq (rules_phase2.get_valid_moves_for_piece x y).
Proof. unfold rules_phase2.get_valid_moves_for_piece. readonly. Qed.

#[global] Hint Resolve check_captures_readonly
  get_valid_moves_for_piece_readonly : readonly.

Lemma get_valid_placements_readonly :
  preserves eq rules_phase1.get_valid_placements.
Proof. unfold rules_phase1.get_valid_placements. readonly. Qed.

#[global] Hint Resolve get_valid_placements_readonly : readonly.

Lemma get_all_valid_moves_readonly player :
  preserves eq (rules_phase2.get_all_valid_moves player).
Proof. unfold rules_phase2.get_all_valid_moves. readonly. Qed.

#[global] Hint Resolve get_all_valid_moves_readonly : readonly.

Lemma check_victory_readonly : preserves eq rules_victory.check_victory.
Proof. unfold rules_victory.check_victory. readonly. Qed.

Lemma can_place_piece_readonly x y player :
  preserves eq (rules_phase1.can_place_piece x y player).
Proof. unfold rules_phase1.can_place_piece. readonly. Qed.

Lemma can_move_piece_readonly fx fy tx ty player :
  preserves eq (rules_phase2.can_move_piece fx fy tx ty player).
Proof. unfold rules_phase2.can_move_piece. readonly. Qed.

#[global] Hint Resolve check_victory_readonly can_place_piece_readonly
  can_move_piece_readonly : readonly.

(** What a read-only computation returns, it returns in the state it ran in. *)
Lemma readonly_Return {S A} (m : M S A) s a s' :
  preserves eq m → m s = Return a s' → s' = s.
Proof. intros Hm H. specialize (Hm s). rewrite H in Hm. done. Qed.

Lemma readonly_Raise {S A} (m : M S A) s e s' :
  preserves eq m → m s = Raise e s' → s' = s.
Proof. intros Hm H. specialize (Hm s). rewrite H in Hm. done. Qed.

(** A loop whose body returns without writing, with a loop invariant on
    its local variables. *)
Lemma for_in_invariant {S A B} (I : B → Prop) (l : list A)
    (body : A → B → M S B) s :
  (∀ a acc, a ∈ l → I acc → ∃ acc', body a acc s = Return acc' s ∧ I acc') →
  ∀ acc, I acc → ∃ r, for_in l acc body s = Return r s ∧ I r.
Proof.
  induction l as [|a l IH]; intros Hb acc Hacc; simpl.
  - by exists acc.
  - destruct (Hb a acc) as (acc' & Hr & Hacc'); [left|done|].
    rewrite (bind_Return _ _ _ _ _ Hr).
    apply IH; [|done]. intros a' b' Hin. apply Hb. by right.
Qed.

Lemma set_board_id s : set_board (board s) s = s.
Proof. by destruct s. Qed.

Lemma set_board_set_board b b' s : set_board b' (set_board b s) = set_board b' s.
Proof. done. Qed.

(** ** Chain-capture lookahead *)

(** One speculative relocation of the piece on [(x, y)] to an empty cell
    [(mx, my)]: the four writes cancel out. *)
Lemma speculative_move_restores s x y player mx my :
  wf_board (board s) →
  holds (board s) x y player →
  holds (board s) mx my EMPTY →
  (mx, my) ≠ (x, y) →
  ∃ captured,
    (board_set x y EMPTY;;
     board_set mx my player;;
     captures ← rules_capture.check_captures mx my player;
     board_set mx my EMPTY;;
     board_set x y player;;
     mret captures) s = Return captured s.
Proof.
  intros Hwf [Hv Hg] [Hmv Hmg] Hne.
  destruct (board_set_valid s x y EMPTY Hwf Hv) as (b1 & H1 & Hwf1 & Hg1).
  rewrite (bind_Return _ _ _ _ _ H1).
  destruct (board_set_valid (set_board b1 s) mx my player Hwf1 Hmv)
    as (b2 & H2 & Hwf2 & Hg2).
  rewrite (bind_Return _ _ _ _ _ H2).
  rewrite (bind_Return _ _ _ _ _
    (check_captures_eq (set_board b2 (set_board b1 s)) mx my player Hwf2)).
  destruct (board_set_valid (set_board b2 (set_board b1 s)) mx my EMPTY Hwf2 Hmv)
    as (b3 & H3 & Hwf3 & Hg3).
  rewrite (bind_Return _ _ _ _ _ H3).
  destruct (board_set_valid (set_board b3 (set_board b2 (set_board b1 s)))
              x y player Hwf3 Hv) as (b4 & H4 & Hwf4 & Hg4).
  rewrite (bind_Return _ _ _ _ _ H4).
  eexists. simpl. f_equal.
  rewrite !set_board_set_board.
  rewrite <- (set_board_id s) at 2. f_equal.
  apply Board_ext; [done..|].
  intros x' y' Hv'. simpl in *.
  rewrite Hg4, Hg3, Hg2, Hg1 by done.
  repeat case_decide; destruct_and?; simplify_eq; done.
Qed.

Lemma possible_moves_Return s x y :
  wf_board (board s) →
  ∃ possible_moves,
    for_in [(0, 1); (0, -1); (1, 0); (-1, 0)] []
      (λ '(dx, dy) (possible_moves : list (Z * Z)),
         let new_x := x + dx in
         let new_y := y + dy in
         if Board_is_valid_position new_x new_y then
           e ← board_is_empty new_x new_y;
           if (e : bool) then mret (possible_moves ++ [(new_x, new_y)])
           else mret possible_moves
         else mret possible_moves) s = Return possible_moves s
    ∧ Forall (λ m, holds (board s) m.1 m.2 EMPTY ∧ m ≠ (x, y)) possible_moves.
Proof.
  intros Hwf. apply for_in_invariant; [|done].
  intros [dx dy] acc Hd Hacc. cbv zeta.
  destruct (Board_is_valid_position (x + dx) (y + dy)) eqn:Hv;
    [|by exists acc].
  destruct (Board_get_is_Some _ _ _ Hwf Hv) as [v Hg].
  rewrite (bind_Return _ _ _ _ _ (board_is_empty_Return _ _ _ _ Hg)).
  case_bool_decide as He; [|by exists acc]. rewrite He in Hg.
  eexists. split; [done|].
  apply Forall_app. split; [done|]. constructor; [|done]. split; [done|].
  set_unfold in Hd. intros [= ? ?].
  destruct Hd as [Hd|[Hd|[Hd|[Hd|[]]]]]; simplify_eq; lia.
Qed.

Lemma chain_lookahead_returns (s : GameState) (x y player : Z) :
  wf_board (board s) →
  holds (board s) x y player →
  ∃ result, rules_capture.has_capture_chain x y player s = Return result s.
Proof.
  intros Hwf Hxy. unfold rules_capture.has_capture_chain. cbv zeta.
  destruct (possible_moves_Return s x y Hwf) as (pm & Hpm & HP).
  rewrite (bind_Return _ _ _ _ _ Hpm). clear Hpm.
  assert (Hloop : ∃ r,
    for_return pm (λ '(move_x, move_y),
      board_set x y EMPTY;;
      board_set move_x move_y player;;
      captures ← rules_capture.check_captures move_x move_y player;
      board_set move_x move_y EMPTY;;
      board_set x y player;;
      if decide (0 < Z.of_nat (length captures)) then mret (Some true)
      else mret None) s = Return r s).
  { induction pm as [|[mx my] pm IH]; simpl; [by eexists|].
    apply Forall_cons in HP as [[Hm Hne] HP].
    destruct (speculative_move_restores s x y player mx my Hwf Hxy Hm Hne)
      as (caps & Hcaps).
    revert Hcaps. unfold mbind, M_bind.
    destruct (board_set x y EMPTY s) as [[] s1|]; [|done].
    destruct (board_set mx my player s1) as [[] s2|]; [|done].
    destruct (rules_capture.check_captures mx my player s2) as [caps' s3|]; [|done].
    destruct (board_set mx my EMPTY s3) as [[] s4|]; [|done].
    destruct (board_set x y player s4) as [[] s5|]; [|done].
    simpl. intros [= -> ->].
    case_decide; simpl; [by eexists|]. by apply IH. }
  destruct Hloop as (r & Hr). rewrite (bind_Return _ _ _ _ _ Hr).
  destruct r; by eexists.
Qed.

(** C9 (amended). When [(x, y)] is the position of a piece of [player],
    [has_capture_chain] returns a boolean and leaves the session, hence its
    board, exactly as it was before the call: every speculative relocation
    is reverted before the function decides, also on the path that returns
    early at the first relocation that captures. *)
Theorem has_capture_chain_restores_board (s : GameState) (x y player : Z) :
  wf_board (board s) →
  holds (board s) x y player →
  ∃ result, rules_capture.has_capture_chain x y player s = Return result s.
Proof.
  intros Hwf Hxy.
  destruct (chain_lookahead_returns s x y player Hwf Hxy) as [r Hr].
  exists r. exact Hr.
Qed.

(** ** Victory *)

Lemma count_get_Return s k v : pieces_count s !! k = Some v → count_get k s = Return v s.
Proof. intros H. unfold count_get. by rewrite H. Qed.

(** C4. In the movement phase, as soon as a piece count is below 2,
    [check_victory] reports the game over, before looking at the moves,
    with as winner the opponent of a player whose count is below 2:
    player 2 when player 1 is short, otherwise player 1.  In particular a
    player whose count has been reduced to 1, facing an opponent who still
    holds 2 pieces or more, loses at the next check. *)
Theorem check_victory_attrition (s : GameState) (p1 p2 : Z) :
  phase s = MOVEMENT →
  pieces_count s !! 1 = Some p1 →
  pieces_count s !! 2 = Some p2 →
  p1 < 2 ∨ p2 < 2 →
  ∃ w reason,
    rules_victory.check_victory s = Return (true, Some w, reason) s
    ∧ (w = 2 ∧ p1 < 2 ∨ w = 1 ∧ p2 < 2)
    ∧ (p1 < 2 → w = 2)
    ∧ (2 ≤ p1 → w = 1)
    ∧ (p1 = 1 → 2 ≤ p2 → w = get_opponent 1)
    ∧ (p2 = 1 → 2 ≤ p1 → w = get_opponent 2).
Proof.
  intros Hph H1 H2 Hlt. unfold rules_victory.check_victory.
  unfold mbind, M_bind, gets. rewrite Hph. simpl.
  rewrite (count_get_Return _ _ _ H1), (count_get_Return _ _ _ H2).
  destruct (decide (p1 < 2)) as [Hp1|Hp1].
  - exists 2. eexists. split; [done|]. unfold get_opponent. simpl.
    repeat split; try done; lia.
  - rewrite decide_True by lia.
    exists 1. eexists. split; [done|]. unfold get_opponent. simpl.
    repeat split; try done; lia.
Qed.

(** What [check_victory] answers in a stalemate.  In the movement phase,
    with both players holding 2 pieces or more and no move available to the
    player whose turn it is, it reports the game over; the winner it names
    is the side holding more pieces, and the opponent of the blocked player
    when the counts are equal.  The blocked player loses, as the comment in
    the code says it does, whenever it does not hold strictly more pieces
    than its opponent; where it does, the code names it the winner, which
    is the defect shown below. *)
Theorem check_victory_stalemate (s : GameState) (p1 p2 : Z) :
  phase s = MOVEMENT →
  pieces_count s !! 1 = Some p1 →
  pieces_count s !! 2 = Some p2 →
  2 ≤ p1 → 2 ≤ p2 →
  rules_phase2.get_all_valid_moves (current_player s) s = Return [] s →
  ∃ w reason,
    rules_victory.check_victory s = Return (true, Some w, reason) s
    ∧ (p2 < p1 → w = 1)
    ∧ (p1 < p2 → w = 2)
    ∧ (p1 = p2 → w = get_opponent (current_player s))
    ∧ (current_player s = 1 → p1 ≤ p2 → w = 2)
    ∧ (current_player s = 2 → p2 ≤ p1 → w = 1).
Proof.
  intros Hph H1 H2 Hp1 Hp2 Hmoves. unfold rules_victory.check_victory.
  unfold mbind, M_bind, gets. rewrite Hph. simpl.
  rewrite (count_get_Return _ _ _ H1), (count_get_Return _ _ _ H2).
  rewrite !decide_False by lia. rewrite Hmoves. simpl.
  unfold get_opponent.
  destruct (decide (p2 < p1)); [|destruct (decide (p1 < p2))].
  - exists 1. eexists. split; [done|]. repeat split; intros; try done; lia.
  - exists 2. eexists. split; [done|]. repeat split; intros; try done; lia.
  - eexists. eexists. split; [done|].
    repeat split; intros; try lia; try done.
    + by rewrite decide_True.
    + rewrite decide_False by lia. done.
Qed.

Lemma wf_board_rows r0 r1 r2 r3 r4 :
  Forall (λ row : list Z, length row = 5%nat) [r0; r1; r2; r3; r4] →
  wf_board {| cells := [r0; r1; r2; r3; r4] |}.
Proof. by split. Qed.

Ltac wf_rows := apply wf_board_rows; repeat constructor.

Lemma check_captures_spec_witness :
  wf_board (board custody_board)
  ∧ ∃ captured,
      rules_capture.check_captures 1 1 1 custody_board = Return captured custody_board
      ∧ (∀ c, c ∈ captured ↔
           ∃ d, d ∈ [(1, 0); (-1, 0); (0, 1); (0, -1)]
                ∧ c = (1 + d.1, 1 + d.2)
                ∧ holds (board custody_board) c.1 c.2 (get_opponent 1)
                ∧ c ≠ (2, 2)
                ∧ holds (board custody_board) (1 + 2 * d.1) (1 + 2 * d.2) 1)
      ∧ captured `sublist_of` [(1 + 1, 1); (1 - 1, 1); (1, 1 + 1); (1, 1 - 1)]
      ∧ (length captured ≤ 4)%nat
      ∧ (2, 2) ∉ captured.
Proof.
  split; [wf_rows|].
  apply (check_captures_spec custody_board 1 1 1). wf_rows.
Defined.

Example check_captures_custody :
  rules_capture.check_captures 1 1 1 custody_board = Return [(1, 2)] custody_board.
Proof. vm_compute. reflexivity. Qed.

Example check_captures_refuge_immune :
  rules_capture.check_captures 2 1 1 refuge_board = Return [] refuge_board.
Proof. vm_compute. reflexivity. Qed.

Lemma has_capture_chain_restores_board_witness :
  wf_board (board custody_board)
  ∧ holds (board custody_board) 1 1 1
  ∧ ∃ result,
      rules_capture.has_capture_chain 1 1 1 custody_board = Return result custody_board.
Proof.
  assert (Hwf : wf_board (board custody_board)) by wf_rows.
  assert (Hp : holds (board custody_board) 1 1 1) by (split; reflexivity).
  split; [exact Hwf|]. split; [exact Hp|].
  exact (has_capture_chain_restores_board custody_board 1 1 1 Hwf Hp).
Defined.

Example has_capture_chain_early_return :
  rules_capture.has_capture_chain 2 2 1 chain_captured = Return true chain_captured.
Proof. vm_compute. reflexivity. Qed.

Example has_capture_chain_no_capture :
  rules_capture.has_capture_chain 1 1 1 custody_board = Return false custody_board.
Proof. vm_compute. reflexivity. Qed.

(** C9 as stated fails: asked about player 1 on (1, 2), a cell of
    [custody_board] that holds a piece of player 2 and has the empty
    neighbour (0, 2), [has_capture_chain] empties (1, 2) for the speculative
    relocation and then writes a piece of player 1 on it: the call returns
    with a board that differs from the one it was given. *)
Lemma has_capture_chain_overwrites_another_piece :
  wf_board (board custody_board)
  ∧ Board_get (board custody_board) 1 2 = Some 2
  ∧ ∃ result s',
      rules_capture.has_capture_chain 1 2 1 custody_board = Return result s'
      ∧ Board_get (board s') 1 2 = Some 1
      ∧ board s' ≠ board custody_board
      ∧ ¬ rules_capture.has_capture_chain 1 2 1 custody_board
          = Return result custody_board.
Proof.
  split; [wf_rows|]. split; [reflexivity|].
  destruct (rules_capture.has_capture_chain 1 2 1 custody_board)
    as [result s'|e s'] eqn:Hc; [|by vm_compute in Hc].
  vm_compute in Hc. injection Hc as <- <-.
  exists false. eexists. split; [reflexivity|]. split; [reflexivity|].
  split; [by vm_compute|]. by vm_compute.
Qed.

Lemma check_victory_attrition_witness :
  phase last_piece = MOVEMENT
  ∧ pieces_count last_piece !! 1 = Some 2
  ∧ pieces_count last_piece !! 2 = Some 1
  ∧ (2 < 2 ∨ 1 < 2)
  ∧ ∃ w reason,
      rules_victory.check_victory last_piece = Return (true, Some w, reason) last_piece
      ∧ (w = 2 ∧ 2 < 2 ∨ w = 1 ∧ 1 < 2)
      ∧ (2 < 2 → w = 2)
      ∧ (2 ≤ 2 → w = 1)
      ∧ (2 = 1 → 2 ≤ 1 → w = get_opponent 1)
      ∧ (1 = 1 → 2 ≤ 2 → w = get_opponent 2).
Proof.
  assert (H : (2 < 2 ∨ 1 < 2)) by (right; lia).
  split; [reflexivity|]. split; [reflexivity|]. split; [reflexivity|].
  split; [exact H|].
  exact (check_victory_attrition last_piece 2 1 eq_refl eq_refl eq_refl H).
Defined.

Lemma check_victory_stalemate_witness :
  phase walled_in_level = MOVEMENT
  ∧ pieces_count walled_in_level !! 1 = Some 5
  ∧ pieces_count walled_in_level !! 2 = Some 5
  ∧ 2 ≤ 5
  ∧ rules_phase2.get_all_valid_moves (current_player walled_in_level) walled_in_level
      = Return [] walled_in_level
  ∧ ∃ w reason,
      rules_victory.check_victory walled_in_level
        = Return (true, Some w, reason) walled_in_level
      ∧ (5 < 5 → w = 1)
      ∧ (5 < 5 → w = 2)
      ∧ (5 = 5 → w = get_opponent (current_player walled_in_level))
      ∧ (current_player walled_in_level = 1 → 5 ≤ 5 → w = 2)
      ∧ (current_player walled_in_level = 2 → 5 ≤ 5 → w = 1).
Proof.
  assert (H : 2 ≤ 5) by lia.
  assert (Hm : rules_phase2.get_all_valid_moves (current_player walled_in_level)
                 walled_in_level = Return [] walled_in_level)
    by (vm_compute; reflexivity).
  split; [reflexivity|]. split; [reflexivity|]. split; [reflexivity|].
  split; [exact H|]. split; [exact Hm|].
  exact (check_victory_stalemate walled_in_level 5 5 eq_refl eq_refl eq_refl H H Hm).
Defined.

(** C1.  The code departs from the claim and from its own comment (the
    player to move cannot move, hence loses): at [walled_in_leader] player 1
    is to move, has no move and holds 10 pieces against 5, and
    [check_victory] names player 1 the winner, with a reason that says it
    is player 2 who is blocked.  No answer of [check_victory] there makes
    the blocked player lose. *)
Lemma stalemate_blocked_player_wins :
  phase walled_in_leader = MOVEMENT
  ∧ pieces_count walled_in_leader !! 1 = Some 10
  ∧ pieces_count walled_in_leader !! 2 = Some 5
  ∧ rules_phase2.get_all_valid_moves (current_player walled_in_leader) walled_in_leader
      = Return [] walled_in_leader
  ∧ rules_victory.check_victory walled_in_leader
      = Return (true, Some (current_player walled_in_leader),
                "Jugador 2 bloqueado, Jugador 1 tiene más piezas") walled_in_leader
  ∧ ¬ ∃ w reason,
        rules_victory.check_victory walled_in_leader
          = Return (true, Some w, reason) walled_in_leader
        ∧ w ≠ current_player walled_in_leader.
Proof.
  assert (Hv : rules_victory.check_victory walled_in_leader
      = Return (true, Some (current_player walled_in_leader),
                "Jugador 2 bloqueado, Jugador 1 tiene más piezas") walled_in_leader)
    by (vm_compute; reflexivity).
  split; [reflexivity|]. split; [reflexivity|]. split; [reflexivity|].
  split; [vm_compute; reflexivity|]. split; [exact Hv|].
  intros (w & reason & Hw & Hne). rewrite Hv in Hw.
  by simplify_eq.
Qed.

(** ** Requests on a stored session *)

Lemma close_unchanged w game_id s :
  games w !! game_id = Some s → close game_id (s, w) = w.
Proof.
  intros H. destruct w as [g n]. unfold close. simpl in *. f_equal.
  apply map_eq. intros k. rewrite lookup_alter.
  case_decide; [|done]. subst k. by rewrite H.
Qed.

Lemma close_lookup game_id s w :
  is_Some (games w !! game_id) → games (close game_id (s, w)) !! game_id = Some s.
Proof.
  intros [s0 H]. unfold close. simpl. rewrite lookup_alter.
  rewrite decide_True by done. by rewrite H.
Qed.

Lemma close_lookup_ne game_id s w k :
  k ≠ game_id → games (close game_id (s, w)) !! k = games w !! k.
Proof.
  intros H. unfold close. simpl. rewrite lookup_alter.
  by rewrite decide_False.
Qed.

Lemma with_game_found {A} game_id (body : M (GameState * Service) A) w s :
  games w !! game_id = Some s →
  with_game game_id body w =
    match body (s, w) with
    | Return a sw => Return a (close game_id sw)
    | Raise e sw => Raise e (close game_id sw)
    end.
Proof. intros H. unfold with_game. by rewrite H. Qed.

Lemma seat_cases s t n :
  seat s t = Some n →
  has_token (player1 s) t = true ∧ n = 1
  ∨ has_token (player1 s) t = false ∧ has_token (player2 s) t = true ∧ n = 2.
Proof.
  unfold seat. destruct (has_token (player1 s) t), (has_token (player2 s) t);
    naive_solver.
Qed.

Lemma seat_None s t :
  seat s t = None →
  has_token (player1 s) t = false ∧ has_token (player2 s) t = false.
Proof.
  unfold seat. destruct (has_token (player1 s) t), (has_token (player2 s) t);
    naive_solver.
Qed.

Lemma validate_seated {A} game_id t (rest : M (GameState * Service) A) w s n :
  games w !! game_id = Some s → seat s t = Some n →
  GameService._get_and_validate_game game_id t rest w =
    match rest (s, w) with
    | Return a sw => Return a (close game_id sw)
    | Raise e sw => Raise e (close game_id sw)
    end.
Proof.
  intros Hg Hs. unfold GameService._get_and_validate_game.
  rewrite (with_game_found _ _ _ _ Hg). unfold mbind, M_bind, gets. simpl.
  destruct (seat_cases _ _ _ Hs) as [[-> _]|(-> & -> & _)]; done.
Qed.

Lemma get_player_number_seated t s w n :
  seat s t = Some n → GameService._get_player_number t (s, w) = Return n (s, w).
Proof.
  intros Hs. unfold GameService._get_player_number, mbind, M_bind, gets. simpl.
  destruct (seat_cases _ _ _ Hs) as [[-> ->]|(-> & -> & ->)]; done.
Qed.

(** C6. When the legality check of a placement or of a move fails, the
    request fails with HTTP 400 carrying the reason the check gave, and the
    service is left exactly as it was: every session (board, counts, phase,
    turn, budget, chain pointer) and the notification queue. *)
Theorem illegal_action_mutates_nothing
    (w : Service) (game_id player_token : string) (s : GameState) (player_num : Z) :
  games w !! game_id = Some s →
  seat s player_token = Some player_num →
  (∀ x y reason,
     rules_phase1.can_place_piece x y player_num s = Return (false, reason) s →
     GameService.place_piece game_id player_token x y w
       = Raise (HTTPException 400 reason) w)
  ∧ (∀ from_x from_y to_x to_y reason,
       rules_phase2.can_move_piece from_x from_y to_x to_y player_num s
         = Return (false, reason) s →
       GameService.move_piece game_id player_token from_x from_y to_x to_y w
         = Raise (HTTPException 400 reason) w).
Proof.
  intros Hg Hs. split.
  - intros x y reason Hc. unfold GameService.place_piece.
    rewrite (validate_seated _ _ _ _ _ _ Hg Hs).
    rewrite (bind_Return _ _ _ _ _ (get_player_number_seated _ _ w _ Hs)).
    unfold mbind, M_bind, on_state. rewrite Hc. simpl.
    by rewrite (close_unchanged _ _ _ Hg).
  - intros fx fy tx ty reason Hc. unfold GameService.move_piece.
    rewrite (validate_seated _ _ _ _ _ _ Hg Hs).
    rewrite (bind_Return _ _ _ _ _ (get_player_number_seated _ _ w _ Hs)).
    unfold mbind, M_bind, on_state. rewrite Hc. simpl.
    by rewrite (close_unchanged _ _ _ Hg).
Qed.

(** C8. Joining with a token already bound to a seat answers with that
    seat's identity and leaves the service untouched, so a second call (and
    every later one) gives the same answer and no seat gets another
    occupant.  The token is the one the route extracted from the
    Authorization header, hence not the empty string. *)
Theorem join_game_idempotent
    (w : Service) (game_id tok : string) (s : GameState) (n : Z)
    (fresh fresh' : string) (choice choice' : Z) :
  games w !! game_id = Some s →
  tok ≠ EmptyString →
  seat s tok = Some n →
  let response :=
    {| gameId := game_id; playerToken := tok; playerNumber := n;
       join_status := status s |} in
  GameService.join_game fresh choice game_id (Some tok) w = Return response w
  ∧ GameService.join_game fresh' choice' game_id (Some tok)
      (final (GameService.join_game fresh choice game_id (Some tok) w))
    = Return response w.
Proof.
  intros Hg Hne Hs response.
  assert (Hjoin : ∀ f c,
    GameService.join_game f c game_id (Some tok) w = Return response w).
  { intros f c. unfold GameService.join_game.
    rewrite (with_game_found _ _ _ _ Hg). unfold mbind, M_bind, gets. simpl.
    rewrite bool_decide_false by done. simpl.
    destruct (seat_cases _ _ _ Hs) as [[-> ->]|(-> & -> & ->)]; simpl;
      by rewrite (close_unchanged _ _ _ Hg). }
  split; [apply Hjoin|]. rewrite Hjoin. simpl. apply Hjoin.
Qed.

(** C10. While the session is WAITING, a supplied token that matches
    neither seat is ignored: the request does not fail, a new token is
    issued for seat 2, the status becomes PLAYING and the caller is player
    2. *)
Theorem join_game_waiting_ignores_foreign_token
    (w : Service) (game_id supplied : string) (s : GameState)
    (fresh : string) (choice : Z) :
  games w !! game_id = Some s →
  status s = WAITING →
  seat s supplied = None →
  ∃ w',
    GameService.join_game fresh choice game_id (Some supplied) w
      = Return {| gameId := game_id; playerToken := fresh; playerNumber := 2;
                  join_status := PLAYING |} w'
    ∧ games w' !! game_id =
        Some (set_current_player choice (set_status PLAYING (set_player2
          (Some {| player_number := 2; token := fresh; connected := true |}) s))).
Proof.
  intros Hg Hst Hs. apply seat_None in Hs as [H1 H2].
  unfold GameService.join_game.
  rewrite (with_game_found _ _ _ _ Hg). unfold mbind, M_bind, gets. simpl.
  rewrite H1, H2, !andb_false_r. rewrite decide_False by (rewrite Hst; naive_solver).
  simpl. eexists. split; [done|].
  apply close_lookup. simpl. rewrite lookup_insert.
  case_decide; [by eexists|by rewrite Hg].
Qed.

Lemma illegal_action_mutates_nothing_witness :
  games (stored walled_in_level) !! "G1" = Some walled_in_level
  ∧ seat walled_in_level "token-a" = Some 1
  ∧ (∀ x y reason,
       rules_phase1.can_place_piece x y 1 walled_in_level
         = Return (false, reason) walled_in_level →
       GameService.place_piece "G1" "token-a" x y (stored walled_in_level)
         = Raise (HTTPException 400 reason) (stored walled_in_level))
  ∧ (∀ from_x from_y to_x to_y reason,
       rules_phase2.can_move_piece from_x from_y to_x to_y 1 walled_in_level
         = Return (false, reason) walled_in_level →
       GameService.move_piece "G1" "token-a" from_x from_y to_x to_y
         (stored walled_in_level)
         = Raise (HTTPException 400 reason) (stored walled_in_level)).
Proof.
  assert (Hg : games (stored walled_in_level) !! "G1" = Some walled_in_level)
    by (vm_compute; reflexivity).
  assert (Hs : seat walled_in_level "token-a" = Some 1) by reflexivity.
  split; [exact Hg|]. split; [exact Hs|].
  exact (illegal_action_mutates_nothing (stored walled_in_level) "G1" "token-a"
           walled_in_level 1 Hg Hs).
Defined.

Example place_piece_in_movement_phase :
  GameService.place_piece "G1" "token-a" 0 3 (stored walled_in_level)
  = Raise (HTTPException 400 "No estás en la fase de posicionamiento")
      (stored walled_in_level).
Proof. vm_compute. reflexivity. Qed.

Example move_piece_onto_occupied_cell :
  GameService.move_piece "G1" "token-a" 0 0 0 1 (stored walled_in_level)
  = Raise (HTTPException 400 "El destino no está vacío") (stored walled_in_level).
Proof. vm_compute. reflexivity. Qed.

Lemma join_game_idempotent_witness :
  games (stored walled_in_level) !! "G1" = Some walled_in_level
  ∧ "token-b" ≠ EmptyString
  ∧ seat walled_in_level "token-b" = Some 2
  ∧ GameService.join_game "fresh-1" 1 "G1" (Some "token-b") (stored walled_in_level)
    = Return {| gameId := "G1"; playerToken := "token-b"; playerNumber := 2;
                join_status := PLAYING |} (stored walled_in_level)
  ∧ GameService.join_game "fresh-2" 2 "G1" (Some "token-b")
      (final (GameService.join_game "fresh-1" 1 "G1" (Some "token-b")
                (stored walled_in_level)))
    = Return {| gameId := "G1"; playerToken := "token-b"; playerNumber := 2;
                join_status := PLAYING |} (stored walled_in_level).
Proof.
  assert (Hg : games (stored walled_in_level) !! "G1" = Some walled_in_level)
    by (vm_compute; reflexivity).
  assert (Hne : "token-b" ≠ EmptyString) by discriminate.
  assert (Hs : seat walled_in_level "token-b" = Some 2) by reflexivity.
  split; [exact Hg|]. split; [exact Hne|]. split; [exact Hs|].
  exact (join_game_idempotent (stored walled_in_level) "G1" "token-b"
           walled_in_level 2 "fresh-1" "fresh-2" 1 2 Hg Hne Hs).
Defined.

Lemma join_game_waiting_ignores_foreign_token_witness :
  ∃ s,
    games lobby !! "G1" = Some s
    ∧ status s = WAITING
    ∧ seat s "stale-token" = None
    ∧ ∃ w',
        GameService.join_game "token-b" 2 "G1" (Some "stale-token") lobby
          = Return {| gameId := "G1"; playerToken := "token-b"; playerNumber := 2;
                      join_status := PLAYING |} w'
        ∧ games w' !! "G1" =
            Some (set_current_player 2 (set_status PLAYING (set_player2
              (Some {| player_number := 2; token := "token-b";
                       connected := true |}) s))).
Proof.
  destruct (games lobby !! "G1") as [s|] eqn:Hg; [|by vm_compute in Hg].
  assert (Hst : status s = WAITING) by (vm_compute in Hg; by simplify_eq).
  assert (Hs : seat s "stale-token" = None) by (vm_compute in Hg; by simplify_eq).
  exists s. split; [reflexivity|]. split; [exact Hst|]. split; [exact Hs|].
  exact (join_game_waiting_ignores_foreign_token lobby "G1" "stale-token" s
           "token-b" 2 Hg Hst Hs).
Defined.

(** ** Moving and removing pieces *)

Lemma on_state_Return {A} (m : M GameState A) s w a s' :
  m s = Return a s' → on_state m (s, w) = Return a (s', w).
Proof. intros H. unfold on_state. by rewrite H. Qed.

Lemma on_state_Raise {A} (m : M GameState A) s w e s' :
  m s = Raise e s' → on_state m (s, w) = Raise e (s', w).
Proof. intros H. unfold on_state. by rewrite H. Qed.

Lemma move_piece_Return s from_x from_y to_x to_y p :
  wf_board (board s) →
  holds (board s) from_x from_y p →
  Board_is_valid_position to_x to_y = true →
  ∃ b',
    rules_phase2.move_piece from_x from_y to_x to_y s = Return () (set_board b' s)
    ∧ wf_board b'
    ∧ ∀ x y, Board_is_valid_position x y = true →
        Board_get b' x y =
          if decide (x = to_x ∧ y = to_y) then Some p
          else if decide (x = from_x ∧ y = from_y) then Some EMPTY
          else Board_get (board s) x y.
Proof.
  intros Hwf [Hvf Hgf] Hvt. unfold rules_phase2.move_piece.
  rewrite (bind_Return _ _ _ _ _ (board_get_Return _ _ _ _ Hgf)).
  destruct (board_set_valid s from_x from_y EMPTY Hwf Hvf) as (b1 & H1 & Hwf1 & Hg1).
  rewrite (bind_Return _ _ _ _ _ H1).
  destruct (board_set_valid (set_board b1 s) to_x to_y p Hwf1 Hvt)
    as (b2 & H2 & Hwf2 & Hg2).
  exists b2. split; [exact H2|]. split; [done|].
  intros x y Hv. rewrite Hg2 by done. case_decide; [done|]. by apply Hg1.
Qed.

Lemma apply_captures_Return s captured opp :
  wf_board (board s) →
  is_Some (pieces_count s !! opp) →
  Forall (λ c, holds (board s) c.1 c.2 opp) captured →
  NoDup captured →
  ∃ b' counts',
    rules_capture.apply_captures captured s
      = Return () (set_pieces_count counts' (set_board b' s))
    ∧ wf_board b'
    ∧ (∀ k, is_Some (pieces_count s !! k) → is_Some (counts' !! k))
    ∧ ∀ x y, Board_is_valid_position x y = true → (x, y) ∉ captured →
        Board_get b' x y = Board_get (board s) x y.
Proof.
  unfold rules_capture.apply_captures.
  revert s. induction captured as [|[cx cy] cs IH]; intros s Hwf Hk Hc Hnd.
  - exists (board s), (pieces_count s). by destruct s.
  - apply Forall_cons in Hc as [[Hv Hg] Hc]. apply NoDup_cons in Hnd as [Hni Hnd].
    simpl in Hv, Hg. cbn [for_in].
    rewrite (bind_Return _ _ _ () (set_pieces_count
      (<[opp := default 0 (pieces_count s !! opp) - 1]> (pieces_count s))
      (set_board (default (board s) (Board_set (board s) cx cy EMPTY)) s))).
    2:{ rewrite (bind_Return _ _ _ _ _ (board_get_Return _ _ _ _ Hg)).
        destruct (board_set_valid s cx cy EMPTY Hwf Hv) as (b1 & H1 & _).
        rewrite (bind_Return _ _ _ _ _ H1).
        destruct Hk as [n Hn]. unfold mbind, M_bind, count_get. simpl.
        rewrite Hn. unfold count_set, modify. simpl.
        unfold board_set in H1. destruct (Board_set _ _ _ _); by simplify_eq. }
    destruct (Board_set_spec (board s) cx cy EMPTY Hwf Hv) as (b1 & H1 & Hwf1 & Hg1).
    rewrite H1. simpl.
    edestruct (IH (set_pieces_count
      (<[opp := default 0 (pieces_count s !! opp) - 1]> (pieces_count s))
      (set_board b1 s))) as (b' & c' & Hr & Hwf' & Hk' & Hg'); simpl.
    + done.
    + rewrite lookup_insert. case_decide; [by eexists|done].
    + apply Forall_forall. intros [x y] Hin.
      destruct (proj1 (Forall_forall _ _) Hc _ Hin) as [Hvc Hgc].
      split; [done|]. simpl in *.
      rewrite Hg1 by done. rewrite decide_False; [done|].
      intros [-> ->]. done.
    + done.
    + exists b', c'. split; [exact Hr|]. split; [done|]. split.
      * intros k Hsk. apply Hk'. simpl. rewrite lookup_insert.
        case_decide; [by eexists|done].
      * intros x y Hvxy Hni'. apply not_elem_of_cons in Hni' as [Hne Hni'].
        rewrite Hg' by done. simpl. rewrite Hg1 by done.
        rewrite decide_False; [done|]. intros [-> ->]. done.
Qed.

(** ** Frames of the requests *)

Global Instance keeps_preorder {S} (P : S → Prop) : PreOrder (keeps P).
Proof. split; [intros s H; exact H|]. intros s1 s2 s3 H1 H2 H. auto. Qed.

Global Instance same_game_id_preorder : PreOrder same_game_id.
Proof.
  split; [intros s; reflexivity|].
  unfold same_game_id. intros s1 s2 s3 H1 H2. congruence.
Qed.

Global Instance stays_in_movement_preorder : PreOrder stays_in_movement.
Proof. split; [intros s H; exact H|]. intros s1 s2 s3 H1 H2 H. auto. Qed.

Global Instance on_session_preorder R `{!PreOrder R} : PreOrder (on_session R).
Proof.
  split; [intros sw; unfold on_session; reflexivity|].
  intros a b c H1 H2. unfold on_session in *. by etrans.
Qed.

Global Instance request_frame_preorder gid : PreOrder (request_frame gid).
Proof.
  split; [intros sw H; split; [exact H|done]|]. intros a b c H1 H2 Ha.
  destruct (H1 Ha) as [Hb H1']. destruct (H2 Hb) as [Hc H2'].
  split; [done|]. intros k Hk. rewrite H2', H1' by done. done.
Qed.

(** Code that does not write moves the state along any preorder. *)
Lemma readonly_preserves {S A} (R : relation S) `{!Reflexive R} (m : M S A) :
  preserves eq m → preserves R m.
Proof. intros H s. rewrite <- (H s). reflexivity. Qed.

Lemma preserves_on_state {A} (R : relation GameState) (m : M GameState A) :
  preserves R m → preserves (on_session R) (on_state m).
Proof.
  intros H [s w]. specialize (H s). unfold on_state, on_session.
  by destruct (m s).
Qed.

Lemma frame_on_state {A} gid (m : M GameState A) :
  preserves same_game_id m → preserves (request_frame gid) (on_state m).
Proof.
  intros H [s w]. specialize (H s). unfold on_state, request_frame.
  destruct (m s); simpl in *; intros <-; done.
Qed.

Lemma frame_repo_save gid : preserves (request_frame gid) repo_save.
Proof.
  intros [s w] Hs. simpl in *. split; [done|]. intros k Hk.
  rewrite lookup_insert_ne; [done|]. congruence.
Qed.

Lemma frame_repo_delete gid : preserves (request_frame gid) (repo_delete gid).
Proof.
  intros [s w] Hs. simpl in *. split; [done|]. intros k Hk.
  by rewrite lookup_delete_ne.
Qed.

Lemma frame_notify gid n : preserves (request_frame gid) (notify n).
Proof. intros [s w] Hs. done. Qed.

Lemma on_session_repo_save R `{!Reflexive R} : preserves (on_session R) repo_save.
Proof. intros [s w]. unfold on_session. simpl. reflexivity. Qed.

Lemma on_session_repo_delete R `{!Reflexive R} gid :
  preserves (on_session R) (repo_delete gid).
Proof. intros [s w]. unfold on_session. simpl. reflexivity. Qed.

Lemma on_session_notify R `{!Reflexive R} n : preserves (on_session R) (notify n).
Proof. intros [s w]. unfold on_session. simpl. reflexivity. Qed.

Lemma board_set_same_game_id x y v : preserves same_game_id (board_set x y v).
Proof. intros s. unfold board_set. by destruct (Board_set _ _ _ _). Qed.

Lemma board_set_stays_in_movement x y v : preserves stays_in_movement (board_set x y v).
Proof. intros s. unfold board_set. destruct (Board_set _ _ _ _); by intros H. Qed.

Create HintDb frame.
#[global] Hint Resolve frame_repo_save frame_repo_delete frame_notify
  board_set_same_game_id board_set_stays_in_movement : frame.
#[global] Hint Extern 1 (preserves (on_session _) repo_save) =>
  apply on_session_repo_save; apply _ : frame.
#[global] Hint Extern 1 (preserves (on_session _) (repo_delete _)) =>
  apply on_session_repo_delete; apply _ : frame.
#[global] Hint Extern 1 (preserves (on_session _) (notify _)) =>
  apply on_session_notify; apply _ : frame.
#[global] Hint Extern 5 (preserves _ _) =>
  apply readonly_preserves; [apply _|solve [eauto with readonly]] : frame.
#[global] Hint Extern 2 (preserves _ (modify _)) =>
  apply preserves_modify; intros ?; hnf; simpl; done : frame.
#[global] Hint Extern 2 (preserves _ (count_set _ _)) =>
  apply preserves_modify; intros ?; hnf; simpl; done : frame.

Ltac frame := repeat (preserves_step || solve [eauto with frame]).

Lemma switch_turn_same_game_id : preserves same_game_id switch_turn.
Proof. unfold switch_turn. frame. Qed.

Lemma switch_turn_stays_in_movement : preserves stays_in_movement switch_turn.
Proof. unfold switch_turn. frame. Qed.

#[global] Hint Resolve switch_turn_same_game_id switch_turn_stays_in_movement : frame.

Lemma place_piece_same_game_id x y p :
  preserves same_game_id (rules_phase1.place_piece x y p).
Proof. unfold rules_phase1.place_piece. frame. Qed.

Lemma place_piece_stays_in_movement x y p :
  preserves stays_in_movement (rules_phase1.place_piece x y p).
Proof. unfold rules_phase1.place_piece. frame. Qed.

Lemma move_piece_same_game_id fx fy tx ty :
  preserves same_game_id (rules_phase2.move_piece fx fy tx ty).
Proof. unfold rules_phase2.move_piece. frame. Qed.

Lemma move_piece_stays_in_movement fx fy tx ty :
  preserves stays_in_movement (rules_phase2.move_piece fx fy tx ty).
Proof. unfold rules_phase2.move_piece. frame. Qed.

Lemma apply_captures_same_game_id l :
  preserves same_game_id (rules_capture.apply_captures l).
Proof. unfold rules_capture.apply_captures. frame. Qed.

Lemma apply_captures_stays_in_movement l :
  preserves stays_in_movement (rules_capture.apply_captures l).
Proof. unfold rules_capture.apply_captures. frame. Qed.

Lemma has_capture_chain_same_game_id x y p :
  preserves same_game_id (rules_capture.has_capture_chain x y p).
Proof. unfold rules_capture.has_capture_chain. frame. Qed.

Lemma has_capture_chain_stays_in_movement x y p :
  preserves stays_in_movement (rules_capture.has_capture_chain x y p).
Proof. unfold rules_capture.has_capture_chain. frame. Qed.

#[global] Hint Resolve place_piece_same_game_id place_piece_stays_in_movement
  move_piece_same_game_id move_piece_stays_in_movement
  apply_captures_same_game_id apply_captures_stays_in_movement
  has_capture_chain_same_game_id has_capture_chain_stays_in_movement : frame.

#[global] Hint Extern 3 (preserves (request_frame _) (on_state _)) =>
  apply frame_on_state : frame.
#[global] Hint Extern 3 (preserves (on_session _) (on_state _)) =>
  apply preserves_on_state : frame.

Lemma with_game_final {A} game_id (body : M (GameState * Service) A) w :
  final (with_game game_id body w) =
    match games w !! game_id with
    | None => w
    | Some s => close game_id (final (body (s, w)))
    end.
Proof.
  unfold with_game. destruct (games w !! game_id) as [s|]; [|done].
  by destruct (body (s, w)).
Qed.

(** A request on a stored session leaves the other sessions alone. *)
Lemma with_game_lookup_ne {A} gid (body : M (GameState * Service) A) w k :
  service_inv w → preserves (request_frame gid) body → k ≠ gid →
  games (final (with_game gid body w)) !! k = games w !! k.
Proof.
  intros Hw Hb Hk. rewrite with_game_final.
  destruct (games w !! gid) as [s|] eqn:Hg; [|done].
  destruct (Hw _ _ Hg) as [Hid _]. specialize (Hb (s, w) Hid) as [_ Hb].
  destruct (final (body (s, w))) as [s' w']. rewrite close_lookup_ne by done.
  by apply Hb.
Qed.

(** The entry of the session shows the object as the request left it. *)
Lemma with_game_lookup {A} gid (body : M (GameState * Service) A) w s' :
  service_inv w → preserves (request_frame gid) body →
  games (final (with_game gid body w)) !! gid = Some s' →
  ∃ s, games w !! gid = Some s ∧ s' = (final (body (s, w))).1 ∧ game_id s' = gid.
Proof.
  intros Hw Hb. rewrite with_game_final.
  destruct (games w !! gid) as [s|] eqn:Hg; [|by rewrite Hg].
  destruct (Hw _ _ Hg) as [Hid _]. specialize (Hb (s, w) Hid) as [Hid' _].
  unfold close. simpl. rewrite lookup_alter, decide_True by done.
  destruct (games (final (body (s, w))).2 !! gid); [|done].
  simpl. intros [= <-]. by exists s.
Qed.

Lemma with_game_inv {A} gid (body : M (GameState * Service) A) w :
  service_inv w →
  preserves (request_frame gid) body →
  (∀ s, games w !! gid = Some s → session_inv s →
        session_inv (final (body (s, w))).1) →
  service_inv (final (with_game gid body w)).
Proof.
  intros Hw Hf Hb k s' Hk. destruct (decide (k = gid)) as [->|Hne].
  - destruct (with_game_lookup _ _ _ _ Hw Hf Hk) as (s & Hg & -> & Hid).
    split; [done|]. apply Hb; [done|]. by apply (Hw _ _ Hg).
  - rewrite with_game_lookup_ne in Hk by done. by apply Hw.
Qed.

Ltac unfold_service :=
  unfold GameService.join_game, GameService.reconnect_game,
    GameService.get_game_state, GameService.get_valid_actions,
    GameService.place_piece,
    GameService.move_piece, GameService.leave_game, GameService.rematch_game,
    GameService._get_and_validate_game, GameService._get_player_number,
    GameService._get_opponent_token, GameService._notify_opponent_action,
    GameService.finish.

(** Every request on a stored session has the frame of its game id. *)
Lemma request_frames gid :
  (∀ t c e, ∃ body, GameService.join_game t c gid e = with_game gid body
     ∧ preserves (request_frame gid) body)
  ∧ (∀ t, ∃ body, GameService.reconnect_game gid t = with_game gid body
     ∧ preserves (request_frame gid) body)
  ∧ (∀ t, ∃ body, GameService.get_game_state gid t = with_game gid body
     ∧ preserves (request_frame gid) body)
  ∧ (∀ t, ∃ body, GameService.get_valid_actions gid t = with_game gid body
     ∧ preserves (request_frame gid) body)
  ∧ (∀ t x y, ∃ body, GameService.place_piece gid t x y = with_game gid body
     ∧ preserves (request_frame gid) body)
  ∧ (∀ t fx fy tx ty, ∃ body,
       GameService.move_piece gid t fx fy tx ty = with_game gid body
     ∧ preserves (request_frame gid) body)
  ∧ (∀ t, ∃ body, GameService.leave_game gid t = with_game gid body
     ∧ preserves (request_frame gid) body)
  ∧ (∀ c t, ∃ body, GameService.rematch_game c gid t = with_game gid body
     ∧ preserves (request_frame gid) body).
Proof.
  repeat split; intros; eexists; (split; [reflexivity|]); unfold_service; frame.
Qed.

(** ** The session invariant *)

Lemma bind_gets {S A B} (g : S → A) (f : A → M S B) s : (gets g ≫= f) s = f (g s) s.
Proof. done. Qed.

Lemma bind_modify {S B} (g : S → S) (f : () → M S B) s : (modify g ≫= f) s = f () (g s).
Proof. done. Qed.

Lemma bind_ret {S A B} (a : A) (f : A → M S B) s : (mret a ≫= f) s = f a s.
Proof. done. Qed.

Lemma bind_assoc {S A B C} (m : M S A) (f : A → M S B) (g : B → M S C) s :
  ((m ≫= f) ≫= g) s = (m ≫= λ a, f a ≫= g) s.
Proof. unfold mbind, M_bind. by destruct (m s). Qed.

#[global] Hint Extern 2 (preserves (keeps session_inv) (modify _)) =>
  let Hwait := fresh in let H := fresh in
  apply preserves_modify; intros ? [? ? ? Hwait]; split; simpl;
  first [done|intros H; destruct (Hwait H) as (? & ? & ?); done] : frame.

(** Once the chain pointer is written, or cleared and the turn passed, what
    remains of a request keeps the invariant step by step. *)
Ltac by_frame :=
  match goal with
  | |- session_inv (final (?m ?sw)).1 =>
      let Hp := fresh "Hp" in
      assert (Hp : preserves (on_session (keeps session_inv)) m)
        by (unfold_service; frame);
      apply (Hp sw)
  end.

Lemma seat_player s t n : seat s t = Some n → n = 1 ∨ n = 2.
Proof.
  intros H. destruct (seat_cases _ _ _ H) as [[_ ->]|(_ & _ & ->)]; [by left|by right].
Qed.

Lemma seat_waiting s t n :
  session_inv s → status s = WAITING → seat s t = Some n → n = 1.
Proof.
  intros Hs Hst Ht. destruct (inv_waiting _ Hs Hst) as (Hp2 & _).
  destruct (seat_cases _ _ _ Ht) as [[_ ?]|(_ & H2 & _)]; [done|].
  by rewrite Hp2 in H2.
Qed.

(** The prelude shared by the requests that need a seat. *)
Lemma validated_final {A} t (k : M (GameState * Service) A) e s w :
  final ((state ← gets fst;
          if has_token (player1 state) t then k
          else if has_token (player2 state) t then k
          else raise e) (s, w))
  = match seat s t with
    | Some n => final (k (s, w))
    | None => (s, w)
    end.
Proof.
  rewrite bind_gets. unfold seat. simpl.
  destruct (has_token (player1 s) t), (has_token (player2 s) t); done.
Qed.

(** *** Placement *)

Lemma can_place_piece_true s x y player reason s' :
  rules_phase1.can_place_piece x y player s = Return (true, reason) s' →
  phase s = PLACEMENT ∧ current_player s = player ∧ 0 < placement_remaining s
  ∧ Board_is_valid_position x y = true.
Proof.
  unfold rules_phase1.can_place_piece. rewrite !bind_gets.
  destruct (decide (phase s ≠ PLACEMENT)) as [|Hph%dec_stable]; [done|].
  rewrite bind_gets.
  destruct (decide (current_player s ≠ player)) as [|Hcp%dec_stable]; [done|].
  rewrite bind_gets.
  destruct (decide (placement_remaining s ≤ 0)); [done|].
  destruct (Board_is_valid_position x y); [|done].
  intros _. repeat split; try done. lia.
Qed.

(** The session after [place_piece], on the board [b'] with the piece down. *)
Lemma place_piece_Return s x y player n :
  wf_board (board s) → Board_is_valid_position x y = true →
  pieces_count s !! player = Some n → phase s = PLACEMENT →
  ∃ b' s',
    rules_phase1.place_piece x y player s
      = Return (bool_decide (24 ≤ total_pieces_placed s + 1)) s'
    ∧ wf_board b' ∧ board s' = b'
    ∧ pieces_count s' = <[player := n + 1]> (pieces_count s)
    ∧ total_pieces_placed s' = total_pieces_placed s + 1
    ∧ chain_capture_piece s' =
        (if decide (24 ≤ total_pieces_placed s + 1) then None
         else chain_capture_piece s)
    ∧ phase s' =
        (if decide (24 ≤ total_pieces_placed s + 1) then MOVEMENT else PLACEMENT)
    ∧ status s' = status s ∧ player2 s' = player2 s
    ∧ (if decide (placement_remaining s - 1 = 0)
       then current_player s' = get_opponent (current_player s)
            ∧ placement_remaining s' = 2
       else current_player s' = current_player s
            ∧ placement_remaining s' = placement_remaining s - 1).
Proof.
  intros Hwf Hv Hn Hph. unfold rules_phase1.place_piece.
  destruct (board_set_valid s x y player Hwf Hv) as (b' & Hb & Hwf' & _).
  rewrite (bind_Return _ _ _ _ _ Hb).
  rewrite (bind_Return _ _ _ n (set_board b' s)) by (by apply count_get_Return).
  unfold count_set. rewrite !bind_modify, bind_gets. simpl.
  exists b'. unfold switch_turn.
  destruct (decide (placement_remaining s - 1 = 0)) as [H0|H0].
  - rewrite bind_assoc, bind_modify, bind_assoc, bind_gets. simpl.
    rewrite Hph. simpl. rewrite bind_modify, bind_gets. simpl.
    destruct (decide (24 ≤ total_pieces_placed s + 1)).
    + rewrite bool_decide_true by done. eexists. split; [reflexivity|]. done.
    + rewrite bool_decide_false by done. eexists. split; [reflexivity|]. done.
  - rewrite bind_ret, bind_gets. simpl.
    destruct (decide (24 ≤ total_pieces_placed s + 1)).
    + rewrite bool_decide_true by done. eexists. split; [reflexivity|]. done.
    + rewrite bool_decide_false by done. eexists. split; [reflexivity|]. done.
Qed.

Lemma place_piece_session_inv s x y player reason s0 :
  session_inv s → player = 1 ∨ player = 2 →
  (status s = WAITING → player = 1) →
  rules_phase1.can_place_piece x y player s = Return (true, reason) s0 →
  ∃ changed s',
    rules_phase1.place_piece x y player s = Return changed s' ∧ session_inv s'.
Proof.
  intros Hs Hp Hw (Hph & Hcp & Hrem & Hv)%can_place_piece_true.
  assert (Hk : is_Some (pieces_count s !! player))
    by (destruct Hp as [-> | ->]; apply (inv_counts _ Hs)).
  destruct Hk as [n Hn].
  destruct (place_piece_Return s x y player n (inv_board _ Hs) Hv Hn Hph)
    as (b' & s' & Hr & Hwf' & Hb & Hc & Ht & Hch & Hph' & Hst & Hp2 & Hturn).
  exists (bool_decide (24 ≤ total_pieces_placed s + 1)), s'.
  split; [exact Hr|]. split.
  - by rewrite Hb.
  - rewrite Hc.
    split; rewrite lookup_insert; destruct (decide (player = _)); try by eexists.
    all: by destruct (inv_counts _ Hs).
  - intros cx cy. rewrite Hch.
    destruct (decide (24 ≤ _)); [done|]. intros Hchain.
    destruct (inv_chain _ Hs _ _ Hchain) as [Hm _]. congruence.
  - rewrite Hst, Hp2. intros Hwait.
    destruct (inv_waiting _ Hs Hwait) as (Hnone & _ & Hbudget).
    specialize (Hw Hwait). subst player. specialize (Hbudget Hcp).
    split; [done|]. rewrite Hph', decide_False by lia. split; [done|].
    rewrite Ht.
    destruct (decide (placement_remaining s - 1 = 0)); destruct Hturn as [Hcp' Hrem'].
    + rewrite Hcp', Hcp. done.
    + rewrite Hrem'. lia.
Qed.

Lemma place_piece_request_inv gid t x y w :
  service_inv w → service_inv (final (GameService.place_piece gid t x y w)).
Proof.
  intros Hw. unfold GameService.place_piece, GameService._get_and_validate_game.
  apply with_game_inv; [done|unfold_service; frame|].
  intros s Hg Hs. rewrite validated_final.
  destruct (seat s t) as [n|] eqn:Hseat; [|done].
  rewrite (bind_Return _ _ _ _ _ (get_player_number_seated _ _ w _ Hseat)).
  destruct (rules_phase1.can_place_piece x y n s) as [[[] reason] s0|e s0] eqn:Hc.
  - pose proof (readonly_Return _ _ _ _ (can_place_piece_readonly _ _ _) Hc) as ->.
    rewrite (bind_Return _ _ _ _ _ (on_state_Return _ _ w _ _ Hc)).
    destruct (place_piece_session_inv s x y n reason s Hs) as (ch & s' & Hr & Hs');
      [by eapply seat_player|by intros; eapply seat_waiting|done|].
    cbn [negb].
    rewrite (bind_Return _ _ _ _ _ (on_state_Return _ _ w _ _ Hr)).
    by_frame. exact Hs'.
  - pose proof (readonly_Return _ _ _ _ (can_place_piece_readonly _ _ _) Hc) as ->.
    rewrite (bind_Return _ _ _ _ _ (on_state_Return _ _ w _ _ Hc)). done.
  - pose proof (readonly_Raise _ _ _ _ (can_place_piece_readonly _ _ _) Hc) as ->.
    rewrite (bind_Raise _ _ _ _ _ (on_state_Raise _ _ w _ _ Hc)). done.
Qed.

(** *** Movement *)

Lemma can_move_piece_true s from_x from_y to_x to_y player reason s' :
  rules_phase2.can_move_piece from_x from_y to_x to_y player s
    = Return (true, reason) s' →
  phase s = MOVEMENT ∧ current_player s = player
  ∧ holds (board s) from_x from_y player
  ∧ holds (board s) to_x to_y EMPTY
  ∧ (chain_capture_piece s = None ∨ chain_capture_piece s = Some (from_x, from_y)).
Proof.
  unfold rules_phase2.can_move_piece. rewrite !bind_gets.
  destruct (decide (phase s ≠ MOVEMENT)) as [|Hph%dec_stable]; [done|].
  rewrite bind_gets.
  destruct (decide (current_player s ≠ player)) as [|Hcp%dec_stable]; [done|].
  destruct (Board_is_valid_position from_x from_y) eqn:Hvf; [|done].
  destruct (Board_is_valid_position to_x to_y) eqn:Hvt; [|done].
  cbn [negb].
  destruct (Board_get (board s) from_x from_y) as [p|] eqn:Hgf.
  2:{ rewrite (bind_Raise _ _ _ IndexError s); [done|].
      unfold board_get. by rewrite Hgf. }
  rewrite (bind_Return _ _ _ _ _ (board_get_Return _ _ _ _ Hgf)).
  destruct (decide (p ≠ player)) as [|Hp%dec_stable]; [done|]. subst p.
  destruct (Board_get (board s) to_x to_y) as [e|] eqn:Hgt.
  2:{ rewrite (bind_Raise _ _ _ IndexError s); [done|].
      unfold board_is_empty, Board_is_empty. by rewrite Hgt. }
  rewrite (bind_Return _ _ _ _ _ (board_is_empty_Return _ _ _ _ Hgt)).
  case_bool_decide as He; [|done]. subst e. cbn [negb].
  destruct (negb _); [done|]. rewrite bind_gets.
  destruct (chain_capture_piece s) as [[cx cy]|] eqn:Hch.
  - destruct (bool_decide (from_x ≠ cx) || bool_decide (from_y ≠ cy)) eqn:Hne;
      [done|].
    apply orb_false_iff in Hne as [H1%bool_decide_eq_false%dec_stable
                                    H2%bool_decide_eq_false%dec_stable].
    subst. intros _. repeat split; try done. by right.
  - intros _. repeat split; try done. by left.
Qed.

Global Instance neighbour_inj x y : Inj (=) (=) (λ d : Z * Z, (x + d.1, y + d.2)).
Proof. intros [a b] [c d] [= ? ?]. f_equal; lia. Qed.

(** The cells [check_captures] returns hold the opponent and are distinct. *)
Lemma check_captures_cells s x y player :
  wf_board (board s) →
  ∃ captured,
    rules_capture.check_captures x y player s = Return captured s
    ∧ Forall (λ c, holds (board s) c.1 c.2 (get_opponent player)) captured
    ∧ NoDup captured.
Proof.
  intros Hwf. eexists. split; [by apply check_captures_eq|]. split.
  - apply Forall_fmap, Forall_forall.
    intros d [(He & _) _]%list_elem_of_filter. exact He.
  - apply (NoDup_fmap_2 _), NoDup_filter.
    apply (bool_decide_unpack _). vm_compute. exact I.
Qed.

Lemma get_opponent_ne player : get_opponent player ≠ player.
Proof. unfold get_opponent. case_decide; lia. Qed.

Lemma switch_turn_Return s :
  phase s = MOVEMENT →
  switch_turn s = Return () (set_current_player (get_opponent (current_player s)) s).
Proof.
  intros Hph. unfold switch_turn. rewrite bind_modify, bind_gets. simpl.
  by rewrite Hph.
Qed.

Lemma bind_on_state_modify {B} (g : GameState → GameState)
    (f : () → M (GameState * Service) B) s w :
  (on_state (modify g) ≫= f) (s, w) = f () (g s, w).
Proof. done. Qed.

(** The board after a legal move and the removal of the pieces it
    captures: the moved piece stands on its destination. *)
Lemma move_and_capture s from_x from_y to_x to_y player reason s0 :
  session_inv s → player = 1 ∨ player = 2 →
  rules_phase2.can_move_piece from_x from_y to_x to_y player s
    = Return (true, reason) s0 →
  ∃ b1 captured b2 counts2 chain,
    rules_phase2.move_piece from_x from_y to_x to_y s = Return () (set_board b1 s)
    ∧ rules_capture.check_captures to_x to_y player (set_board b1 s)
        = Return captured (set_board b1 s)
    ∧ rules_capture.apply_captures captured (set_board b1 s)
        = Return () (set_pieces_count counts2 (set_board b2 (set_board b1 s)))
    ∧ rules_capture.has_capture_chain to_x to_y player
          (set_pieces_count counts2 (set_board b2 (set_board b1 s)))
        = Return chain (set_pieces_count counts2 (set_board b2 (set_board b1 s)))
    ∧ wf_board b1 ∧ holds b1 to_x to_y player
    ∧ wf_board b2 ∧ holds b2 to_x to_y player
    ∧ is_Some (counts2 !! 1) ∧ is_Some (counts2 !! 2).
Proof.
  intros Hs Hp (Hph & Hcp & Hfrom & [Hvt Hto] & Hch)%can_move_piece_true.
  destruct (move_piece_Return s from_x from_y to_x to_y player
              (inv_board _ Hs) Hfrom Hvt) as (b1 & Hm & Hwf1 & Hg1).
  assert (Hto1 : holds b1 to_x to_y player).
  { split; [done|]. rewrite Hg1 by done. by rewrite decide_True. }
  destruct (check_captures_cells (set_board b1 s) to_x to_y player Hwf1)
    as (captured & Hc & Hcells & Hnd).
  destruct (apply_captures_Return (set_board b1 s) captured (get_opponent player))
    as (b2 & counts2 & Ha & Hwf2 & Hk2 & Hg2); [done| |done|done|].
  { unfold get_opponent. destruct Hp as [-> | ->]; simpl; apply (inv_counts _ Hs). }
  assert (Hto2 : holds b2 to_x to_y player).
  { split; [done|]. rewrite Hg2; [apply Hto1|done|].
    intros Hin. destruct (proj1 (Forall_forall _ _) Hcells _ Hin) as [_ Hopp].
    destruct Hto1 as [_ Hto1]. simpl in *. rewrite Hto1 in Hopp.
    injection Hopp as Hopp. by destruct (get_opponent_ne player). }
  destruct (chain_lookahead_returns
              (set_pieces_count counts2 (set_board b2 (set_board b1 s)))
              to_x to_y player Hwf2 Hto2) as (chain & Hchain).
  exists b1, captured, b2, counts2, chain.
  do 8 (split; [done|]). split; apply Hk2; apply (inv_counts _ Hs).
Qed.

Lemma session_inv_after_move s b counts chain turn :
  session_inv s → phase s = MOVEMENT → wf_board b →
  is_Some (counts !! 1) → is_Some (counts !! 2) →
  (∀ x y, chain = Some (x, y) → holds b x y turn) →
  session_inv (set_current_player turn (set_chain_capture_piece chain
                 (set_pieces_count counts (set_board b s)))).
Proof.
  intros Hs Hph Hwf H1 H2 Hch. split; simpl; try done.
  - intros x y Hxy. split; [done|]. by apply Hch.
  - intros Hw. destruct (inv_waiting _ Hs Hw) as (_ & Hpl & _). congruence.
Qed.

Ltac pass_turn Hph :=
  match goal with
  | |- context [(on_state switch_turn ≫= _) (?st, ?w)] =>
      rewrite (bind_Return _ _ _ _ _
                 (on_state_Return _ _ w _ _ (switch_turn_Return st Hph)))
  end.

Lemma move_piece_request_inv gid t from_x from_y to_x to_y w :
  service_inv w →
  service_inv (final (GameService.move_piece gid t from_x from_y to_x to_y w)).
Proof.
  intros Hw. unfold GameService.move_piece, GameService._get_and_validate_game.
  apply with_game_inv; [done|unfold_service; frame|].
  intros s Hg Hs. rewrite validated_final.
  destruct (seat s t) as [n|] eqn:Hseat; [|done].
  rewrite (bind_Return _ _ _ _ _ (get_player_number_seated _ _ w _ Hseat)).
  destruct (rules_phase2.can_move_piece from_x from_y to_x to_y n s)
    as [[[] reason] s0|e s0] eqn:Hc.
  - pose proof (readonly_Return _ _ _ _ (can_move_piece_readonly _ _ _ _ _) Hc) as ->.
    rewrite (bind_Return _ _ _ _ _ (on_state_Return _ _ w _ _ Hc)). cbn [negb].
    destruct (move_and_capture s from_x from_y to_x to_y n reason s Hs
                (seat_player _ _ _ Hseat) Hc)
      as (b1 & captured & b2 & counts2 & chain & Hm & Hcap & Ha & Hchain
          & Hwf1 & Hto1 & Hwf2 & Hto2 & Hk1 & Hk2).
    apply can_move_piece_true in Hc as (Hph & Hcp & _).
    rewrite (bind_Return _ _ _ _ _ (on_state_Return _ _ w _ _ Hm)).
    rewrite (bind_Return _ _ _ _ _ (on_state_Return _ _ w _ _ Hcap)).
    cbv zeta.
    destruct (decide (0 < Z.of_nat (length captured))).
    + rewrite bind_assoc.
      rewrite (bind_Return _ _ _ _ _ (on_state_Return _ _ w _ _ Ha)).
      rewrite bind_assoc.
      rewrite (bind_Return _ _ _ _ _ (on_state_Return _ _ w _ _ Hchain)).
      destruct chain.
      * rewrite bind_assoc, bind_on_state_modify, bind_ret. by_frame.
        apply (session_inv_after_move s b2 counts2 (Some (to_x, to_y))
                 (current_player s)); try done.
        intros x y [= <- <-]. by rewrite Hcp.
      * rewrite bind_assoc, bind_on_state_modify, bind_assoc.
        pass_turn Hph.
        rewrite bind_ret. by_frame.
        by apply (session_inv_after_move s b2 counts2 None
                    (get_opponent (current_player s))).
    + rewrite bind_assoc, bind_on_state_modify, bind_assoc.
      pass_turn Hph.
      rewrite bind_ret. by_frame.
      destruct (inv_counts _ Hs).
      by apply (session_inv_after_move s b1 (pieces_count s) None
                  (get_opponent (current_player s))).
  - pose proof (readonly_Return _ _ _ _ (can_move_piece_readonly _ _ _ _ _) Hc) as ->.
    rewrite (bind_Return _ _ _ _ _ (on_state_Return _ _ w _ _ Hc)). done.
  - pose proof (readonly_Raise _ _ _ _ (can_move_piece_readonly _ _ _ _ _) Hc) as ->.
    rewrite (bind_Raise _ _ _ _ _ (on_state_Raise _ _ w _ _ Hc)). done.
Qed.

(** *** Sessions: creation, joining, leaving, rematch *)

Lemma session_inv_new g t :
  session_inv
    {| game_id := g; board := Board_new; phase := PLACEMENT; status := WAITING;
       current_player := 1;
       player1 := Some {| player_number := 1; token := t; connected := true |};
       player2 := None; pieces_count := {[ 1 := 0; 2 := 0 ]};
       placement_remaining := 2; chain_capture_piece := None; winner := None;
       game_over := false; total_pieces_placed := 0; rematch_requests := None |}.
Proof. split; simpl; try done. apply wf_Board_new. Qed.

Lemma create_game_request_inv g t w :
  service_inv w → service_inv (final (GameService.create_game g t w)).
Proof.
  intros Hw k s. unfold GameService.create_game. simpl.
  rewrite lookup_insert. case_decide as Hk.
  - intros [= <-]. split; [done|]. apply session_inv_new.
  - apply Hw.
Qed.

Lemma join_game_request_inv t c gid e w :
  service_inv w → service_inv (final (GameService.join_game t c gid e w)).
Proof.
  intros Hw. unfold GameService.join_game.
  apply with_game_inv; [done|unfold_service; frame|].
  intros s Hg Hs. rewrite bind_gets. simpl.
  destruct (truthy e && has_token (player1 s) (default EmptyString e)); [done|].
  destruct (truthy e && has_token (player2 s) (default EmptyString e)); [done|].
  destruct (decide (status s ≠ WAITING)) as [|Hst%dec_stable].
  { destruct (player2 s); [destruct (negb (truthy e))|]; done. }
  simpl. destruct (inv_waiting _ Hs Hst) as (_ & Hph & _).
  split; simpl; try apply Hs; [|done].
  intros x y Hch. destruct (inv_chain _ Hs _ _ Hch). congruence.
Qed.

Lemma readonly_request_inv {A} gid (body : M (GameState * Service) A) w :
  service_inv w →
  preserves (request_frame gid) body →
  preserves (on_session (keeps session_inv)) body →
  service_inv (final (with_game gid body w)).
Proof.
  intros Hw Hf Hb. apply with_game_inv; [done..|].
  intros s Hg Hs. by apply (Hb (s, w)).
Qed.

Lemma reconnect_game_request_inv gid t w :
  service_inv w → service_inv (final (GameService.reconnect_game gid t w)).
Proof.
  intros Hw. apply readonly_request_inv; [done|..]; unfold_service; frame.
Qed.

Lemma get_game_state_request_inv gid t w :
  service_inv w → service_inv (final (GameService.get_game_state gid t w)).
Proof.
  intros Hw. apply readonly_request_inv; [done|..]; unfold_service; frame.
Qed.

Lemma get_valid_actions_request_inv gid t w :
  service_inv w → service_inv (final (GameService.get_valid_actions gid t w)).
Proof.
  intros Hw. apply readonly_request_inv; [done|..]; unfold_service; frame.
Qed.

Lemma leave_game_request_inv gid t w :
  service_inv w → service_inv (final (GameService.leave_game gid t w)).
Proof.
  intros Hw. apply readonly_request_inv; [done|..]; unfold_service; frame.
Qed.

Lemma rematch_game_request_inv c gid t w :
  service_inv w → service_inv (final (GameService.rematch_game c gid t w)).
Proof.
  intros Hw. unfold GameService.rematch_game.
  apply with_game_inv; [done|unfold_service; frame|].
  intros s Hg Hs. rewrite bind_gets. simpl.
  destruct (game_over s); [|done]. cbn [negb].
  assert (Hrest : ∀ n : Z,
    session_inv (final (
      ((match rematch_requests s with
        | None => on_state (modify (set_rematch_requests (Some ∅)))
        | Some _ => mret ()
        end);;
       on_state (modify (λ s0,
         set_rematch_requests (Some ({[ n ]} ∪ default ∅ (rematch_requests s0))) s0));;
       requests ← gets (λ sw : GameState * Service, default ∅ (rematch_requests sw.1));
       if decide (2 ≤ size requests)%nat then
         on_state (modify (set_board Board_new));;
         on_state (modify (set_phase PLACEMENT));;
         on_state (modify (set_status PLAYING));;
         on_state (modify (set_current_player c));;
         on_state (modify (set_pieces_count {[ 1 := 0; 2 := 0 ]}));;
         on_state (modify (set_placement_remaining 2));;
         on_state (modify (set_total_pieces_placed 0));;
         on_state (modify (set_winner None));;
         on_state (modify (set_game_over false));;
         on_state (modify (set_chain_capture_piece None));;
         on_state (modify (set_rematch_requests (Some ∅)));;
         repo_save;;
         notify (notify_game_event gid (rematch_started c) None);;
         mret {| rematch_message := "Rematch iniciado"; rematchStarted := true;
                 rematch_currentPlayer := Some c |}
       else
         let opponent_num := if decide (n = 1) then 2 else 1 in
         state ← gets fst;
         match (if decide (opponent_num = 1) then player1 state else player2 state) with
         | None => raise AttributeError
         | Some opponent =>
             notify (notify_specific_player gid (Some (token opponent))
                       rematch_requested);;
             repo_save;;
             mret {| rematch_message := "Esperando confirmación del oponente";
                     rematchStarted := false; rematch_currentPlayer := None |}
         end) (s, w))).1).
  { intros n.
    destruct (rematch_requests s) as [r|] eqn:Hr;
      [rewrite bind_ret|rewrite bind_on_state_modify];
      rewrite bind_on_state_modify, bind_gets;
      (destruct (decide (2 ≤ size _)%nat);
         [simpl; split; simpl; try done; apply wf_Board_new|]);
      by_frame; destruct Hs; by split. }
  destruct (has_token (player1 s) t); [rewrite bind_ret; apply Hrest|].
  destruct (has_token (player2 s) t); [rewrite bind_ret; apply Hrest|done].
Qed.

(** ** Reachable services *)

Lemma initial_inv : service_inv initial.
Proof. intros k s. unfold initial. simpl. by rewrite lookup_empty. Qed.

Lemma step_inv a w : service_inv w → service_inv (step a w).
Proof.
  intros Hw. destruct a; simpl.
  - by apply create_game_request_inv.
  - by apply join_game_request_inv.
  - by apply reconnect_game_request_inv.
  - by apply get_game_state_request_inv.
  - by apply get_valid_actions_request_inv.
  - by apply place_piece_request_inv.
  - by apply move_piece_request_inv.
  - by apply leave_game_request_inv.
  - by apply rematch_game_request_inv.
Qed.

Lemma run_inv l w : service_inv w → service_inv (run l w).
Proof.
  revert w. induction l as [|a l IH]; intros w Hw; simpl; [done|].
  apply IH. by apply step_inv.
Qed.

(** C7. In every service reachable from process start by any sequence of
    requests (create, join, reconnect, read, place, move with its captures,
    leave, rematch; answered or failed), a session whose chain pointer is
    set has, on the referenced cell of its board, a piece of the player
    whose turn it is. *)
Theorem chain_pointer_on_current_players_piece
    (l : list Action) (gid : string) (s : GameState) :
  games (run l initial) !! gid = Some s →
  chain_ok s.
Proof.
  intros Hg x y Hch.
  destruct (run_inv l initial initial_inv gid s Hg) as [_ Hs].
  by destruct (inv_chain _ Hs _ _ Hch).
Qed.

Lemma chain_pointer_on_current_players_piece_witness :
  ∃ s,
    games (run chain_game initial) !! "G1" = Some s
    ∧ chain_capture_piece s = Some (2, 2)
    ∧ chain_ok s.
Proof.
  destruct (games (run chain_game initial) !! "G1") as [s|] eqn:Hg;
    [|by vm_compute in Hg].
  exists s. split; [reflexivity|]. split.
  - vm_compute in Hg. by simplify_eq.
  - exact (chain_pointer_on_current_players_piece chain_game "G1" s Hg).
Defined.

(** ** The victory check returns *)

Lemma for_in_total {S A B} (l : list A) (body : A → B → M S B) s :
  (∀ a acc, a ∈ l → ∃ acc', body a acc s = Return acc' s) →
  ∀ acc, ∃ r, for_in l acc body s = Return r s.
Proof.
  intros Hb acc.
  destruct (for_in_invariant (λ _, True) l body s) with (acc := acc)
    as (r & Hr & _); [|done|by exists r].
  intros a b Ha _. destruct (Hb a b Ha) as [b' Hb']. by exists b'.
Qed.

Lemma get_valid_moves_for_piece_Return s x y :
  wf_board (board s) → Board_is_valid_position x y = true →
  ∃ moves, rules_phase2.get_valid_moves_for_piece x y s = Return moves s.
Proof.
  intros Hwf Hv. unfold rules_phase2.get_valid_moves_for_piece.
  rewrite bind_gets. destruct (decide (phase s ≠ MOVEMENT)); [by eexists|].
  destruct (board_get_valid s x y Hwf Hv) as (p & _ & Hp).
  rewrite (bind_Return _ _ _ _ _ Hp).
  destruct (decide (p = EMPTY)); [by eexists|]. cbv zeta.
  destruct (possible_moves_Return s x y Hwf) as (moves & Hm & _).
  by exists moves.
Qed.

Lemma get_all_valid_moves_Return s player :
  wf_board (board s) →
  (∀ x y, chain_capture_piece s = Some (x, y) → Board_is_valid_position x y = true) →
  ∃ moves, rules_phase2.get_all_valid_moves player s = Return moves s.
Proof.
  intros Hwf Hch. unfold rules_phase2.get_all_valid_moves.
  rewrite bind_gets. destruct (decide (phase s ≠ MOVEMENT)); [by eexists|].
  rewrite bind_gets. destruct (chain_capture_piece s) as [[cx cy]|].
  - destruct (get_valid_moves_for_piece_Return s cx cy Hwf) as (moves & Hm); [by apply Hch|].
    rewrite (bind_Return _ _ _ _ _ Hm). destruct moves; by eexists.
  - apply for_in_total.
    intros y acc Hy%elem_of_seqZ.
    apply for_in_total.
    intros x acc' Hx%elem_of_seqZ.
    assert (Hv : Board_is_valid_position x y = true)
      by (apply valid_position_iff; unfold SIZE in *; lia).
    destruct (board_get_valid s x y Hwf Hv) as (p & _ & Hp).
    rewrite (bind_Return _ _ _ _ _ Hp).
    destruct (decide (p = player)); [|by eexists].
    destruct (get_valid_moves_for_piece_Return s x y Hwf Hv) as (moves & Hm).
    rewrite (bind_Return _ _ _ _ _ Hm). destruct moves; by eexists.
Qed.

Lemma check_victory_Return s :
  session_inv s → ∃ r, rules_victory.check_victory s = Return r s.
Proof.
  intros Hs. unfold rules_victory.check_victory. rewrite bind_gets.
  destruct (decide (phase s ≠ MOVEMENT)); [by eexists|].
  destruct (inv_counts _ Hs) as [[p1 H1] [p2 H2]].
  rewrite (bind_Return _ _ _ _ _ (count_get_Return _ _ _ H1)).
  rewrite (bind_Return _ _ _ _ _ (count_get_Return _ _ _ H2)).
  destruct (decide (p1 < 2)); [by eexists|].
  destruct (decide (p2 < 2)); [by eexists|].
  rewrite bind_gets.
  destruct (get_all_valid_moves_Return s (current_player s) (inv_board _ Hs))
    as (moves & Hm).
  { intros x y Hxy. by destruct (inv_chain _ Hs _ _ Hxy) as (_ & ? & _). }
  rewrite (bind_Return _ _ _ _ _ Hm).
  destruct (decide (length moves = 0%nat)); [|by eexists].
  destruct (decide (p2 < p1)); [by eexists|].
  destruct (decide (p1 < p2)); by eexists.
Qed.

(** ** The pinned piece *)

Lemma can_move_piece_pinned s cx cy from_x from_y to_x to_y player :
  wf_board (board s) →
  chain_capture_piece s = Some (cx, cy) →
  (from_x, from_y) ≠ (cx, cy) →
  ∃ reason,
    rules_phase2.can_move_piece from_x from_y to_x to_y player s
      = Return (false, reason) s
    ∧ (phase s = MOVEMENT → current_player s = player →
       holds (board s) from_x from_y player →
       holds (board s) to_x to_y EMPTY →
       Z.abs (to_x - from_x) + Z.abs (to_y - from_y) = 1 →
       reason = "Debes continuar moviendo la pieza en (" +:+ pretty cx
                  +:+ ", " +:+ pretty cy +:+ ")").
Proof.
  intros Hwf Hch Hne. unfold rules_phase2.can_move_piece. rewrite bind_gets.
  destruct (decide (phase s ≠ MOVEMENT)); [by eexists|].
  rewrite bind_gets.
  destruct (decide (current_player s ≠ player)); [by eexists|].
  destruct (Board_is_valid_position from_x from_y) eqn:Hvf;
    [|eexists; split; [done|]; intros _ _ [? _]; congruence].
  destruct (Board_is_valid_position to_x to_y) eqn:Hvt;
    [|eexists; split; [done|]; intros _ _ _ [? _]; congruence].
  cbn [negb].
  destruct (board_get_valid s _ _ Hwf Hvf) as (p & Hgp & Hp).
  rewrite (bind_Return _ _ _ _ _ Hp).
  destruct (decide (p ≠ player)).
  { eexists. split; [done|]. intros _ _ [_ ?]. congruence. }
  destruct (Board_get_is_Some _ _ _ Hwf Hvt) as [e Hge].
  rewrite (bind_Return _ _ _ _ _ (board_is_empty_Return _ _ _ _ Hge)).
  case_bool_decide as He; cbn [negb].
  2:{ eexists. split; [done|]. intros _ _ _ [_ ?]. congruence. }
  destruct (negb _) eqn:Hortho.
  { eexists. split; [done|]. intros _ _ _ _ Habs. exfalso.
    apply negb_true_iff, orb_false_iff in Hortho as [H1 H2].
    apply andb_false_iff in H1, H2.
    rewrite !bool_decide_eq_false in H1, H2. lia. }
  rewrite bind_gets, Hch.
  destruct (bool_decide (from_x ≠ cx) || bool_decide (from_y ≠ cy)) eqn:Hpin.
  - eexists. split; [done|]. done.
  - apply orb_false_iff in Hpin as [H1%bool_decide_eq_false%dec_stable
                                     H2%bool_decide_eq_false%dec_stable].
    by subst.
Qed.

(** C3 (amended). A legal move that captures and after which
    [has_capture_chain] holds for the moved piece is answered with the
    extra-turn flag; the stored session then has its chain pointer on the
    piece's new position and the same player to move, and every later move
    attempt from another origin is rejected.  The reason of the rejection
    names the pinned coordinate when the attempt passes the checks made
    before the chain check (turn, positions, ownership, empty destination,
    one orthogonal step). *)
Theorem chain_capture_pins_the_piece
    (l : list Action) (gid t : string) (s s1 s2 : GameState)
    (n from_x from_y to_x to_y : Z) (captured : list (Z * Z)) :
  games (run l initial) !! gid = Some s →
  seat s t = Some n →
  rules_phase2.can_move_piece from_x from_y to_x to_y n s = Return (true, "OK") s →
  rules_phase2.move_piece from_x from_y to_x to_y s = Return () s1 →
  rules_capture.check_captures to_x to_y n s1 = Return captured s1 →
  captured ≠ [] →
  rules_capture.apply_captures captured s1 = Return () s2 →
  rules_capture.has_capture_chain to_x to_y n s2 = Return true s2 →
  ∃ response w' s',
    GameService.move_piece gid t from_x from_y to_x to_y (run l initial)
      = Return response w'
    ∧ extra_turn (response_result response) = true
    ∧ games w' !! gid = Some s'
    ∧ chain_capture_piece s' = Some (to_x, to_y)
    ∧ current_player s' = current_player s
    ∧ (∀ fx fy tx ty player, (fx, fy) ≠ (to_x, to_y) →
         ∃ reason,
           rules_phase2.can_move_piece fx fy tx ty player s'
             = Return (false, reason) s')
    ∧ (∀ fx fy tx ty, (fx, fy) ≠ (to_x, to_y) →
         holds (board s') fx fy n → holds (board s') tx ty EMPTY →
         Z.abs (tx - fx) + Z.abs (ty - fy) = 1 →
         rules_phase2.can_move_piece fx fy tx ty n s'
           = Return (false, "Debes continuar moviendo la pieza en ("
                              +:+ pretty to_x +:+ ", " +:+ pretty to_y +:+ ")") s').
Proof.
  set (w := run l initial). intros Hg Hseat Hc H1 H2 Hne H3 H4.
  assert (Hw : service_inv w) by apply run_inv, initial_inv.
  destruct (Hw _ _ Hg) as [Hid Hs].
  destruct (move_and_capture s from_x from_y to_x to_y n "OK" s Hs
              (seat_player _ _ _ Hseat) Hc)
    as (b1 & captured' & b2 & counts2 & chain & Hm & Hcap & Ha & Hchain
        & Hwf1 & Hto1 & Hwf2 & Hto2 & Hk1 & Hk2).
  rewrite Hm in H1. injection H1 as <-.
  rewrite Hcap in H2. injection H2 as ->.
  rewrite Ha in H3. injection H3 as <-.
  rewrite Hchain in H4. injection H4 as ->.
  pose proof (can_move_piece_true _ _ _ _ _ _ _ _ Hc) as (Hph & Hcp & _).
  set (s3 := set_chain_capture_piece (Some (to_x, to_y))
               (set_pieces_count counts2 (set_board b2 (set_board b1 s)))).
  assert (Hs3 : session_inv s3).
  { apply (session_inv_after_move s b2 counts2 (Some (to_x, to_y))
             (current_player s)); try done.
    intros x y [= <- <-]. by rewrite Hcp. }
  destruct (check_victory_Return s3 Hs3) as ([[has_winner win] reason] & Hv).
  assert (Hpin : ∀ s', board s' = b2 → chain_capture_piece s' = Some (to_x, to_y) →
    phase s' = MOVEMENT → current_player s' = n →
    (∀ fx fy tx ty player, (fx, fy) ≠ (to_x, to_y) →
       ∃ reason,
         rules_phase2.can_move_piece fx fy tx ty player s' = Return (false, reason) s')
    ∧ (∀ fx fy tx ty, (fx, fy) ≠ (to_x, to_y) →
         holds (board s') fx fy n → holds (board s') tx ty EMPTY →
         Z.abs (tx - fx) + Z.abs (ty - fy) = 1 →
         rules_phase2.can_move_piece fx fy tx ty n s'
           = Return (false, "Debes continuar moviendo la pieza en ("
                              +:+ pretty to_x +:+ ", " +:+ pretty to_y +:+ ")") s')).
  { intros s' Hb Hch' Hph' Hcp'. split.
    - intros fx fy tx ty player Hfrom.
      destruct (can_move_piece_pinned s' to_x to_y fx fy tx ty player)
        as (r & Hr & _); [by rewrite Hb|done..|by exists r].
    - intros fx fy tx ty Hfrom Hpiece Hdest Hstep.
      destruct (can_move_piece_pinned s' to_x to_y fx fy tx ty n)
        as (r & Hr & Hreason); [by rewrite Hb|done..|].
      by rewrite <- Hreason. }
  unfold GameService.move_piece.
  rewrite (validate_seated _ _ _ _ _ _ Hg Hseat).
  rewrite (bind_Return _ _ _ _ _ (get_player_number_seated _ _ w _ Hseat)).
  rewrite (bind_Return _ _ _ _ _ (on_state_Return _ _ w _ _ Hc)). cbn [negb].
  rewrite (bind_Return _ _ _ _ _ (on_state_Return _ _ w _ _ Hm)).
  rewrite (bind_Return _ _ _ _ _ (on_state_Return _ _ w _ _ Hcap)). cbv zeta.
  rewrite decide_True by (destruct captured; [done|simpl; lia]).
  rewrite bind_assoc.
  rewrite (bind_Return _ _ _ _ _ (on_state_Return _ _ w _ _ Ha)).
  rewrite bind_assoc.
  rewrite (bind_Return _ _ _ _ _ (on_state_Return _ _ w _ _ Hchain)).
  rewrite bind_assoc, bind_on_state_modify, bind_ret.
  fold s3. rewrite (bind_Return _ _ _ _ _ (on_state_Return _ _ w _ _ Hv)).
  assert (Hin : ∀ s' : GameState, game_id s' = gid →
            ∀ g n', games (close gid (s', {| games := <[gid := s']> g; notifier := n' |}))
                      !! gid = Some s').
  { intros s' _ g n'. apply close_lookup. simpl. by rewrite lookup_insert_eq. }
  destruct has_winner; simpl; rewrite Hid.
  - eexists _, _, _. split; [reflexivity|]. split; [done|].
    split; [by apply Hin|]. split; [done|]. split; [done|].
    by apply Hpin.
  - eexists _, _, _. split; [reflexivity|]. split; [done|].
    split; [by apply Hin|]. split; [done|]. split; [done|].
    by apply Hpin.
Qed.

Lemma chain_capture_pins_the_piece_witness :
  games (run chain_opening initial) !! "G1" = Some chain_start
  ∧ seat chain_start "token-a" = Some 1
  ∧ rules_phase2.can_move_piece 2 1 2 2 1 chain_start = Return (true, "OK") chain_start
  ∧ rules_phase2.move_piece 2 1 2 2 chain_start = Return () chain_moved
  ∧ rules_capture.check_captures 2 2 1 chain_moved = Return [(2, 3)] chain_moved
  ∧ [(2, 3)] ≠ []
  ∧ rules_capture.apply_captures [(2, 3)] chain_moved = Return () chain_captured
  ∧ rules_capture.has_capture_chain 2 2 1 chain_captured = Return true chain_captured
  ∧ ∃ response w' s',
      GameService.move_piece "G1" "token-a" 2 1 2 2 (run chain_opening initial)
        = Return response w'
      ∧ extra_turn (response_result response) = true
      ∧ games w' !! "G1" = Some s'
      ∧ chain_capture_piece s' = Some (2, 2)
      ∧ current_player s' = current_player chain_start
      ∧ (∀ fx fy tx ty player, (fx, fy) ≠ (2, 2) →
           ∃ reason,
             rules_phase2.can_move_piece fx fy tx ty player s'
               = Return (false, reason) s')
      ∧ (∀ fx fy tx ty, (fx, fy) ≠ (2, 2) →
           holds (board s') fx fy 1 → holds (board s') tx ty EMPTY →
           Z.abs (tx - fx) + Z.abs (ty - fy) = 1 →
           rules_phase2.can_move_piece fx fy tx ty 1 s'
             = Return (false, "Debes continuar moviendo la pieza en ("
                                +:+ pretty 2 +:+ ", " +:+ pretty 2 +:+ ")") s').
Proof.
  assert (H1 : games (run chain_opening initial) !! "G1" = Some chain_start)
    by (vm_compute; reflexivity).
  assert (H2 : seat chain_start "token-a" = Some 1) by reflexivity.
  assert (H3 : rules_phase2.can_move_piece 2 1 2 2 1 chain_start
               = Return (true, "OK") chain_start) by (vm_compute; reflexivity).
  assert (H4 : rules_phase2.move_piece 2 1 2 2 chain_start = Return () chain_moved)
    by (vm_compute; reflexivity).
  assert (H5 : rules_capture.check_captures 2 2 1 chain_moved
               = Return [(2, 3)] chain_moved) by (vm_compute; reflexivity).
  assert (H6 : [(2, 3)] ≠ @nil (Z * Z)) by discriminate.
  assert (H7 : rules_capture.apply_captures [(2, 3)] chain_moved
               = Return () chain_captured) by (vm_compute; reflexivity).
  assert (H8 : rules_capture.has_capture_chain 2 2 1 chain_captured
               = Return true chain_captured) by (vm_compute; reflexivity).
  do 8 (split; [assumption|]).
  exact (chain_capture_pins_the_piece chain_opening "G1" "token-a"
           chain_start chain_moved chain_captured 1 2 1 2 2 [(2, 3)]
           H1 H2 H3 H4 H5 H6 H7 H8).
Defined.

(** C3 as stated fails: with the chain pointer on (2, 2), the attempt of
    player 1 to move its piece on (0, 0) to the occupied cell (0, 1) is
    rejected for the destination, not for the pinned piece. *)
Lemma pinned_attempt_rejected_for_another_reason :
  ∃ s,
    games (run chain_game initial) !! "G1" = Some s
    ∧ chain_capture_piece s = Some (2, 2)
    ∧ current_player s = 1
    ∧ (0, 0) ≠ (2, 2)
    ∧ rules_phase2.can_move_piece 0 0 0 1 1 s
        = Return (false, "El destino no está vacío") s
    ∧ "El destino no está vacío" ≠ "Debes continuar moviendo la pieza en (2, 2)".
Proof.
  eexists. split; [vm_compute; reflexivity|].
  split; [reflexivity|]. split; [reflexivity|]. split; [discriminate|].
  split; [vm_compute; reflexivity|discriminate].
Qed.

Example pinned_piece_reason :
  ∃ s,
    games (run chain_game initial) !! "G1" = Some s
    ∧ rules_phase2.can_move_piece 1 1 2 1 1 s
        = Return (false, "Debes continuar moviendo la pieza en (2, 2)") s.
Proof. eexists. split; vm_compute; reflexivity. Qed.

(** ** The end of the placement phase *)

Lemma can_place_piece_in_movement s x y player :
  phase s = MOVEMENT →
  rules_phase1.can_place_piece x y player s
    = Return (false, "No estás en la fase de posicionamiento") s.
Proof.
  intros Hph. unfold rules_phase1.can_place_piece. rewrite bind_gets, Hph. done.
Qed.

Lemma request_keeps_movement {A} gid (body : M (GameState * Service) A) w s2 :
  service_inv w →
  preserves (request_frame gid) body →
  preserves (on_session stays_in_movement) body →
  games (final (with_game gid body w)) !! gid = Some s2 →
  ∃ s, games w !! gid = Some s ∧ (phase s = MOVEMENT → phase s2 = MOVEMENT).
Proof.
  intros Hw Hf Hb Hg.
  destruct (with_game_lookup _ _ _ _ Hw Hf Hg) as (s & Hs & -> & _).
  exists s. split; [done|]. apply (Hb (s, w)).
Qed.

Lemma rematch_game_keeps_movement c gid t w s2 :
  service_inv w →
  games (final (GameService.rematch_game c gid t w)) !! gid = Some s2 →
  (∃ r w', GameService.rematch_game c gid t w = Return r w' ∧ rematchStarted r = true)
  ∨ ∃ s, games w !! gid = Some s ∧ phase s2 = phase s.
Proof.
  intros Hw. unfold GameService.rematch_game.
  destruct (games w !! gid) as [s|] eqn:Hg.
  2:{ rewrite with_game_final, Hg, Hg. done. }
  rewrite with_game_final, Hg, (with_game_found _ _ _ _ Hg).
  rewrite bind_gets. simpl.
  destruct (game_over s); cbn [negb].
  2:{ simpl. rewrite lookup_alter, decide_True, Hg by done.
      intros [= <-]. right. by exists s. }
  assert (Hrest : ∀ (n : Z) k,
    k = (λ player_num : Z,
      (match rematch_requests s with
       | None => on_state (modify (set_rematch_requests (Some ∅)))
       | Some _ => mret ()
       end);;
      on_state (modify (λ s0,
        set_rematch_requests
          (Some ({[ player_num ]} ∪ default ∅ (rematch_requests s0))) s0));;
      requests ← gets (λ sw : GameState * Service, default ∅ (rematch_requests sw.1));
      if decide (2 ≤ size requests)%nat then
        on_state (modify (set_board Board_new));;
        on_state (modify (set_phase PLACEMENT));;
        on_state (modify (set_status PLAYING));;
        on_state (modify (set_current_player c));;
        on_state (modify (set_pieces_count {[ 1 := 0; 2 := 0 ]}));;
        on_state (modify (set_placement_remaining 2));;
        on_state (modify (set_total_pieces_placed 0));;
        on_state (modify (set_winner None));;
        on_state (modify (set_game_over false));;
        on_state (modify (set_chain_capture_piece None));;
        on_state (modify (set_rematch_requests (Some ∅)));;
        repo_save;;
        notify (notify_game_event gid (rematch_started c) None);;
        mret {| rematch_message := "Rematch iniciado"; rematchStarted := true;
                rematch_currentPlayer := Some c |}
      else
        let opponent_num := if decide (player_num = 1) then 2 else 1 in
        state ← gets fst;
        match (if decide (opponent_num = 1) then player1 state else player2 state) with
        | None => raise AttributeError
        | Some opponent =>
            notify (notify_specific_player gid (Some (token opponent))
                      rematch_requested);;
            repo_save;;
            mret {| rematch_message := "Esperando confirmación del oponente";
                    rematchStarted := false; rematch_currentPlayer := None |}
        end) →
    games (close gid (final (k n (s, w)))) !! gid = Some s2 →
    (∃ r w',
       match k n (s, w) with
       | Return a sw => Return a (close gid sw)
       | Raise e sw => Raise e (close gid sw)
       end = Return r w' ∧ rematchStarted r = true)
    ∨ ∃ s0, Some s = Some s0 ∧ phase s2 = phase s0).
  { intros n k ->.
    destruct (rematch_requests s) as [r|] eqn:Hr;
      [rewrite bind_ret|rewrite bind_on_state_modify];
      rewrite bind_on_state_modify, bind_gets;
      (destruct (decide (2 ≤ size _)%nat); [intros _; left; by eexists _, _|]);
      cbv zeta; rewrite bind_gets;
      destruct (if decide (_ = 1) then _ else _); simpl;
      rewrite lookup_alter, decide_True by done; simpl;
      rewrite ?lookup_insert; try case_decide; rewrite ?Hg; simpl;
      intros [= <-]; right; by exists s. }
  destruct (has_token (player1 s) t);
    [rewrite bind_ret; exact (Hrest 1 _ eq_refl)|].
  destruct (has_token (player2 s) t);
    [rewrite bind_ret; exact (Hrest 2 _ eq_refl)|].
  simpl. rewrite lookup_alter, decide_True, Hg by done.
  intros [= <-]. right. by exists s.
Qed.

Ltac unfold_service_in H :=
  unfold GameService.join_game, GameService.reconnect_game,
    GameService.get_game_state, GameService.get_valid_actions,
    GameService.place_piece, GameService.move_piece, GameService.leave_game,
    GameService._get_and_validate_game in H.

Ltac keeps_movement Hw Hg g gid :=
  unfold_service_in Hg;
  destruct (decide (g = gid)) as [->|];
  [refine (request_keeps_movement _ _ _ _ Hw _ _ Hg); unfold_service; frame
  |rewrite with_game_lookup_ne in Hg
     by first [done|exact Hw|unfold_service; frame];
   eexists; split; [exact Hg|done]].

Lemma step_keeps_movement gid a w s2 :
  service_inv w →
  ¬ rematch_starts gid a w → ¬ redraws_id gid a →
  games (step a w) !! gid = Some s2 →
  ∃ s, games w !! gid = Some s ∧ (phase s = MOVEMENT → phase s2 = MOVEMENT).
Proof.
  intros Hw Hr Hd Hg.
  destruct a as [g t|t c g e|g t|g t|g t|g t x y|g t fx fy tx ty|g t|c g t];
    simpl in Hg, Hr, Hd.
  - unfold GameService.create_game in Hg. simpl in Hg.
    rewrite lookup_insert_ne in Hg by done. by exists s2.
  - keeps_movement Hw Hg g gid.
  - keeps_movement Hw Hg g gid.
  - keeps_movement Hw Hg g gid.
  - keeps_movement Hw Hg g gid.
  - keeps_movement Hw Hg g gid.
  - keeps_movement Hw Hg g gid.
  - keeps_movement Hw Hg g gid.
  - destruct (decide (g = gid)) as [->|].
    + destruct (rematch_game_keeps_movement _ _ _ _ _ Hw Hg) as [Hs|(s & Hs & Hph)].
      * by destruct Hr.
      * exists s. split; [done|]. congruence.
    + unfold GameService.rematch_game in Hg.
      rewrite with_game_lookup_ne in Hg
        by first [done|exact Hw|unfold_service; frame].
      by exists s2.
Qed.

Lemma movement_persists gid l w :
  service_inv w → no_restart gid l w →
  (∀ s, games w !! gid = Some s → phase s = MOVEMENT) →
  ∀ s2, games (run l w) !! gid = Some s2 → phase s2 = MOVEMENT.
Proof.
  revert w. induction l as [|a l IH]; intros w Hw Hn Hph s2 Hg2; simpl in *.
  - by apply Hph.
  - destruct Hn as (Hr & Hd & Hn).
    apply (IH (step a w)); try done; [by apply step_inv|].
    intros s1 Hg1.
    destruct (step_keeps_movement gid a w s1 Hw Hr Hd Hg1) as (s & Hs & Hkeep).
    apply Hkeep. by apply Hph.
Qed.

(** C5 (amended). The placement that brings the cumulative counter to 24
    is answered with the phase-change flag and leaves the stored session in
    the MOVEMENT phase with no chain pointer.  From then on, through every
    sequence of requests in which no rematch accepted by both players
    restarts the session, the session stays in the MOVEMENT phase and
    [can_place_piece] rejects every placement.  (A rematch requested by
    both players resets the session to the PLACEMENT phase.) *)
Theorem placement_ends_at_24
    (l : list Action) (gid t : string) (s : GameState) (n x y : Z) :
  games (run l initial) !! gid = Some s →
  seat s t = Some n →
  rules_phase1.can_place_piece x y n s = Return (true, "OK") s →
  24 ≤ total_pieces_placed s + 1 →
  ∃ response w1 s1,
    GameService.place_piece gid t x y (run l initial) = Return response w1
    ∧ phase_changed (response_result response) = true
    ∧ games w1 !! gid = Some s1
    ∧ total_pieces_placed s1 = total_pieces_placed s + 1
    ∧ phase s1 = MOVEMENT
    ∧ chain_capture_piece s1 = None
    ∧ ∀ later, no_restart gid later w1 →
        ∀ s2, games (run later w1) !! gid = Some s2 →
          phase s2 = MOVEMENT
          ∧ ∀ x' y' player,
              rules_phase1.can_place_piece x' y' player s2
                = Return (false, "No estás en la fase de posicionamiento") s2.
Proof.
  set (w := run l initial). intros Hg Hseat Hc Htotal.
  assert (Hw : service_inv w) by apply run_inv, initial_inv.
  destruct (Hw _ _ Hg) as [Hid Hs].
  pose proof (can_place_piece_true _ _ _ _ _ _ Hc) as (Hph & Hcp & Hrem & Hv).
  assert (Hk : is_Some (pieces_count s !! n))
    by (destruct (seat_player _ _ _ Hseat) as [-> | ->]; apply (inv_counts _ Hs)).
  destruct Hk as [c Hn].
  destruct (place_piece_Return s x y n c (inv_board _ Hs) Hv Hn Hph)
    as (b' & s' & Hr & Hwf' & Hb & Hcounts & Ht & Hch & Hph' & _).
  rewrite bool_decide_true in Hr by done.
  rewrite decide_True in Hch by done. rewrite decide_True in Hph' by done.
  assert (Hid' : game_id s' = gid).
  { pose proof (place_piece_same_game_id x y n s) as Hsame.
    rewrite Hr in Hsame. simpl in Hsame. congruence. }
  pose proof (place_piece_request_inv gid t x y w Hw) as Hw1.
  unfold GameService.place_piece in *.
  rewrite (validate_seated _ _ _ _ _ _ Hg Hseat) in *.
  rewrite (bind_Return _ _ _ _ _ (get_player_number_seated _ _ w _ Hseat)) in *.
  rewrite (bind_Return _ _ _ _ _ (on_state_Return _ _ w _ _ Hc)) in *.
  cbn [negb] in *.
  rewrite (bind_Return _ _ _ _ _ (on_state_Return _ _ w _ _ Hr)) in *.
  simpl in *. rewrite Hid' in *.
  assert (Hg1 : ∀ n', games (close gid
      (s', {| games := <[gid := s']> (games w); notifier := n' |})) !! gid = Some s').
  { intros n'. apply close_lookup. simpl. by rewrite lookup_insert_eq. }
  eexists _, _, s'. split; [reflexivity|]. split; [done|].
  split; [apply Hg1|]. split; [done|]. split; [done|]. split; [done|].
  intros later Hquiet s2 Hg2.
  assert (Hm : phase s2 = MOVEMENT).
  { eapply movement_persists; [exact Hw1|exact Hquiet| |exact Hg2].
    intros s0. rewrite Hg1. by intros [= <-]. }
  split; [done|]. intros x' y' player. by apply can_place_piece_in_movement.
Qed.

Lemma placement_ends_at_24_witness :
  ∃ s,
    games (run last_piece_to_place initial) !! "G1" = Some s
    ∧ seat s "token-b" = Some 2
    ∧ rules_phase1.can_place_piece 4 4 2 s = Return (true, "OK") s
    ∧ 24 ≤ total_pieces_placed s + 1
    ∧ ∃ response w1 s1,
        GameService.place_piece "G1" "token-b" 4 4 (run last_piece_to_place initial)
          = Return response w1
        ∧ phase_changed (response_result response) = true
        ∧ games w1 !! "G1" = Some s1
        ∧ total_pieces_placed s1 = total_pieces_placed s + 1
        ∧ phase s1 = MOVEMENT
        ∧ chain_capture_piece s1 = None
        ∧ ∀ later, no_restart "G1" later w1 →
            ∀ s2, games (run later w1) !! "G1" = Some s2 →
              phase s2 = MOVEMENT
              ∧ ∀ x' y' player,
                  rules_phase1.can_place_piece x' y' player s2
                    = Return (false, "No estás en la fase de posicionamiento") s2.
Proof.
  destruct (games (run last_piece_to_place initial) !! "G1") as [s|] eqn:Hg;
    [|by vm_compute in Hg].
  pose proof Hg as Hs. vm_compute in Hs. injection Hs as Hs.
  assert (H2 : seat s "token-b" = Some 2) by (rewrite <- Hs; reflexivity).
  assert (H3 : rules_phase1.can_place_piece 4 4 2 s = Return (true, "OK") s)
    by (rewrite <- Hs; vm_compute; reflexivity).
  assert (H4 : 24 ≤ total_pieces_placed s + 1) by (rewrite <- Hs; simpl; lia).
  exists s. split; [reflexivity|]. split; [exact H2|]. split; [exact H3|].
  split; [exact H4|].
  exact (placement_ends_at_24 last_piece_to_place "G1" "token-b" s 2 4 4 Hg H2 H3 H4).
Defined.

(** C5 as stated fails: after the 24 placements of [short_game] the
    session is in the MOVEMENT phase; once the game is over and both
    players have asked for a rematch, the same session is back in the
    PLACEMENT phase and a placement is accepted. *)
Lemma rematch_reopens_placement :
  ∃ s s',
    games (run short_game initial) !! "G1" = Some s
    ∧ total_pieces_placed s = 24
    ∧ phase s = MOVEMENT
    ∧ games (run (short_game ++ rematch_both) initial) !! "G1" = Some s'
    ∧ phase s' = PLACEMENT
    ∧ rules_phase1.can_place_piece 0 0 2 s' = Return (true, "OK") s'
    ∧ ∃ response w',
        GameService.place_piece "G1" "token-b" 0 0
          (run (short_game ++ rematch_both) initial) = Return response w'
        ∧ success (response_result response) = true.
Proof.
  eexists _, _. split; [vm_compute; reflexivity|].
  split; [reflexivity|]. split; [reflexivity|].
  split; [vm_compute; reflexivity|]. split; [reflexivity|].
  split; [vm_compute; reflexivity|].
  eexists _, _. split; [vm_compute; reflexivity|reflexivity].
Qed.

Example short_game_is_over :
  ∃ s,
    games (run short_game initial) !! "G1" = Some s
    ∧ game_over s = true ∧ winner s = Some 1 ∧ status s = FINISHED.
Proof. eexists. split; [vm_compute; reflexivity|done]. Qed.

(** * Further properties of the code *)

(** ** Scanning and counting cells

    These go through the cells with the decision procedure for [holds]. *)

(** The empty cells one orthogonal step away from [(x, y)], in the order
    the movement rules scan them: +y, -y, +x, -x. *)
Definition free_neighbours (b : Board) (x y : Z) : list (Z * Z) :=
  (λ d : Z * Z, (x + d.1, y + d.2)) <$>
    filter (λ d : Z * Z, holds b (x + d.1) (y + d.2) EMPTY)
      [(0, 1); (0, -1); (1, 0); (-1, 0)].

(** The entry of the dict of valid moves for cell [c]: present when the
    cell holds a piece of [player] that has a free neighbour. *)
Definition moves_entry (b : Board) (player : Z) (c : Z * Z)
  : option ((Z * Z) * list (Z * Z)) :=
  if decide (holds b c.1 c.2 player) then
    match free_neighbours b c.1 c.2 with
    | [] => None
    | moves => Some (c, moves)
    end
  else None.

(** The number of cells of the board holding [v]. *)
Definition pieces_on (b : Board) (v : Z) : Z :=
  Z.of_nat (length (filter (λ c, holds b c.1 c.2 v) all_cells)).

(** The books of a session: every cell is empty or holds a piece of
    player 1 or 2, each counter is the number of the player's pieces on the
    board, and the placement counter is the number of pieces put down:
    while placing, fewer than 24 with the refuge still empty; once moving,
    24. *)
Record ledger (s : GameState) : Prop := {
  ledger_cells : ∀ x y v, holds (board s) x y v → v = EMPTY ∨ v = PLAYER1 ∨ v = PLAYER2;
  ledger_player1 : pieces_count s !! 1 = Some (pieces_on (board s) 1);
  ledger_player2 : pieces_count s !! 2 = Some (pieces_on (board s) 2);
  ledger_placement : phase s = PLACEMENT →
    holds (board s) REFUGE_X REFUGE_Y EMPTY
    ∧ total_pieces_placed s = pieces_on (board s) 1 + pieces_on (board s) 2
    ∧ total_pieces_placed s < 24;
  ledger_movement : phase s = MOVEMENT → total_pieces_placed s = 24
}.

Lemma py_index_mod n i :
  0 < n → - n ≤ i < n → py_index n i = Some (Z.to_nat (i `mod` n)).
Proof.
  intros Hn Hi. unfold py_index.
  destruct (decide (0 ≤ i < n)).
  - by rewrite Z.mod_small.
  - rewrite decide_True by lia. do 2 f_equal.
    rewrite <- (Z.mod_small (n + i) n) by lia.
    rewrite <- (Z_mod_plus_full i 1 n). f_equal. lia.
Qed.

Lemma py_index_None n i : ¬ (- n ≤ i < n) → py_index n i = None.
Proof.
  intros Hi. unfold py_index.
  rewrite !decide_False by lia. done.
Qed.

Lemma Board_get_wrap b x y :
  wf_board b → -5 ≤ x < 5 → -5 ≤ y < 5 →
  Board_get b x y = Board_get b (x `mod` 5) (y `mod` 5).
Proof.
  intros Hwf Hx Hy.
  assert (Hv : Board_is_valid_position (x `mod` 5) (y `mod` 5) = true).
  { apply valid_position_iff. split; apply Z.mod_pos_bound; lia. }
  rewrite (Board_get_lookup _ _ _ Hwf Hv).
  unfold Board_get, list_getitem.
  rewrite (proj1 Hwf). change (Z.of_nat 5) with 5.
  rewrite py_index_mod by lia. simpl.
  destruct (wf_board_row b (Z.to_nat (y `mod` 5)) Hwf) as (row & Hrow & Hlen).
  { pose proof (Z.mod_pos_bound y 5). lia. }
  rewrite Hrow. simpl. rewrite Hlen. change (Z.of_nat 5) with 5.
  rewrite py_index_mod by lia. done.
Qed.

Lemma Board_get_out_of_range b x y :
  wf_board b → ¬ (-5 ≤ x < 5 ∧ -5 ≤ y < 5) → Board_get b x y = None.
Proof.
  intros Hwf Hxy. unfold Board_get, list_getitem. rewrite (proj1 Hwf).
  change (Z.of_nat 5) with 5.
  destruct (decide (-5 ≤ y < 5)) as [Hy|Hy].
  - rewrite py_index_mod by lia. simpl.
    destruct (wf_board_row b (Z.to_nat (y `mod` 5)) Hwf) as (row & Hrow & Hlen).
    { pose proof (Z.mod_pos_bound y 5). lia. }
    rewrite Hrow. simpl. rewrite Hlen. change (Z.of_nat 5) with 5.
    rewrite py_index_None by lia. done.
  - rewrite py_index_None by lia. done.
Qed.

(** X1.  On a 5x5 board [Board.get(x, y)] answers for every index from -5
    to 4, a negative index counting from the end: the cell read is
    [(x mod 5, y mod 5)].  For any other index it raises [IndexError].  The
    session is unchanged either way. *)
Theorem board_get_bounds (s : GameState) (x y : Z) :
  wf_board (board s) →
  (-5 ≤ x < 5 ∧ -5 ≤ y < 5 →
     ∃ v, board_get x y s = Return v s
          ∧ holds (board s) (x `mod` 5) (y `mod` 5) v)
  ∧ (¬ (-5 ≤ x < 5 ∧ -5 ≤ y < 5) → board_get x y s = Raise IndexError s).
Proof.
  intros Hwf. split.
  - intros [Hx Hy].
    assert (Hv : Board_is_valid_position (x `mod` 5) (y `mod` 5) = true).
    { apply valid_position_iff. split; apply Z.mod_pos_bound; lia. }
    destruct (Board_get_is_Some _ _ _ Hwf Hv) as [v Hg].
    exists v. split; [|done].
    apply board_get_Return. by rewrite Board_get_wrap.
  - intros Hxy. unfold board_get. by rewrite Board_get_out_of_range.
Qed.

Lemma board_get_bounds_witness :
  wf_board (board custody_board)
  ∧ ((-5 ≤ (-1) < 5 ∧ -5 ≤ 1 < 5 →
     ∃ v, board_get (-1) 1 custody_board = Return v custody_board
          ∧ holds (board custody_board) ((-1) `mod` 5) (1 `mod` 5) v)
  ∧ (¬ (-5 ≤ (-1) < 5 ∧ -5 ≤ 1 < 5) → board_get (-1) 1 custody_board = Raise IndexError custody_board)).
Proof.
  assert (H1 : wf_board (board custody_board))
    by (wf_rows).
  split; [exact H1|].
  exact (board_get_bounds custody_board (-1) 1 H1).
Defined.

(** X2.  [Board.set] on a position of the board writes that cell only:
    the board stays 5x5, nothing but the board changes in the session, a
    [get] of the position then returns the value written and every other
    position of the board reads as before. *)
Theorem board_set_then_get (s : GameState) (x y v : Z) :
  wf_board (board s) →
  Board_is_valid_position x y = true →
  ∃ s',
    board_set x y v s = Return () s'
    ∧ s' = set_board (board s') s
    ∧ wf_board (board s')
    ∧ board_get x y s' = Return v s'
    ∧ ∀ x' y', Board_is_valid_position x' y' = true → (x', y') ≠ (x, y) →
        ∃ u, board_get x' y' s = Return u s ∧ board_get x' y' s' = Return u s'.
Proof.
  intros Hwf Hv.
  destruct (board_set_valid s x y v Hwf Hv) as (b' & Hs & Hwf' & Hg).
  exists (set_board b' s). split; [done|]. split; [done|]. split; [done|]. split.
  - apply board_get_Return. simpl. rewrite Hg by done. by rewrite decide_True.
  - intros x' y' Hv' Hne.
    destruct (board_get_valid s x' y' Hwf Hv') as (u & Hu & Hru).
    exists u. split; [done|]. apply board_get_Return. simpl.
    rewrite Hg by done. rewrite decide_False; [done|].
    intros [-> ->]. done.
Qed.

Lemma board_set_then_get_witness :
  wf_board (board custody_board)
  ∧ Board_is_valid_position 0 0 = true
  ∧ (∃ s',
    board_set 0 0 2 custody_board = Return () s'
    ∧ s' = set_board (board s') custody_board
    ∧ wf_board (board s')
    ∧ board_get 0 0 s' = Return 2 s'
    ∧ ∀ x' y', Board_is_valid_position x' y' = true → (x', y') ≠ (0, 0) →
        ∃ u, board_get x' y' custody_board = Return u custody_board ∧ board_get x' y' s' = Return u s').
Proof.
  assert (H1 : wf_board (board custody_board))
    by (wf_rows).
  assert (H2 : Board_is_valid_position 0 0 = true)
    by (reflexivity).
  split; [exact H1|].
  split; [exact H2|].
  exact (board_set_then_get custody_board 0 0 2 H1 H2).
Defined.

(** ** Loops over the cells of the board *)

Lemma bind_ext {S A B} (m : M S A) (f g : A → M S B) s :
  (∀ a s', f a s' = g a s') → (m ≫= f) s = (m ≫= g) s.
Proof. intros H. unfold mbind, M_bind. destruct (m s); [apply H|done]. Qed.

Lemma bind_cong_l {S A B} (m m' : M S A) (f : A → M S B) s :
  m s = m' s → (m ≫= f) s = (m' ≫= f) s.
Proof. intros H. unfold mbind, M_bind. by rewrite H. Qed.

Lemma for_in_app {S A B} (l1 l2 : list A) (body : A → B → M S B) acc s :
  for_in (l1 ++ l2) acc body s
  = (acc' ← for_in l1 acc body; for_in l2 acc' body) s.
Proof.
  revert acc s. induction l1 as [|a l1 IH]; intros acc s; simpl; [done|].
  rewrite bind_assoc. apply bind_ext. intros a' s'. apply IH.
Qed.

Lemma for_in_nested {S A1 A2 B} (l1 : list A1) (l2 : list A2)
    (body : A2 → A1 → B → M S B) acc s :
  for_in l1 acc (λ y acc, for_in l2 acc (λ x acc, body x y acc)) s
  = for_in (y ← l1; x ← l2; [(x, y)]) acc (λ '(x, y) acc, body x y acc) s.
Proof.
  revert acc s. induction l1 as [|y l1 IH]; intros acc s; [done|].
  cbn [for_in]. rewrite bind_cons, for_in_app.
  assert (Hrow : ∀ acc s,
    for_in l2 acc (λ x acc, body x y acc) s
    = for_in (x ← l2; [(x, y)]) acc (λ '(x, y) acc, body x y acc) s).
  { clear. induction l2 as [|x l2 IH2]; intros acc s; [done|].
    cbn [for_in]. rewrite bind_cons. cbn [app for_in].
    apply bind_ext. intros a' s'. apply IH2. }
  etrans; [|symmetry; apply bind_cong_l, symmetry, Hrow].
  apply bind_ext. intros a' s'. apply IH.
Qed.

Lemma for_in_Return_in {S A B} (l : list A) (body : A → B → M S B)
    (g : A → B → B) s :
  (∀ a acc, a ∈ l → body a acc s = Return (g a acc) s) →
  ∀ acc, for_in l acc body s = Return (foldl (λ acc a, g a acc) acc l) s.
Proof.
  induction l as [|a l IH]; intros Hb acc; simpl; [done|].
  rewrite (bind_Return _ _ _ _ _ (Hb a acc (list_elem_of_here _ _))).
  apply IH. intros a' acc' Hin. apply Hb. by apply list_elem_of_further.
Qed.

Lemma foldl_filter_snoc {A} (P : A → Prop) `{∀ a, Decision (P a)} (l acc : list A) :
  foldl (λ acc a, if decide (P a) then acc ++ [a] else acc) acc l = acc ++ filter P l.
Proof.
  revert acc. induction l as [|a l IH]; intros acc; simpl.
  - by rewrite app_nil_r.
  - rewrite IH, filter_cons. destruct (decide (P a)); [|done].
    by rewrite <- app_assoc.
Qed.

Lemma elem_of_all_cells x y :
  (x, y) ∈ all_cells ↔ Board_is_valid_position x y = true.
Proof.
  rewrite valid_position_iff. unfold all_cells. rewrite list_elem_of_bind.
  split.
  - intros (y' & (x' & Hin & Hx)%list_elem_of_bind & Hy).
    apply list_elem_of_singleton in Hin as [= -> ->].
    apply elem_of_seqZ in Hx, Hy. unfold SIZE in *. lia.
  - intros [Hx Hy]. exists y. split; [|apply elem_of_seqZ; unfold SIZE; lia].
    apply list_elem_of_bind. exists x.
    split; [by apply list_elem_of_singleton|apply elem_of_seqZ; unfold SIZE; lia].
Qed.

Lemma NoDup_all_cells : NoDup all_cells.
Proof. apply (bool_decide_unpack _). vm_compute. exact I. Qed.

(** ** Placement *)

Lemma can_place_piece_eq s x y player :
  wf_board (board s) →
  rules_phase1.can_place_piece x y player s =
    Return
      (if decide (phase s ≠ PLACEMENT) then
         (false, "No estás en la fase de posicionamiento")
       else if decide (current_player s ≠ player) then (false, "No es tu turno")
       else if decide (placement_remaining s ≤ 0) then
         (false, "Ya colocaste todas tus piezas este turno")
       else if decide (Board_is_valid_position x y = true) then
         if decide (holds (board s) x y EMPTY) then
           if decide ((x, y) = (REFUGE_X, REFUGE_Y)) then
             (false, "No se puede colocar en el refugio central")
           else (true, "OK")
         else (false, "La celda ya está ocupada")
       else (false, "Posición fuera del tablero")) s.
Proof.
  intros Hwf. unfold rules_phase1.can_place_piece. rewrite bind_gets.
  destruct (decide (phase s ≠ PLACEMENT)); [done|]. rewrite bind_gets.
  destruct (decide (current_player s ≠ player)); [done|]. rewrite bind_gets.
  destruct (decide (placement_remaining s ≤ 0)); [done|].
  destruct (decide (Board_is_valid_position x y = true)) as [Hv|Hv].
  - rewrite Hv. cbn [negb].
    destruct (board_get_valid s x y Hwf Hv) as (v & Hg & _).
    rewrite (bind_Return _ _ _ _ _ (board_is_empty_Return _ _ _ _ Hg)).
    destruct (decide (holds (board s) x y EMPTY)) as [[_ He]|Hne].
    + rewrite Hg in He. injection He as ->. rewrite bool_decide_true by done.
      cbn [negb].
      destruct (decide ((x, y) = (REFUGE_X, REFUGE_Y))) as [Hr|Hr].
      * apply refuge_iff in Hr. by rewrite Hr.
      * destruct (Board_is_refuge x y) eqn:Hr'; [|done].
        by apply refuge_iff in Hr'.
    + rewrite bool_decide_false; [done|].
      intros ->. apply Hne. done.
  - apply not_true_is_false in Hv. by rewrite Hv.
Qed.

(** X3.  [can_place_piece] never writes, and it accepts exactly when the
    phase is PLACEMENT, it is the turn of [player], some of the turn's
    placements remain, [(x, y)] is an empty cell of the board and it is not
    the refuge; the reason given with an acceptance is OK. *)
Theorem can_place_piece_decides (s : GameState) (x y player : Z) :
  wf_board (board s) →
  ∃ ok reason,
    rules_phase1.can_place_piece x y player s = Return (ok, reason) s
    ∧ (ok = true ↔
         phase s = PLACEMENT ∧ current_player s = player
         ∧ 0 < placement_remaining s
         ∧ holds (board s) x y EMPTY
         ∧ (x, y) ≠ (REFUGE_X, REFUGE_Y))
    ∧ (ok = true → reason = "OK").
Proof.
  intros Hwf. rewrite can_place_piece_eq by done.
  destruct (decide (phase s ≠ PLACEMENT)) as [Hph|Hph%dec_stable].
  { do 2 eexists. split; [done|]. split; [|done]. split; [done|]. tauto. }
  destruct (decide (current_player s ≠ player)) as [Hcp|Hcp%dec_stable].
  { do 2 eexists. split; [done|]. split; [|done]. split; [done|]. tauto. }
  destruct (decide (placement_remaining s ≤ 0)) as [Hrem|Hrem].
  { do 2 eexists. split; [done|]. split; [|done]. split; [done|].
    intros (_ & _ & ? & _). lia. }
  destruct (decide (Board_is_valid_position x y = true)) as [Hv|Hv].
  2:{ do 2 eexists. split; [done|]. split; [|done]. split; [done|].
      intros (_ & _ & _ & [? _] & _). done. }
  destruct (decide (holds (board s) x y EMPTY)) as [He|He].
  2:{ do 2 eexists. split; [done|]. split; [|done]. split; [done|]. tauto. }
  destruct (decide ((x, y) = (REFUGE_X, REFUGE_Y))) as [Hr|Hr].
  { do 2 eexists. split; [done|]. split; [|done]. split; [done|]. tauto. }
  do 2 eexists. split; [done|]. split; [|done]. split; [|done].
  intros _. split; [done|]. split; [done|]. split; [lia|]. split; [done|]. done.
Qed.

Lemma can_place_piece_decides_witness :
  wf_board (board early_placement)
  ∧ (∃ ok reason,
    rules_phase1.can_place_piece 3 3 2 early_placement = Return (ok, reason) early_placement
    ∧ (ok = true ↔
         phase early_placement = PLACEMENT ∧ current_player early_placement = 2
         ∧ 0 < placement_remaining early_placement
         ∧ holds (board early_placement) 3 3 EMPTY
         ∧ (3, 3) ≠ (REFUGE_X, REFUGE_Y))
    ∧ (ok = true → reason = "OK")).
Proof.
  assert (H1 : wf_board (board early_placement))
    by (wf_rows).
  split; [exact H1|].
  exact (can_place_piece_decides early_placement 3 3 2 H1).
Defined.

Lemma get_valid_placements_eq s :
  wf_board (board s) →
  rules_phase1.get_valid_placements s =
    Return (if decide (phase s = PLACEMENT) then
              filter (λ c, holds (board s) c.1 c.2 EMPTY ∧ c ≠ (REFUGE_X, REFUGE_Y))
                all_cells
            else []) s.
Proof.
  intros Hwf. unfold rules_phase1.get_valid_placements. rewrite bind_gets.
  destruct (decide (phase s ≠ PLACEMENT)) as [Hph|Hph%dec_stable].
  { by rewrite decide_False. }
  rewrite decide_True by done.
  rewrite (for_in_nested (seqZ 0 SIZE) (seqZ 0 SIZE)
             (λ x y (valid : list (Z * Z)),
                e ← board_is_empty x y;
                if (e : bool) && negb (Board_is_refuge x y)
                then mret (valid ++ [(x, y)]) else mret valid)).
  fold all_cells.
  rewrite (for_in_Return_in _ _
    (λ c acc, if decide (holds (board s) c.1 c.2 EMPTY ∧ c ≠ (REFUGE_X, REFUGE_Y))
              then acc ++ [c] else acc)).
  - by rewrite foldl_filter_snoc.
  - intros [x y] acc Hv%elem_of_all_cells.
    destruct (board_get_valid s x y Hwf Hv) as (v & Hg & _).
    rewrite (bind_Return _ _ _ _ _ (board_is_empty_Return _ _ _ _ Hg)).
    simpl.
    destruct (decide (holds (board s) x y EMPTY ∧ (x, y) ≠ (REFUGE_X, REFUGE_Y)))
      as [[[_ He] Hr]|Hn].
    + rewrite Hg in He. injection He as ->. rewrite bool_decide_true by done.
      destruct (Board_is_refuge x y) eqn:Hr'; [by apply refuge_iff in Hr'|done].
    + case_bool_decide as He; [|done]. subst v.
      destruct (Board_is_refuge x y) eqn:Hr'; [done|]. exfalso. apply Hn.
      split; [done|]. intros Hr%refuge_iff. congruence.
Qed.

(** X4.  [get_valid_placements] never writes.  In the PLACEMENT phase it
    returns the empty cells other than the refuge, row by row ([y] outer,
    [x] inner), each once and at most 24 of them; in any other phase the
    empty list.  It looks neither at the turn nor at the placements that
    remain. *)
Theorem get_valid_placements_lists_free_cells (s : GameState) :
  wf_board (board s) →
  ∃ valid,
    rules_phase1.get_valid_placements s = Return valid s
    ∧ valid = (if decide (phase s = PLACEMENT) then
                 filter (λ c, holds (board s) c.1 c.2 EMPTY ∧ c ≠ (REFUGE_X, REFUGE_Y))
                   all_cells
               else [])
    ∧ NoDup valid
    ∧ (length valid ≤ 24)%nat
    ∧ ∀ x y, (x, y) ∈ valid ↔
        phase s = PLACEMENT ∧ holds (board s) x y EMPTY ∧ (x, y) ≠ (REFUGE_X, REFUGE_Y).
Proof.
  intros Hwf. eexists. split; [by apply get_valid_placements_eq|].
  split; [done|].
  destruct (decide (phase s = PLACEMENT)) as [Hph|Hph].
  - split; [apply NoDup_filter, NoDup_all_cells|]. split.
    + assert (Hlt : (length (filter
          (λ c, holds (board s) c.1 c.2 EMPTY ∧ c ≠ (REFUGE_X, REFUGE_Y)) all_cells)
          < length all_cells)%nat).
      { apply (length_filter_lt _ _ (REFUGE_X, REFUGE_Y)).
        - by apply elem_of_all_cells.
        - intros [_ ?]. done. }
      change (length all_cells) with 25%nat in Hlt. lia.
    + intros x y. rewrite list_elem_of_filter. simpl. split.
      * intros [[? ?] _]. done.
      * intros (_ & He & Hr). split; [done|]. apply elem_of_all_cells, He.
  - split; [constructor|]. split; [simpl; lia|].
    intros x y. split; [by intros ?%elem_of_nil|]. intros [? _]. done.
Qed.

Lemma get_valid_placements_lists_free_cells_witness :
  wf_board (board early_placement)
  ∧ (∃ valid,
    rules_phase1.get_valid_placements early_placement = Return valid early_placement
    ∧ valid = (if decide (phase early_placement = PLACEMENT) then
                 filter (λ c, holds (board early_placement) c.1 c.2 EMPTY ∧ c ≠ (REFUGE_X, REFUGE_Y))
                   all_cells
               else [])
    ∧ NoDup valid
    ∧ (length valid ≤ 24)%nat
    ∧ ∀ x y, (x, y) ∈ valid ↔
        phase early_placement = PLACEMENT ∧ holds (board early_placement) x y EMPTY ∧ (x, y) ≠ (REFUGE_X, REFUGE_Y)).
Proof.
  assert (H1 : wf_board (board early_placement))
    by (wf_rows).
  split; [exact H1|].
  exact (get_valid_placements_lists_free_cells early_placement H1).
Defined.

(** X5.  While placements remain in the turn, the cells
    [get_valid_placements] lists are exactly those on which
    [can_place_piece] accepts a piece of the player to move. *)
Theorem valid_placements_are_the_accepted_ones (s : GameState) :
  wf_board (board s) →
  0 < placement_remaining s →
  ∃ valid,
    rules_phase1.get_valid_placements s = Return valid s
    ∧ ∀ x y, (x, y) ∈ valid ↔
        rules_phase1.can_place_piece x y (current_player s) s = Return (true, "OK") s.
Proof.
  intros Hwf Hrem. eexists. split; [by apply get_valid_placements_eq|].
  intros x y. rewrite can_place_piece_eq by done.
  destruct (decide (phase s = PLACEMENT)) as [Hph|Hph].
  - rewrite decide_False by (intros ?; done).
    rewrite decide_False by (intros ?; done).
    rewrite decide_False by lia.
    rewrite list_elem_of_filter. simpl. split.
    + intros [[He Hr] Hin]. rewrite decide_True by apply He.
      rewrite decide_True by done. by rewrite decide_False.
    + destruct (decide (Board_is_valid_position x y = true)) as [Hv|]; [|done].
      destruct (decide (holds (board s) x y EMPTY)); [|done].
      destruct (decide ((x, y) = (REFUGE_X, REFUGE_Y))); [done|].
      intros _. split; [done|]. by apply elem_of_all_cells.
  - rewrite decide_True by done. split; [by intros ?%elem_of_nil|done].
Qed.

Lemma valid_placements_are_the_accepted_ones_witness :
  wf_board (board early_placement)
  ∧ 0 < placement_remaining early_placement
  ∧ (∃ valid,
    rules_phase1.get_valid_placements early_placement = Return valid early_placement
    ∧ ∀ x y, (x, y) ∈ valid ↔
        rules_phase1.can_place_piece x y (current_player early_placement) early_placement = Return (true, "OK") early_placement).
Proof.
  assert (H1 : wf_board (board early_placement))
    by (wf_rows).
  assert (H2 : 0 < placement_remaining early_placement)
    by (by vm_compute).
  split; [exact H1|].
  split; [exact H2|].
  exact (valid_placements_are_the_accepted_ones early_placement H1 H2).
Defined.

(** ** Movement *)

Lemma orthogonal_step_iff from_x from_y to_x to_y :
  bool_decide (Z.abs (to_x - from_x) = 1) && bool_decide (Z.abs (to_y - from_y) = 0)
  || bool_decide (Z.abs (to_x - from_x) = 0) && bool_decide (Z.abs (to_y - from_y) = 1)
  = true
  ↔ Z.abs (to_x - from_x) + Z.abs (to_y - from_y) = 1.
Proof.
  rewrite orb_true_iff, !andb_true_iff, !bool_decide_eq_true. lia.
Qed.

Lemma can_move_piece_eq s from_x from_y to_x to_y player :
  wf_board (board s) →
  rules_phase2.can_move_piece from_x from_y to_x to_y player s =
    Return
      (if decide (phase s ≠ MOVEMENT) then (false, "No estás en la fase de movimiento")
       else if decide (current_player s ≠ player) then (false, "No es tu turno")
       else if decide (Board_is_valid_position from_x from_y = true) then
         if decide (Board_is_valid_position to_x to_y = true) then
           if decide (holds (board s) from_x from_y player) then
             if decide (holds (board s) to_x to_y EMPTY) then
               if decide (Z.abs (to_x - from_x) + Z.abs (to_y - from_y) = 1) then
                 match chain_capture_piece s with
                 | Some (chain_x, chain_y) =>
                     if decide ((from_x, from_y) = (chain_x, chain_y)) then (true, "OK")
                     else (false, "Debes continuar moviendo la pieza en ("
                                    +:+ pretty chain_x +:+ ", " +:+ pretty chain_y
                                    +:+ ")")
                 | None => (true, "OK")
                 end
               else (false, "Solo puedes mover 1 celda en dirección ortogonal")
             else (false, "El destino no está vacío")
           else (false, "No es tu pieza")
         else (false, "Posición destino inválida")
       else (false, "Posición origen inválida")) s.
Proof.
  intros Hwf. unfold rules_phase2.can_move_piece. rewrite bind_gets.
  destruct (decide (phase s ≠ MOVEMENT)); [done|]. rewrite bind_gets.
  destruct (decide (current_player s ≠ player)); [done|].
  destruct (decide (Board_is_valid_position from_x from_y = true)) as [Hvf|Hvf].
  2:{ apply not_true_is_false in Hvf. by rewrite Hvf. }
  destruct (decide (Board_is_valid_position to_x to_y = true)) as [Hvt|Hvt].
  2:{ apply not_true_is_false in Hvt. by rewrite Hvf, Hvt. }
  rewrite Hvf, Hvt. cbn [negb].
  destruct (board_get_valid s _ _ Hwf Hvf) as (p & Hgp & Hrp).
  destruct (board_get_valid s _ _ Hwf Hvt) as (e & Hge & _).
  rewrite (bind_Return _ _ _ _ _ Hrp).
  destruct (decide (holds (board s) from_x from_y player)) as [[_ Hp]|Hnp].
  2:{ rewrite decide_True; [done|]. intros ->. by apply Hnp. }
  rewrite Hgp in Hp. injection Hp as ->.
  rewrite decide_False by (intros ?; done).
  rewrite (bind_Return _ _ _ _ _ (board_is_empty_Return _ _ _ _ Hge)).
  destruct (decide (holds (board s) to_x to_y EMPTY)) as [[_ He]|Hne].
  2:{ rewrite bool_decide_false; [done|]. intros ->. by apply Hne. }
  rewrite Hge in He. injection He as ->. rewrite bool_decide_true by done.
  cbn [negb]. cbv zeta.
  destruct (decide (Z.abs (to_x - from_x) + Z.abs (to_y - from_y) = 1)) as [Ho|Ho].
  2:{ apply (not_iff_compat (orthogonal_step_iff _ _ _ _)), not_true_is_false in Ho.
      by rewrite Ho. }
  apply orthogonal_step_iff in Ho. rewrite Ho. cbn [negb]. rewrite bind_gets.
  destruct (chain_capture_piece s) as [[cx cy]|]; [|done].
  destruct (decide ((from_x, from_y) = (cx, cy))) as [[= -> ->]|Hne].
  - rewrite !bool_decide_false by (intros ?; done). done.
  - destruct (bool_decide (from_x ≠ cx) || bool_decide (from_y ≠ cy)) eqn:Hb; [done|].
    apply orb_false_iff in Hb as [H1%bool_decide_eq_false%dec_stable
                                   H2%bool_decide_eq_false%dec_stable].
    congruence.
Qed.

(** X6.  [can_move_piece] never writes, and it accepts exactly when the
    phase is MOVEMENT, it is the turn of [player], the origin is a cell of
    the board holding a piece of [player], the destination is an empty cell
    of the board one orthogonal step away, and the chain pointer, if set, is
    the origin; the reason given with an acceptance is OK.  Whether the game
    is over is not looked at. *)
Theorem can_move_piece_decides (s : GameState) (from_x from_y to_x to_y player : Z) :
  wf_board (board s) →
  ∃ ok reason,
    rules_phase2.can_move_piece from_x from_y to_x to_y player s = Return (ok, reason) s
    ∧ (ok = true ↔
         phase s = MOVEMENT ∧ current_player s = player
         ∧ holds (board s) from_x from_y player
         ∧ holds (board s) to_x to_y EMPTY
         ∧ Z.abs (to_x - from_x) + Z.abs (to_y - from_y) = 1
         ∧ ∀ c, chain_capture_piece s = Some c → c = (from_x, from_y))
    ∧ (ok = true → reason = "OK").
Proof.
  intros Hwf. rewrite can_move_piece_eq by done.
  destruct (decide (phase s ≠ MOVEMENT)) as [Hph|Hph%dec_stable].
  { do 2 eexists. split; [done|]. split; [|done]. split; [done|]. tauto. }
  destruct (decide (current_player s ≠ player)) as [Hcp|Hcp%dec_stable].
  { do 2 eexists. split; [done|]. split; [|done]. split; [done|]. tauto. }
  destruct (decide (Board_is_valid_position from_x from_y = true)) as [Hvf|Hvf].
  2:{ do 2 eexists. split; [done|]. split; [|done]. split; [done|].
      intros (_ & _ & [? _] & _). done. }
  destruct (decide (Board_is_valid_position to_x to_y = true)) as [Hvt|Hvt].
  2:{ do 2 eexists. split; [done|]. split; [|done]. split; [done|].
      intros (_ & _ & _ & [? _] & _). done. }
  destruct (decide (holds (board s) from_x from_y player)) as [Hp|Hp].
  2:{ do 2 eexists. split; [done|]. split; [|done]. split; [done|]. tauto. }
  destruct (decide (holds (board s) to_x to_y EMPTY)) as [He|He].
  2:{ do 2 eexists. split; [done|]. split; [|done]. split; [done|]. tauto. }
  destruct (decide (Z.abs (to_x - from_x) + Z.abs (to_y - from_y) = 1)) as [Ho|Ho].
  2:{ do 2 eexists. split; [done|]. split; [|done]. split; [done|]. tauto. }
  destruct (chain_capture_piece s) as [[cx cy]|] eqn:Hch.
  - destruct (decide ((from_x, from_y) = (cx, cy))) as [Heq|Hne].
    + do 2 eexists. split; [done|]. split; [|done]. split; [|done].
      intros _. do 5 (split; [done|]). intros c [= <-]. done.
    + do 2 eexists. split; [done|]. split; [|done]. split; [done|].
      intros (_ & _ & _ & _ & _ & Hc). destruct Hne. symmetry. by apply Hc.
  - do 2 eexists. split; [done|]. split; [|done]. split; [|done].
    intros _. do 5 (split; [done|]). intros c [=].
Qed.

Lemma can_move_piece_decides_witness :
  wf_board (board custody_board)
  ∧ (∃ ok reason,
    rules_phase2.can_move_piece 1 1 1 0 1 custody_board = Return (ok, reason) custody_board
    ∧ (ok = true ↔
         phase custody_board = MOVEMENT ∧ current_player custody_board = 1
         ∧ holds (board custody_board) 1 1 1
         ∧ holds (board custody_board) 1 0 EMPTY
         ∧ Z.abs (1 - 1) + Z.abs (0 - 1) = 1
         ∧ ∀ c, chain_capture_piece custody_board = Some c → c = (1, 1))
    ∧ (ok = true → reason = "OK")).
Proof.
  assert (H1 : wf_board (board custody_board))
    by (wf_rows).
  split; [exact H1|].
  exact (can_move_piece_decides custody_board 1 1 1 0 1 H1).
Defined.

(** The scan of the four neighbours shared by [get_valid_moves_for_piece]
    and [has_capture_chain]. *)
Lemma free_neighbours_loop s x y :
  wf_board (board s) →
  for_in [(0, 1); (0, -1); (1, 0); (-1, 0)] []
    (λ '(dx, dy) (moves : list (Z * Z)),
       let new_x := x + dx in
       let new_y := y + dy in
       if Board_is_valid_position new_x new_y then
         e ← board_is_empty new_x new_y;
         if (e : bool) then mret (moves ++ [(new_x, new_y)])
         else mret moves
       else mret moves) s
  = Return (free_neighbours (board s) x y) s.
Proof.
  intros Hwf.
  rewrite (for_in_Return _ _
    (λ d acc, if decide (holds (board s) (x + d.1) (y + d.2) EMPTY)
              then acc ++ [(x + d.1, y + d.2)] else acc)).
  - unfold free_neighbours. cbn [foldl]. f_equal.
    rewrite !filter_cons, filter_nil. cbn [fst snd].
    repeat case_decide; reflexivity.
  - intros [dx dy] acc. cbv beta iota zeta. simpl.
    destruct (Board_is_valid_position (x + dx) (y + dy)) eqn:Hn.
    + destruct (board_get_valid s _ _ Hwf Hn) as (v & Hgv & _).
      rewrite (bind_Return _ _ _ _ _ (board_is_empty_Return _ _ _ _ Hgv)).
      destruct (decide (holds (board s) (x + dx) (y + dy) EMPTY)) as [[_ He]|Hne].
      * rewrite Hgv in He. injection He as ->. by rewrite bool_decide_true.
      * rewrite bool_decide_false; [done|]. intros ->. by apply Hne.
    + rewrite decide_False; [done|]. intros [? _]. congruence.
Qed.

Lemma get_valid_moves_for_piece_eq s x y :
  wf_board (board s) → Board_is_valid_position x y = true →
  rules_phase2.get_valid_moves_for_piece x y s =
    Return (if decide (phase s = MOVEMENT ∧ ¬ holds (board s) x y EMPTY)
            then free_neighbours (board s) x y else []) s.
Proof.
  intros Hwf Hv. unfold rules_phase2.get_valid_moves_for_piece. rewrite bind_gets.
  destruct (decide (phase s ≠ MOVEMENT)) as [Hph|Hph%dec_stable].
  { rewrite decide_False; [done|]. intros [? _]. done. }
  destruct (board_get_valid s x y Hwf Hv) as (p & Hgp & Hrp).
  rewrite (bind_Return _ _ _ _ _ Hrp).
  destruct (decide (p = EMPTY)) as [->|Hp].
  { rewrite decide_False; [done|]. intros [_ Hn]. by apply Hn. }
  rewrite decide_True.
  2:{ split; [done|]. intros [_ He]. congruence. }
  by apply free_neighbours_loop.
Qed.

Lemma elem_of_free_neighbours b x y tx ty :
  (tx, ty) ∈ free_neighbours b x y ↔
    holds b tx ty EMPTY ∧ Z.abs (tx - x) + Z.abs (ty - y) = 1.
Proof.
  unfold free_neighbours. rewrite list_elem_of_fmap. split.
  - intros ([dx dy] & [= -> ->] & [He Hd]%list_elem_of_filter). simpl in *.
    split; [done|].
    repeat (apply elem_of_cons in Hd as [[= -> ->]|Hd]; [lia|]).
    by apply elem_of_nil in Hd.
  - intros [He Ho]. exists (tx - x, ty - y). simpl.
    split; [f_equal; lia|]. apply list_elem_of_filter. simpl.
    replace (x + (tx - x)) with tx by lia. replace (y + (ty - y)) with ty by lia.
    split; [done|].
    assert (Hd : (tx - x = 0 ∧ ty - y = 1) ∨ (tx - x = 0 ∧ ty - y = -1)
                 ∨ (tx - x = 1 ∧ ty - y = 0) ∨ (tx - x = -1 ∧ ty - y = 0)) by lia.
    destruct Hd as [[-> ->]|[[-> ->]|[[-> ->]|[-> ->]]]];
      repeat first [apply list_elem_of_here|apply list_elem_of_further].
Qed.

(** X7.  For a position of the board [get_valid_moves_for_piece] never
    writes and returns, in the MOVEMENT phase and when the cell is not
    empty, the empty cells one orthogonal step away, in the scan order +y,
    -y, +x, -x; otherwise the empty list.  It looks neither at the owner of
    the piece, nor at the turn, nor at the chain pointer. *)
Theorem get_valid_moves_for_piece_lists_free_neighbours (s : GameState) (x y : Z) :
  wf_board (board s) →
  Board_is_valid_position x y = true →
  ∃ moves,
    rules_phase2.get_valid_moves_for_piece x y s = Return moves s
    ∧ moves = (if decide (phase s = MOVEMENT ∧ ¬ holds (board s) x y EMPTY)
               then free_neighbours (board s) x y else [])
    ∧ moves `sublist_of` [(x, y + 1); (x, y - 1); (x + 1, y); (x - 1, y)]
    ∧ ∀ tx ty, (tx, ty) ∈ moves ↔
        phase s = MOVEMENT ∧ ¬ holds (board s) x y EMPTY
        ∧ holds (board s) tx ty EMPTY
        ∧ Z.abs (tx - x) + Z.abs (ty - y) = 1.
Proof.
  intros Hwf Hv. eexists. split; [by apply get_valid_moves_for_piece_eq|].
  split; [done|]. split.
  - destruct (decide _); [|apply sublist_nil_l].
    replace [(x, y + 1); (x, y - 1); (x + 1, y); (x - 1, y)]
      with ((λ d : Z * Z, (x + d.1, y + d.2)) <$> [(0, 1); (0, -1); (1, 0); (-1, 0)])
      by (simpl; repeat f_equal; lia).
    apply fmap_sublist, sublist_filter.
  - intros tx ty. destruct (decide _) as [[Hph Hp]|Hn].
    + rewrite elem_of_free_neighbours. tauto.
    + split; [by intros ?%elem_of_nil|]. intros (? & ? & _). tauto.
Qed.

Lemma get_valid_moves_for_piece_lists_free_neighbours_witness :
  wf_board (board custody_board)
  ∧ Board_is_valid_position 1 1 = true
  ∧ (∃ moves,
    rules_phase2.get_valid_moves_for_piece 1 1 custody_board = Return moves custody_board
    ∧ moves = (if decide (phase custody_board = MOVEMENT ∧ ¬ holds (board custody_board) 1 1 EMPTY)
               then free_neighbours (board custody_board) 1 1 else [])
    ∧ moves `sublist_of` [(1, 1 + 1); (1, 1 - 1); (1 + 1, 1); (1 - 1, 1)]
    ∧ ∀ tx ty, (tx, ty) ∈ moves ↔
        phase custody_board = MOVEMENT ∧ ¬ holds (board custody_board) 1 1 EMPTY
        ∧ holds (board custody_board) tx ty EMPTY
        ∧ Z.abs (tx - 1) + Z.abs (ty - 1) = 1).
Proof.
  assert (H1 : wf_board (board custody_board))
    by (wf_rows).
  assert (H2 : Board_is_valid_position 1 1 = true)
    by (reflexivity).
  split; [exact H1|].
  split; [exact H2|].
  exact (get_valid_moves_for_piece_lists_free_neighbours custody_board 1 1 H1 H2).
Defined.

Lemma dict_setitem_fresh {K V} `{EqDecision K} (d : list (K * V)) k v :
  k ∉ d.*1 → dict_setitem d k v = d ++ [(k, v)].
Proof.
  induction d as [|[k' v'] d IH]; intros Hk; simpl; [done|].
  apply not_elem_of_cons in Hk as [Hne Hk]. simpl in Hne.
  rewrite decide_False by done. by rewrite IH.
Qed.

Lemma foldl_dict_setitem {K V} `{EqDecision K} (f : K → option (K * V))
    (l : list K) (acc : list (K * V)) :
  (∀ k e, f k = Some e → e.1 = k) →
  NoDup l → (∀ k, k ∈ l → k ∉ acc.*1) →
  foldl (λ acc k, match f k with
                  | Some e => dict_setitem acc k e.2
                  | None => acc
                  end) acc l
  = acc ++ omap f l.
Proof.
  intros Hf. revert acc. induction l as [|k l IH]; intros acc Hnd Hacc; simpl.
  - by rewrite app_nil_r.
  - apply NoDup_cons in Hnd as [Hk Hnd].
    destruct (f k) as [[k' v]|] eqn:Hfk.
    + pose proof (Hf _ _ Hfk) as Hk'. simpl in Hk'. subst k'.
      rewrite dict_setitem_fresh by (apply Hacc; left).
      rewrite IH; [by rewrite <- app_assoc|done|].
      intros k' Hin. rewrite fmap_app. simpl. intros [Ha|Hb]%elem_of_app.
      * by apply (Hacc k'); [right|].
      * apply list_elem_of_singleton in Hb. by subst.
    + apply IH; [done|]. intros k' Hin. apply Hacc. by right.
Qed.

Lemma moves_entry_keys b player (l : list (Z * Z)) :
  (omap (moves_entry b player) l).*1
  = filter (λ c, is_Some (moves_entry b player c)) l.
Proof.
  induction l as [|c l IH]; [done|]. rewrite filter_cons.
  change (omap (moves_entry b player) (c :: l))
    with (match moves_entry b player c with
          | Some e => e :: omap (moves_entry b player) l
          | None => omap (moves_entry b player) l
          end).
  destruct (moves_entry b player c) as [[c' t]|] eqn:He.
  - rewrite decide_True by (by eexists). rewrite fmap_cons, IH. f_equal.
    unfold moves_entry in He. destruct (decide _); [|done].
    destruct (free_neighbours _ _ _); [done|]. by injection He as <- _.
  - rewrite decide_False by (by intros [? ?]). done.
Qed.

Lemma get_all_valid_moves_eq s player :
  wf_board (board s) →
  (∀ x y, chain_capture_piece s = Some (x, y) → Board_is_valid_position x y = true) →
  player ≠ EMPTY →
  rules_phase2.get_all_valid_moves player s =
    Return
      (if decide (phase s = MOVEMENT) then
         match chain_capture_piece s with
         | Some (x, y) =>
             if decide (holds (board s) x y EMPTY) then []
             else match free_neighbours (board s) x y with
                  | [] => []
                  | moves => [((x, y), moves)]
                  end
         | None => omap (moves_entry (board s) player) all_cells
         end
       else []) s.
Proof.
  intros Hwf Hchain Hpl. unfold rules_phase2.get_all_valid_moves. rewrite bind_gets.
  destruct (decide (phase s ≠ MOVEMENT)) as [Hph|Hph%dec_stable].
  { by rewrite decide_False. }
  rewrite decide_True by done. rewrite bind_gets.
  destruct (chain_capture_piece s) as [[cx cy]|] eqn:Hch.
  - rewrite (bind_Return _ _ _ _ _
      (get_valid_moves_for_piece_eq s cx cy Hwf (Hchain _ _ eq_refl))).
    destruct (decide (holds (board s) cx cy EMPTY)) as [He|He].
    + rewrite decide_False; [done|]. intros [_ ?]. done.
    + rewrite decide_True by done. by destruct (free_neighbours _ _ _).
  - rewrite (for_in_nested (seqZ 0 SIZE) (seqZ 0 SIZE)
      (λ x y (all_moves : list ((Z * Z) * list (Z * Z))),
         p ← board_get x y;
         if decide (p = player) then
           moves ← rules_phase2.get_valid_moves_for_piece x y;
           match moves with
           | [] => mret all_moves
           | _ => mret (dict_setitem all_moves (x, y) moves)
           end
         else mret all_moves)).
    fold all_cells.
    rewrite (for_in_Return_in _ _
      (λ c acc, match moves_entry (board s) player c with
                | Some e => dict_setitem acc c e.2
                | None => acc
                end)).
    + f_equal. rewrite foldl_dict_setitem; [done| |apply NoDup_all_cells|].
      * intros k e. unfold moves_entry. destruct (decide _); [|done].
        destruct (free_neighbours _ _ _); [done|]. by intros [= <-].
      * intros k _ ?%elem_of_nil. done.
    + intros [x y] acc Hv%elem_of_all_cells.
      destruct (board_get_valid s x y Hwf Hv) as (p & Hgp & Hrp).
      rewrite (bind_Return _ _ _ _ _ Hrp). unfold moves_entry. simpl.
      destruct (decide (holds (board s) x y player)) as [[_ Hh]|Hn].
      * rewrite Hgp in Hh. injection Hh as ->. rewrite decide_True by done.
        rewrite (bind_Return _ _ _ _ _ (get_valid_moves_for_piece_eq s x y Hwf Hv)).
        rewrite decide_True.
        2:{ split; [done|]. intros [_ He]. congruence. }
        by destruct (free_neighbours _ _ _).
      * rewrite decide_False; [done|]. intros ->. by apply Hn.
Qed.

(** X8.  For the player to move (the chain pointer, if set, being on one
    of its pieces) [get_all_valid_moves] never writes, lists every origin
    once, and lists a move from an origin to a target exactly when
    [can_move_piece] accepts it: a pending chain capture leaves the moves
    of the pinned piece only. *)
Theorem valid_moves_are_the_accepted_ones (s : GameState) :
  wf_board (board s) →
  chain_ok s →
  current_player s ≠ EMPTY →
  ∃ moves,
    rules_phase2.get_all_valid_moves (current_player s) s = Return moves s
    ∧ NoDup moves.*1
    ∧ ∀ from_x from_y to_x to_y,
        (∃ targets, ((from_x, from_y), targets) ∈ moves ∧ (to_x, to_y) ∈ targets) ↔
        rules_phase2.can_move_piece from_x from_y to_x to_y (current_player s) s
          = Return (true, "OK") s.
Proof.
  intros Hwf Hok Hpl.
  assert (Hchain : ∀ x y, chain_capture_piece s = Some (x, y) →
                          Board_is_valid_position x y = true).
  { intros x y Hc. by destruct (Hok _ _ Hc). }
  eexists. split; [by apply get_all_valid_moves_eq|].
  destruct (decide (phase s = MOVEMENT)) as [Hph|Hph].
  2:{ split; [constructor|]. intros fx fy tx ty.
      rewrite can_move_piece_eq by done. rewrite decide_True by done.
      split; [|done]. intros (? & ?%elem_of_nil & _). done. }
  destruct (chain_capture_piece s) as [[cx cy]|] eqn:Hch.
  - pose proof (Hok _ _ Hch) as Hc.
    assert (Hne : ¬ holds (board s) cx cy EMPTY).
    { intros [_ He]. destruct Hc as [_ Hc]. congruence. }
    rewrite decide_False by done. split.
    { destruct (free_neighbours _ _ _); [constructor|apply NoDup_singleton]. }
    intros fx fy tx ty. rewrite can_move_piece_eq by done.
    rewrite decide_False by (intros ?; done).
    rewrite decide_False by (intros ?; done). rewrite Hch. split.
    + intros (targets & Hin & Ht).
      assert (Hin' : (fx, fy) = (cx, cy) ∧ targets = free_neighbours (board s) cx cy).
      { destruct (free_neighbours _ _ _); [by apply elem_of_nil in Hin|].
        apply list_elem_of_singleton in Hin. by injection Hin as -> -> ->. }
      destruct Hin' as [[= -> ->] ->].
      apply elem_of_free_neighbours in Ht as [He Ho].
      rewrite decide_True by apply Hc. rewrite decide_True by apply He.
      rewrite !decide_True by done. done.
    + destruct (decide (Board_is_valid_position fx fy = true)); [|done].
      destruct (decide (Board_is_valid_position tx ty = true)); [|done].
      destruct (decide (holds (board s) fx fy (current_player s))); [|done].
      destruct (decide (holds (board s) tx ty EMPTY)) as [He|]; [|done].
      destruct (decide (Z.abs (tx - fx) + Z.abs (ty - fy) = 1)) as [Ho|]; [|done].
      destruct (decide ((fx, fy) = (cx, cy))) as [[= -> ->]|]; [|done].
      intros _. exists (free_neighbours (board s) cx cy).
      assert (Ht : (tx, ty) ∈ free_neighbours (board s) cx cy)
        by (by apply elem_of_free_neighbours).
      split; [|done].
      destruct (free_neighbours _ _ _); [by apply elem_of_nil in Ht|].
      by apply list_elem_of_singleton.
  - assert (Hentry : ∀ c targets,
      (c, targets) ∈ omap (moves_entry (board s) (current_player s)) all_cells ↔
      holds (board s) c.1 c.2 (current_player s)
      ∧ targets = free_neighbours (board s) c.1 c.2 ∧ targets ≠ []).
    { intros c targets. rewrite list_elem_of_omap. unfold moves_entry. split.
      - intros (c' & Hin & He). destruct (decide _) as [Hh|]; [|done].
        destruct (free_neighbours _ _ _) eqn:Hf; [done|].
        injection He as -> <-. by rewrite Hf.
      - intros (Hh & -> & Hne). exists c. split.
        + destruct c. apply elem_of_all_cells, Hh.
        + rewrite decide_True by done. by destruct (free_neighbours _ _ _). }
    split.
    { rewrite moves_entry_keys. apply NoDup_filter, NoDup_all_cells. }
    intros fx fy tx ty. rewrite can_move_piece_eq by done.
    rewrite decide_False by (intros ?; done).
    rewrite decide_False by (intros ?; done). rewrite Hch. split.
    + intros (targets & (Hh & -> & _)%Hentry & Ht). cbn [fst snd] in Hh, Ht.
      apply elem_of_free_neighbours in Ht as [He Ho].
      rewrite decide_True by apply Hh. rewrite decide_True by apply He.
      rewrite !decide_True by done. done.
    + destruct (decide (Board_is_valid_position fx fy = true)); [|done].
      destruct (decide (Board_is_valid_position tx ty = true)); [|done].
      destruct (decide (holds (board s) fx fy (current_player s))) as [Hh|]; [|done].
      destruct (decide (holds (board s) tx ty EMPTY)) as [He|]; [|done].
      destruct (decide (Z.abs (tx - fx) + Z.abs (ty - fy) = 1)) as [Ho|]; [|done].
      intros _. exists (free_neighbours (board s) fx fy).
      assert (Ht : (tx, ty) ∈ free_neighbours (board s) fx fy)
        by (by apply elem_of_free_neighbours).
      split; [|done]. apply Hentry. cbn [fst snd]. split; [done|]. split; [done|].
      intros Hnil. rewrite Hnil in Ht. by apply elem_of_nil in Ht.
Qed.

Lemma valid_moves_are_the_accepted_ones_witness :
  wf_board (board custody_board)
  ∧ chain_ok custody_board
  ∧ current_player custody_board ≠ EMPTY
  ∧ (∃ moves,
    rules_phase2.get_all_valid_moves (current_player custody_board) custody_board = Return moves custody_board
    ∧ NoDup moves.*1
    ∧ ∀ from_x from_y to_x to_y,
        (∃ targets, ((from_x, from_y), targets) ∈ moves ∧ (to_x, to_y) ∈ targets) ↔
        rules_phase2.can_move_piece from_x from_y to_x to_y (current_player custody_board) custody_board
          = Return (true, "OK") custody_board).
Proof.
  assert (H1 : wf_board (board custody_board))
    by (wf_rows).
  assert (H2 : chain_ok custody_board)
    by (by intros x y H).
  assert (H3 : current_player custody_board ≠ EMPTY)
    by (by vm_compute).
  split; [exact H1|].
  split; [exact H2|].
  split; [exact H3|].
  exact (valid_moves_are_the_accepted_ones custody_board H1 H2 H3).
Defined.

(** ** Victory *)

(** X9.  [check_victory] never writes.  It reports the game over exactly
    when the phase is MOVEMENT and player 1 or player 2 holds fewer than 2
    pieces or the player to move is in stalemate ([is_stalemate]); the
    winner is then player 1 or player 2.  Otherwise it reports no winner and
    an empty reason. *)
Theorem check_victory_decides (s : GameState) (p1 p2 : Z) :
  wf_board (board s) →
  chain_ok s →
  pieces_count s !! 1 = Some p1 →
  pieces_count s !! 2 = Some p2 →
  ∃ over w reason blocked,
    rules_victory.check_victory s = Return (over, w, reason) s
    ∧ rules_victory.is_stalemate (current_player s) s = Return blocked s
    ∧ (over = true ↔ phase s = MOVEMENT ∧ (p1 < 2 ∨ p2 < 2 ∨ blocked = true))
    ∧ (over = true → w = Some 1 ∨ w = Some 2)
    ∧ (over = false → w = None ∧ reason = EmptyString).
Proof.
  intros Hwf Hok H1 H2.
  assert (Hchain : ∀ x y, chain_capture_piece s = Some (x, y) →
                          Board_is_valid_position x y = true).
  { intros x y Hc. by destruct (Hok _ _ Hc). }
  destruct (get_all_valid_moves_Return s (current_player s) Hwf Hchain)
    as (moves & Hmoves).
  unfold rules_victory.check_victory, rules_victory.is_stalemate.
  rewrite !bind_gets.
  destruct (decide (phase s ≠ MOVEMENT)) as [Hph|Hph%dec_stable].
  { exists false, None, EmptyString, false. do 2 (split; [done|]).
    split; [|done]. split; [done|]. tauto. }
  rewrite (bind_Return _ _ _ _ _ Hmoves).
  rewrite (bind_Return _ _ _ _ _ (count_get_Return _ _ _ H1)).
  rewrite (bind_Return _ _ _ _ _ (count_get_Return _ _ _ H2)).
  destruct (decide (p1 < 2)).
  { do 4 eexists. do 2 (split; [done|]). split; [|split; [by right|done]].
    split; [|done]. intros _. split; [done|]. by left. }
  destruct (decide (p2 < 2)).
  { do 4 eexists. do 2 (split; [done|]). split; [|split; [by left|done]].
    split; [|done]. intros _. split; [done|]. right. by left. }
  rewrite bind_gets, (bind_Return _ _ _ _ _ Hmoves).
  destruct (decide (length moves = 0%nat)) as [Hlen|Hlen].
  - rewrite bool_decide_true by done.
    destruct (decide (p2 < p1)).
    { do 4 eexists. do 2 (split; [done|]). split; [|split; [by left|done]].
      split; [|done]. intros _. split; [done|]. right. by right. }
    destruct (decide (p1 < p2)).
    { do 4 eexists. do 2 (split; [done|]). split; [|split; [by right|done]].
      split; [|done]. intros _. split; [done|]. right. by right. }
    rewrite bind_gets. do 4 eexists. do 2 (split; [done|]).
    split; [|split; [|done]].
    + split; [|done]. intros _. split; [done|]. right. by right.
    + intros _. destruct (decide (current_player s = 1)); [by right|by left].
  - rewrite bool_decide_false by done.
    do 4 eexists. do 2 (split; [done|]). split; [|done].
    split; [done|]. intros (_ & [?|[?|?]]); [lia|lia|done].
Qed.

Lemma check_victory_decides_witness :
  wf_board (board walled_in_level)
  ∧ chain_ok walled_in_level
  ∧ pieces_count walled_in_level !! 1 = Some 5
  ∧ pieces_count walled_in_level !! 2 = Some 5
  ∧ (∃ over w reason blocked,
    rules_victory.check_victory walled_in_level = Return (over, w, reason) walled_in_level
    ∧ rules_victory.is_stalemate (current_player walled_in_level) walled_in_level = Return blocked walled_in_level
    ∧ (over = true ↔ phase walled_in_level = MOVEMENT ∧ (5 < 2 ∨ 5 < 2 ∨ blocked = true))
    ∧ (over = true → w = Some 1 ∨ w = Some 2)
    ∧ (over = false → w = None ∧ reason = EmptyString)).
Proof.
  assert (H1 : wf_board (board walled_in_level))
    by (wf_rows).
  assert (H2 : chain_ok walled_in_level)
    by (by intros x y H).
  assert (H3 : pieces_count walled_in_level !! 1 = Some 5)
    by (by vm_compute).
  assert (H4 : pieces_count walled_in_level !! 2 = Some 5)
    by (by vm_compute).
  split; [exact H1|].
  split; [exact H2|].
  split; [exact H3|].
  split; [exact H4|].
  exact (check_victory_decides walled_in_level 5 5 H1 H2 H3 H4).
Defined.

(** ** Captures *)

Lemma apply_captures_spec s captured opp n :
  wf_board (board s) →
  pieces_count s !! opp = Some n →
  Forall (λ c, holds (board s) c.1 c.2 opp) captured →
  NoDup captured →
  ∃ b',
    rules_capture.apply_captures captured s
      = Return () (set_pieces_count
                     (<[opp := n - Z.of_nat (length captured)]> (pieces_count s))
                     (set_board b' s))
    ∧ wf_board b'
    ∧ ∀ x y, Board_is_valid_position x y = true →
        Board_get b' x y =
          if decide ((x, y) ∈ captured) then Some EMPTY else Board_get (board s) x y.
Proof.
  unfold rules_capture.apply_captures.
  revert s n. induction captured as [|[cx cy] cs IH]; intros s n Hwf Hn Hc Hnd.
  - exists (board s). split; [|split; [done|]].
    + simpl. rewrite Z.sub_0_r, insert_id by done. by destruct s.
    + intros x y _. rewrite decide_False; [done|]. by intros ?%elem_of_nil.
  - apply Forall_cons in Hc as [[Hv Hg] Hc]. apply NoDup_cons in Hnd as [Hni Hnd].
    simpl in Hv, Hg. cbn [for_in].
    destruct (board_set_valid s cx cy EMPTY Hwf Hv) as (b1 & H1 & Hwf1 & Hg1).
    rewrite (bind_Return _ _ _ ()
      (set_pieces_count (<[opp := n - 1]> (pieces_count s)) (set_board b1 s))).
    2:{ rewrite (bind_Return _ _ _ _ _ (board_get_Return _ _ _ _ Hg)).
        rewrite (bind_Return _ _ _ _ _ H1).
        rewrite (bind_Return _ _ _ n (set_board b1 s))
          by (by apply count_get_Return).
        done. }
    edestruct (IH (set_pieces_count (<[opp := n - 1]> (pieces_count s))
                     (set_board b1 s)) (n - 1))
      as (b' & Hr & Hwf' & Hg'); simpl.
    + done.
    + by rewrite lookup_insert_eq.
    + apply Forall_forall. intros [x y] Hin.
      destruct (proj1 (Forall_forall _ _) Hc _ Hin) as [Hvc Hgc].
      split; [done|]. simpl in *.
      rewrite Hg1 by done. rewrite decide_False; [done|].
      intros [-> ->]. done.
    + done.
    + exists b'. split; [|split; [done|]].
      * rewrite Hr. simpl. rewrite insert_insert_eq.
        replace (n - 1 - Z.of_nat (length cs)) with (n - Z.of_nat (S (length cs)))
          by lia.
        done.
      * intros x y Hvxy. rewrite Hg' by done. simpl. rewrite Hg1 by done.
        destruct (decide ((x, y) ∈ cs)) as [Hin|Hin].
        { rewrite decide_True; [done|]. by right. }
        destruct (decide (x = cx ∧ y = cy)) as [[-> ->]|Hne].
        { rewrite decide_True; [done|]. by left. }
        rewrite decide_False; [done|].
        intros [[= -> ->]|?]%elem_of_cons; [by apply Hne|done].
Qed.

(** X10.  [apply_captures] on the captures [check_captures] finds empties
    the captured cells and no other, lowers the counter of the opponent by
    the number of captures and changes nothing else in the session. *)
Theorem captured_pieces_are_removed (s : GameState) (x y player n : Z) :
  wf_board (board s) →
  pieces_count s !! get_opponent player = Some n →
  ∃ captured s',
    rules_capture.check_captures x y player s = Return captured s
    ∧ rules_capture.apply_captures captured s = Return () s'
    ∧ s' = set_pieces_count (pieces_count s') (set_board (board s') s)
    ∧ pieces_count s'
        = <[get_opponent player := n - Z.of_nat (length captured)]> (pieces_count s)
    ∧ wf_board (board s')
    ∧ ∀ cx cy, Board_is_valid_position cx cy = true →
        Board_get (board s') cx cy =
          if decide ((cx, cy) ∈ captured) then Some EMPTY
          else Board_get (board s) cx cy.
Proof.
  intros Hwf Hn.
  destruct (check_captures_cells s x y player Hwf) as (captured & Hc & Hcells & Hnd).
  destruct (apply_captures_spec s captured _ n Hwf Hn Hcells Hnd)
    as (b' & Ha & Hwf' & Hg).
  exists captured. eexists. split; [done|]. split; [exact Ha|]. done.
Qed.

Lemma captured_pieces_are_removed_witness :
  wf_board (board custody_board)
  ∧ pieces_count custody_board !! get_opponent 1 = Some 2
  ∧ (∃ captured s',
    rules_capture.check_captures 1 1 1 custody_board = Return captured custody_board
    ∧ rules_capture.apply_captures captured custody_board = Return () s'
    ∧ s' = set_pieces_count (pieces_count s') (set_board (board s') custody_board)
    ∧ pieces_count s'
        = <[get_opponent 1 := 2 - Z.of_nat (length captured)]> (pieces_count custody_board)
    ∧ wf_board (board s')
    ∧ ∀ cx cy, Board_is_valid_position cx cy = true →
        Board_get (board s') cx cy =
          if decide ((cx, cy) ∈ captured) then Some EMPTY
          else Board_get (board custody_board) cx cy).
Proof.
  assert (H1 : wf_board (board custody_board))
    by (wf_rows).
  assert (H2 : pieces_count custody_board !! get_opponent 1 = Some 2)
    by (by vm_compute).
  split; [exact H1|].
  split; [exact H2|].
  exact (captured_pieces_are_removed custody_board 1 1 1 2 H1 H2).
Defined.

(** ** The chain look-ahead *)

Lemma custody_after_speculative_move b b2 x y mx my player d :
  holds b x y player → holds b mx my EMPTY →
  Z.abs (mx - x) + Z.abs (my - y) = 1 →
  (∀ x' y', Board_is_valid_position x' y' = true →
     Board_get b2 x' y' =
       if decide (x' = mx ∧ y' = my) then Some player
       else if decide (x' = x ∧ y' = y) then Some EMPTY
       else Board_get b x' y') →
  custody b2 mx my player d ↔ custody b mx my player d.
Proof.
  intros [Hv Hxy] [Hmv Hm] Hadj Hg. destruct d as [dx dy].
  pose proof (get_opponent_ne player) as Hopp.
  assert (Hopp0 : get_opponent player ≠ EMPTY)
    by (unfold get_opponent, EMPTY; case_decide; lia).
  unfold custody, holds. simpl.
  split; intros ([Hve He] & Hr & [Hvs Hs]); (split; [split; [done|]|split; [done|split; [done|]]]).
  - rewrite Hg in He by done.
    destruct (decide (mx + dx = mx ∧ my + dy = my)); [congruence|].
    destruct (decide (mx + dx = x ∧ my + dy = y)); [congruence|]. done.
  - rewrite Hg in Hs by done.
    destruct (decide (mx + 2 * dx = mx ∧ my + 2 * dy = my)) as [[? ?]|].
    { assert (dx = 0 ∧ dy = 0) as [-> ->] by lia.
      rewrite Hg in He by done. rewrite decide_True in He by lia. congruence. }
    destruct (decide (mx + 2 * dx = x ∧ my + 2 * dy = y)); [lia|]. done.
  - rewrite Hg by done.
    destruct (decide (mx + dx = mx ∧ my + dy = my)) as [[? ?]|].
    { replace (mx + dx) with mx in He by lia. replace (my + dy) with my in He by lia.
      congruence. }
    destruct (decide (mx + dx = x ∧ my + dy = y)) as [[? ?]|]; [|done].
    replace (mx + dx) with x in He by lia. replace (my + dy) with y in He by lia.
    congruence.
  - rewrite Hg by done.
    destruct (decide (mx + 2 * dx = mx ∧ my + 2 * dy = my)) as [[? ?]|].
    { assert (dx = 0 ∧ dy = 0) as [-> ->] by lia.
      replace (mx + 0) with mx in He by lia. replace (my + 0) with my in He by lia.
      congruence. }
    destruct (decide (mx + 2 * dx = x ∧ my + 2 * dy = y)); [lia|]. done.
Qed.

(** One speculative relocation of the piece on [(x, y)] to a free
    neighbour [(mx, my)]: the captures it finds are those of the custody
    rule on the board as it stands, and the four writes cancel out. *)
Lemma speculative_move_captures s x y player mx my :
  wf_board (board s) →
  holds (board s) x y player →
  holds (board s) mx my EMPTY →
  Z.abs (mx - x) + Z.abs (my - y) = 1 →
  (board_set x y EMPTY;;
   board_set mx my player;;
   captures ← rules_capture.check_captures mx my player;
   board_set mx my EMPTY;;
   board_set x y player;;
   mret captures) s
  = Return ((λ d, (mx + d.1, my + d.2)) <$>
              filter (custody (board s) mx my player) [(1, 0); (-1, 0); (0, 1); (0, -1)]) s.
Proof.
  intros Hwf Hxy Hm Hadj. pose proof Hxy as [Hv Hg]. pose proof Hm as [Hmv Hmg].
  destruct (board_set_valid s x y EMPTY Hwf Hv) as (b1 & H1 & Hwf1 & Hg1).
  rewrite (bind_Return _ _ _ _ _ H1).
  destruct (board_set_valid (set_board b1 s) mx my player Hwf1 Hmv)
    as (b2 & H2 & Hwf2 & Hg2).
  rewrite (bind_Return _ _ _ _ _ H2).
  rewrite (bind_Return _ _ _ _ _
    (check_captures_eq (set_board b2 (set_board b1 s)) mx my player Hwf2)).
  destruct (board_set_valid (set_board b2 (set_board b1 s)) mx my EMPTY Hwf2 Hmv)
    as (b3 & H3 & Hwf3 & Hg3).
  rewrite (bind_Return _ _ _ _ _ H3).
  destruct (board_set_valid (set_board b3 (set_board b2 (set_board b1 s)))
              x y player Hwf3 Hv) as (b4 & H4 & Hwf4 & Hg4).
  rewrite (bind_Return _ _ _ _ _ H4).
  simpl. f_equal.
  - f_equal. apply list_filter_iff. intros d.
    apply (custody_after_speculative_move _ _ x y); try done.
    intros x' y' Hv'. simpl in *. rewrite Hg2, Hg1 by done. done.
  - rewrite !set_board_set_board.
    rewrite <- (set_board_id s) at 2. f_equal.
    apply Board_ext; [done..|].
    intros x' y' Hv'. simpl in *.
    rewrite Hg4, Hg3, Hg2, Hg1 by done.
    assert ((mx, my) ≠ (x, y)) by (intros [= -> ->]; lia).
    repeat case_decide; destruct_and?; simplify_eq; done.
Qed.

Lemma for_return_first {S A} (l : list A) (body : A → M S (option bool))
    (P : A → Prop) `{∀ a, Decision (P a)} s :
  (∀ a, a ∈ l → body a s = Return (if decide (P a) then Some true else None) s) →
  for_return l body s = Return (if decide (Exists P l) then Some true else None) s.
Proof.
  induction l as [|a l IH]; intros Hb; cbn [for_return].
  - rewrite decide_False; [done|]. by intros ?%Exists_nil.
  - rewrite (bind_Return _ _ _ _ _ (Hb a (list_elem_of_here _ _))).
    destruct (decide (P a)) as [Ha|Ha].
    + rewrite decide_True; [done|]. by left.
    + rewrite IH by (intros a' Hin; apply Hb; by right).
      destruct (decide (Exists P l)) as [He|He].
      * rewrite decide_True; [done|]. by right.
      * rewrite decide_False; [done|]. by intros [?|?]%Exists_cons.
Qed.

Lemma has_capture_chain_eq s x y player :
  wf_board (board s) →
  holds (board s) x y player →
  rules_capture.has_capture_chain x y player s =
    Return (bool_decide (Exists
              (λ m, Exists (custody (board s) m.1 m.2 player)
                      [(1, 0); (-1, 0); (0, 1); (0, -1)])
              (free_neighbours (board s) x y))) s.
Proof.
  intros Hwf Hxy. unfold rules_capture.has_capture_chain. cbv zeta.
  rewrite (bind_Return _ _ _ _ _ (free_neighbours_loop s x y Hwf)).
  assert (Hloop :
    for_return (free_neighbours (board s) x y) (λ '(move_x, move_y),
      board_set x y EMPTY;;
      board_set move_x move_y player;;
      captures ← rules_capture.check_captures move_x move_y player;
      board_set move_x move_y EMPTY;;
      board_set x y player;;
      if decide (0 < Z.of_nat (length captures)) then mret (Some true)
      else mret None) s
    = Return (if decide (Exists
                (λ m, Exists (custody (board s) m.1 m.2 player)
                        [(1, 0); (-1, 0); (0, 1); (0, -1)])
                (free_neighbours (board s) x y))
              then Some true else None) s).
  { apply (for_return_first _ _
       (λ m, Exists (custody (board s) m.1 m.2 player)
               [(1, 0); (-1, 0); (0, 1); (0, -1)])).
    intros [mx my] [Hm Hadj]%elem_of_free_neighbours.
    pose proof (speculative_move_captures s x y player mx my Hwf Hxy Hm Hadj) as Hcaps.
    revert Hcaps. unfold mbind, M_bind.
    destruct (board_set x y EMPTY s) as [[] s1|]; [|done].
    destruct (board_set mx my player s1) as [[] s2|]; [|done].
    destruct (rules_capture.check_captures mx my player s2) as [caps' s3|]; [|done].
    destruct (board_set mx my EMPTY s3) as [[] s4|]; [|done].
    destruct (board_set x y player s4) as [[] s5|]; [|done].
    cbn [mret M_ret]. intros [= -> ->]. rewrite length_fmap. cbn [fst snd].
    destruct (decide (Exists (custody (board s) mx my player) _)) as [He|He].
    + rewrite decide_True; [done|].
      apply Exists_exists in He as (d & Hd & Hc).
      assert (Hin : d ∈ filter (custody (board s) mx my player)
                          [(1, 0); (-1, 0); (0, 1); (0, -1)])
        by (by apply list_elem_of_filter).
      destruct (filter _ _); [by apply elem_of_nil in Hin|simpl; lia].
    + rewrite decide_False; [done|]. intros Hlen. apply He.
      destruct (filter _ _) as [|d l] eqn:Hf; [simpl in Hlen; lia|].
      assert (Hin : d ∈ filter (custody (board s) mx my player)
                          [(1, 0); (-1, 0); (0, 1); (0, -1)])
        by (rewrite Hf; left).
      apply list_elem_of_filter in Hin as [Hc Hd].
      apply Exists_exists. by exists d. }
  rewrite (bind_Return _ _ _ _ _ Hloop).
  destruct (decide (Exists _ (free_neighbours _ _ _))) as [He|He];
    [by rewrite bool_decide_true|by rewrite bool_decide_false].
Qed.

(** X11.  For a piece of [player] on [(x, y)], [has_capture_chain] returns
    with the session unchanged, and returns true exactly when some empty
    cell one orthogonal step away is one from which the piece would hold an
    opponent piece in custody, in one of the four directions. *)
Theorem has_capture_chain_decides (s : GameState) (x y player : Z) :
  wf_board (board s) →
  holds (board s) x y player →
  ∃ result,
    rules_capture.has_capture_chain x y player s = Return result s
    ∧ (result = true ↔
         ∃ mx my d,
           holds (board s) mx my EMPTY
           ∧ Z.abs (mx - x) + Z.abs (my - y) = 1
           ∧ d ∈ [(1, 0); (-1, 0); (0, 1); (0, -1)]
           ∧ custody (board s) mx my player d).
Proof.
  intros Hwf Hxy. eexists. split; [by apply has_capture_chain_eq|].
  rewrite bool_decide_eq_true, Exists_exists. split.
  - intros ([mx my] & [Hm Hadj]%elem_of_free_neighbours & (d & Hd & Hc)%Exists_exists).
    by exists mx, my, d.
  - intros (mx & my & d & Hm & Hadj & Hd & Hc). exists (mx, my).
    split; [by apply elem_of_free_neighbours|]. apply Exists_exists. by exists d.
Qed.

Lemma has_capture_chain_decides_witness :
  wf_board (board custody_board)
  ∧ holds (board custody_board) 1 1 1
  ∧ (∃ result,
    rules_capture.has_capture_chain 1 1 1 custody_board = Return result custody_board
    ∧ (result = true ↔
         ∃ mx my d,
           holds (board custody_board) mx my EMPTY
           ∧ Z.abs (mx - 1) + Z.abs (my - 1) = 1
           ∧ d ∈ [(1, 0); (-1, 0); (0, 1); (0, -1)]
           ∧ custody (board custody_board) mx my 1 d)).
Proof.
  assert (H1 : wf_board (board custody_board))
    by (wf_rows).
  assert (H2 : holds (board custody_board) 1 1 1)
    by (by vm_compute).
  split; [exact H1|].
  split; [exact H2|].
  exact (has_capture_chain_decides custody_board 1 1 1 H1 H2).
Defined.

(** ** Counting pieces *)

Lemma length_filter_agree {A} (P Q : A → Prop) `{∀ a, Decision (P a)}
    `{∀ a, Decision (Q a)} (l : list A) :
  (∀ a, a ∈ l → (P a ↔ Q a)) → length (filter P l) = length (filter Q l).
Proof.
  induction l as [|a l IH]; intros Hl; [done|].
  rewrite !filter_cons.
  assert (Ha : P a ↔ Q a) by (apply Hl; left).
  assert (IH' : length (filter P l) = length (filter Q l))
    by (apply IH; intros a' Hin; apply Hl; by right).
  destruct (decide (P a)), (decide (Q a)); simpl; try tauto; lia.
Qed.

Lemma length_filter_update {A} `{EqDecision A} (P Q : A → Prop)
    `{∀ a, Decision (P a)} `{∀ a, Decision (Q a)} (l : list A) (a0 : A) :
  NoDup l → a0 ∈ l → (∀ a, a ∈ l → a ≠ a0 → (P a ↔ Q a)) →
  (length (filter Q l) + (if decide (P a0) then 1 else 0)
   = length (filter P l) + (if decide (Q a0) then 1 else 0))%nat.
Proof.
  induction l as [|a l IH]; intros Hnd Hin Hl; [by apply elem_of_nil in Hin|].
  apply NoDup_cons in Hnd as [Ha Hnd]. rewrite !filter_cons.
  destruct (decide (a = a0)) as [->|Hne].
  - assert (Heq : length (filter P l) = length (filter Q l)).
    { apply length_filter_agree. intros a' Hin'. apply Hl; [by right|].
      intros ->. done. }
    destruct (decide (P a0)), (decide (Q a0)); simpl; lia.
  - apply elem_of_cons in Hin as [->|Hin]; [done|].
    assert (IH' := IH Hnd Hin (λ a' Hin' Hne', Hl a' (list_elem_of_further _ _ _ Hin') Hne')).
    assert (Hpa : P a ↔ Q a) by (apply Hl; [left|done]).
    destruct (decide (P a)), (decide (Q a)); simpl; try tauto; lia.
Qed.

(** Writing one cell moves one unit between the counts of the old and of
    the new value. *)
Lemma pieces_on_set b b' x y v0 v p :
  holds b x y v0 →
  (∀ x' y', Board_is_valid_position x' y' = true →
     Board_get b' x' y' =
       if decide (x' = x ∧ y' = y) then Some v else Board_get b x' y') →
  pieces_on b' p
  = pieces_on b p - (if decide (v0 = p) then 1 else 0) + (if decide (v = p) then 1 else 0).
Proof.
  intros [Hv H0] Hg. unfold pieces_on.
  pose proof (length_filter_update
    (λ c, holds b c.1 c.2 p) (λ c, holds b' c.1 c.2 p) all_cells (x, y)
    NoDup_all_cells (proj2 (elem_of_all_cells x y) Hv)) as Hup.
  simpl in Hup.
  assert (Hb : holds b x y p ↔ v0 = p).
  { unfold holds. rewrite H0. split; [by intros [_ [= ?]]|by intros ->]. }
  assert (Hb' : holds b' x y p ↔ v = p).
  { unfold holds. rewrite Hg by done. rewrite decide_True by done.
    split; [by intros [_ [= ?]]|by intros ->]. }
  rewrite (decide_ext _ _ _ _ Hb), (decide_ext _ _ _ _ Hb') in Hup.
  assert (Hlen : (length (filter (λ c, holds b' c.1 c.2 p) all_cells)
     + (if decide (v0 = p) then 1 else 0)
     = length (filter (λ c, holds b c.1 c.2 p) all_cells)
       + (if decide (v = p) then 1 else 0))%nat).
  { apply Hup. intros [x' y'] Hin Hne. simpl. unfold holds.
    apply elem_of_all_cells in Hin. rewrite Hg by done.
    rewrite decide_False; [done|]. intros [-> ->]. done. }
  destruct (decide (v0 = p)), (decide (v = p)); lia.
Qed.

Lemma pieces_on_Board_new p : p ≠ EMPTY → pieces_on Board_new p = 0.
Proof.
  intros Hp. unfold EMPTY in Hp. unfold pieces_on.
  rewrite (length_filter_agree _ (λ _, False)).
  - assert (Hnil : ∀ l : list (Z * Z), filter (λ _, False) l = []).
    { intros l. induction l as [|c l IH]; [done|].
      rewrite filter_cons. destruct (decide False); [done|exact IH]. }
    by rewrite Hnil.
  - intros [x y] Hv%elem_of_all_cells. split; [|done]. intros [_ Hg].
    apply valid_position_iff in Hv.
    assert (Hx : x = 0 ∨ x = 1 ∨ x = 2 ∨ x = 3 ∨ x = 4) by lia.
    assert (Hy : y = 0 ∨ y = 1 ∨ y = 2 ∨ y = 3 ∨ y = 4) by lia.
    destruct Hx as [->|[->|[->|[->| ->]]]], Hy as [->|[->|[->|[->| ->]]]];
      vm_compute in Hg; congruence.
Qed.

Lemma holds_Board_new x y :
  Board_is_valid_position x y = true → holds Board_new x y EMPTY.
Proof.
  intros Hv. split; [done|]. apply valid_position_iff in Hv.
  assert (Hx : x = 0 ∨ x = 1 ∨ x = 2 ∨ x = 3 ∨ x = 4) by lia.
  assert (Hy : y = 0 ∨ y = 1 ∨ y = 2 ∨ y = 3 ∨ y = 4) by lia.
  destruct Hx as [->|[->|[->|[->| ->]]]], Hy as [->|[->|[->|[->| ->]]]];
    reflexivity.
Qed.

(** ** Placement on the session *)

(** What [place_piece] writes. *)
Lemma place_piece_post (s : GameState) (x y player n : Z) :
  wf_board (board s) →
  Board_is_valid_position x y = true →
  pieces_count s !! player = Some n →
  phase s = PLACEMENT →
  ∃ s',
    rules_phase1.place_piece x y player s
      = Return (bool_decide (24 ≤ total_pieces_placed s + 1)) s'
    ∧ wf_board (board s')
    ∧ (∀ x' y', Board_is_valid_position x' y' = true →
         Board_get (board s') x' y' =
           if decide (x' = x ∧ y' = y) then Some player else Board_get (board s) x' y')
    ∧ pieces_count s' = <[player := n + 1]> (pieces_count s)
    ∧ total_pieces_placed s' = total_pieces_placed s + 1
    ∧ (if decide (placement_remaining s = 1)
       then current_player s' = get_opponent (current_player s)
            ∧ placement_remaining s' = 2
       else current_player s' = current_player s
            ∧ placement_remaining s' = placement_remaining s - 1)
    ∧ (if decide (24 ≤ total_pieces_placed s + 1)
       then phase s' = MOVEMENT ∧ chain_capture_piece s' = None
       else phase s' = PLACEMENT ∧ chain_capture_piece s' = chain_capture_piece s)
    ∧ game_id s' = game_id s ∧ status s' = status s
    ∧ player1 s' = player1 s ∧ player2 s' = player2 s
    ∧ winner s' = winner s ∧ game_over s' = game_over s
    ∧ rematch_requests s' = rematch_requests s.
Proof.
  intros Hwf Hv Hn Hph. unfold rules_phase1.place_piece.
  destruct (board_set_valid s x y player Hwf Hv) as (b' & Hb & Hwf' & Hg).
  rewrite (bind_Return _ _ _ _ _ Hb).
  rewrite (bind_Return _ _ _ n (set_board b' s)) by (by apply count_get_Return).
  unfold count_set. rewrite !bind_modify, bind_gets. simpl.
  unfold switch_turn.
  destruct (decide (placement_remaining s - 1 = 0)) as [H0|H0];
    destruct (decide (placement_remaining s = 1)) as [H1|H1]; try lia.
  - rewrite bind_assoc, bind_modify, bind_assoc, bind_gets. simpl.
    rewrite Hph. simpl. rewrite bind_modify, bind_gets. simpl.
    destruct (decide (24 ≤ total_pieces_placed s + 1)).
    + rewrite bool_decide_true by done. eexists. split; [reflexivity|]. done.
    + rewrite bool_decide_false by done. eexists. split; [reflexivity|]. done.
  - rewrite bind_ret, bind_gets. simpl.
    destruct (decide (24 ≤ total_pieces_placed s + 1)).
    + rewrite bool_decide_true by done. eexists. split; [reflexivity|]. done.
    + rewrite bool_decide_false by done. eexists. split; [reflexivity|]. done.
Qed.

(** X12.  In the PLACEMENT phase [place_piece] on a position of the board
    writes the piece on that cell only and adds one to the counter of the
    player and to the pieces placed.  The turn passes, with two placements
    for the opponent, exactly when the last placement of the turn was used;
    otherwise one placement fewer remains.  The phase becomes MOVEMENT, with
    the chain pointer cleared, exactly when the 24th piece is placed, which
    is the value returned.  Id, seats, status, winner and rematch requests
    are untouched. *)
Theorem place_piece_effect (s : GameState) (x y player n : Z) :
  wf_board (board s) →
  Board_is_valid_position x y = true →
  pieces_count s !! player = Some n →
  phase s = PLACEMENT →
  ∃ s',
    rules_phase1.place_piece x y player s
      = Return (bool_decide (24 ≤ total_pieces_placed s + 1)) s'
    ∧ wf_board (board s')
    ∧ (∀ x' y', Board_is_valid_position x' y' = true →
         Board_get (board s') x' y' =
           if decide (x' = x ∧ y' = y) then Some player else Board_get (board s) x' y')
    ∧ pieces_count s' = <[player := n + 1]> (pieces_count s)
    ∧ total_pieces_placed s' = total_pieces_placed s + 1
    ∧ (if decide (placement_remaining s = 1)
       then current_player s' = get_opponent (current_player s)
            ∧ placement_remaining s' = 2
       else current_player s' = current_player s
            ∧ placement_remaining s' = placement_remaining s - 1)
    ∧ (if decide (24 ≤ total_pieces_placed s + 1)
       then phase s' = MOVEMENT ∧ chain_capture_piece s' = None
       else phase s' = PLACEMENT ∧ chain_capture_piece s' = chain_capture_piece s)
    ∧ game_id s' = game_id s ∧ status s' = status s
    ∧ player1 s' = player1 s ∧ player2 s' = player2 s
    ∧ winner s' = winner s ∧ game_over s' = game_over s
    ∧ rematch_requests s' = rematch_requests s.
Proof.
  intros Hwf Hv Hn Hph.
  exact (place_piece_post s x y player n Hwf Hv Hn Hph).
Qed.

Lemma place_piece_effect_witness :
  wf_board (board early_placement)
  ∧ Board_is_valid_position 3 3 = true
  ∧ pieces_count early_placement !! 2 = Some 1
  ∧ phase early_placement = PLACEMENT
  ∧ (∃ s',
    rules_phase1.place_piece 3 3 2 early_placement
      = Return (bool_decide (24 ≤ total_pieces_placed early_placement + 1)) s'
    ∧ wf_board (board s')
    ∧ (∀ x' y', Board_is_valid_position x' y' = true →
         Board_get (board s') x' y' =
           if decide (x' = 3 ∧ y' = 3) then Some 2 else Board_get (board early_placement) x' y')
    ∧ pieces_count s' = <[2 := 1 + 1]> (pieces_count early_placement)
    ∧ total_pieces_placed s' = total_pieces_placed early_placement + 1
    ∧ (if decide (placement_remaining early_placement = 1)
       then current_player s' = get_opponent (current_player early_placement)
            ∧ placement_remaining s' = 2
       else current_player s' = current_player early_placement
            ∧ placement_remaining s' = placement_remaining early_placement - 1)
    ∧ (if decide (24 ≤ total_pieces_placed early_placement + 1)
       then phase s' = MOVEMENT ∧ chain_capture_piece s' = None
       else phase s' = PLACEMENT ∧ chain_capture_piece s' = chain_capture_piece early_placement)
    ∧ game_id s' = game_id early_placement ∧ status s' = status early_placement
    ∧ player1 s' = player1 early_placement ∧ player2 s' = player2 early_placement
    ∧ winner s' = winner early_placement ∧ game_over s' = game_over early_placement
    ∧ rematch_requests s' = rematch_requests early_placement).
Proof.
  assert (H1 : wf_board (board early_placement))
    by (wf_rows).
  assert (H2 : Board_is_valid_position 3 3 = true)
    by (reflexivity).
  assert (H3 : pieces_count early_placement !! 2 = Some 1)
    by (by vm_compute).
  assert (H4 : phase early_placement = PLACEMENT)
    by (reflexivity).
  split; [exact H1|].
  split; [exact H2|].
  split; [exact H3|].
  split; [exact H4|].
  exact (place_piece_effect early_placement 3 3 2 1 H1 H2 H3 H4).
Defined.

Lemma check_victory_placement s :
  phase s ≠ MOVEMENT →
  rules_victory.check_victory s = Return (false, None, EmptyString) s.
Proof.
  intros Hph. unfold rules_victory.check_victory. rewrite bind_gets.
  by rewrite decide_True.
Qed.

Lemma bind_repo_save {B} (f : () → M (GameState * Service) B) s w :
  (repo_save ≫= f) (s, w)
  = f () (s, {| games := <[game_id s := s]> (games w); notifier := notifier w |}).
Proof. done. Qed.

Lemma bind_notify {B} n (f : () → M (GameState * Service) B) s w :
  (notify n ≫= f) (s, w)
  = f () (s, {| games := games w; notifier := notifier w ++ [n] |}).
Proof. done. Qed.

(** The repository after a request on session [gid] that saved the object
    [s']. *)
Lemma close_saved gid s' w w1 :
  is_Some (games w1 !! gid) →
  (∀ k, k ≠ gid → games w1 !! k = games w !! k) →
  games (close gid (s', w1)) = <[gid := s']> (games w).
Proof.
  intros [s0 Hs0] Hk. unfold close. simpl. apply map_eq. intros k.
  rewrite lookup_alter, lookup_insert.
  destruct (decide (gid = k)) as [->|Hne].
  - by rewrite Hs0.
  - by apply Hk.
Qed.

(** The service's answer to a legal placement. *)
Lemma place_piece_answer w gid t s n x y reason :
  service_inv w →
  games w !! gid = Some s →
  seat s t = Some n →
  rules_phase1.can_place_piece x y n s = Return (true, reason) s →
  ∃ changed s' w' rest,
    rules_phase1.place_piece x y n s = Return changed s'
    ∧ GameService.place_piece gid t x y w
        = Return {| response_state := GameService._serialize_state s' n;
                    response_result :=
                      MoveResult_new [] changed "Pieza colocada exitosamente" |} w'
    ∧ games w' = <[gid := s']> (games w)
    ∧ notifier w'
        = notifier w ++ notify_game_event gid (opponent_placed x y n) (Some t) :: rest.
Proof.
  intros Hw Hg Hseat Hc. destruct (Hw _ _ Hg) as [Hid Hs].
  pose proof (can_place_piece_true _ _ _ _ _ _ Hc) as (Hph & Hcp & Hrem & Hv).
  assert (Hk : is_Some (pieces_count s !! n))
    by (destruct (seat_player _ _ _ Hseat) as [-> | ->]; apply (inv_counts _ Hs)).
  destruct Hk as [c Hn].
  destruct (place_piece_post s x y n c (inv_board _ Hs) Hv Hn Hph)
    as (s' & Hr & _ & _ & _ & _ & _ & Hph' & Hid' & _).
  rewrite Hid in Hid'.
  unfold GameService.place_piece.
  rewrite (validate_seated _ _ _ _ _ _ Hg Hseat).
  rewrite (bind_Return _ _ _ _ _ (get_player_number_seated _ _ w _ Hseat)).
  rewrite (bind_Return _ _ _ _ _ (on_state_Return _ _ w _ _ Hc)).
  cbn [negb].
  rewrite (bind_Return _ _ _ _ _ (on_state_Return _ _ w _ _ Hr)).
  cbv zeta. rewrite bind_repo_save. unfold GameService._notify_opponent_action.
  rewrite bind_notify. cbn [games notifier]. rewrite Hid'.
  assert (Hclose : ∀ q, games (close gid
      (s', {| games := <[gid := s']> (games w); notifier := q |}))
      = <[gid := s']> (games w)).
  { intros q. apply (close_saved gid s' w); simpl.
    - by rewrite lookup_insert_eq.
    - intros k Hne. by rewrite lookup_insert_ne. }
  destruct (decide (24 ≤ total_pieces_placed s + 1)) as [Ht|Ht].
  - rewrite bool_decide_true in Hr |- * by done. simpl.
    eexists _, s', _, _. split; [exact Hr|]. split; [reflexivity|].
    split; [apply Hclose|]. simpl. by rewrite <- app_assoc.
  - rewrite bool_decide_false in Hr |- * by done. destruct Hph' as [Hph' _].
    cbn [negb].
    rewrite bind_assoc. unfold GameService._get_opponent_token.
    rewrite bind_assoc, bind_gets. cbn [fst].
    set (opp := if has_token (player1 s') t then token <$> player2 s'
                else if has_token (player2 s') t then token <$> player1 s'
                else None).
    assert (Hopp : ∀ B (k : option string → M (GameState * Service) B) sw,
      ((if has_token (player1 s') t then mret (token <$> player2 s')
        else if has_token (player2 s') t then mret (token <$> player1 s')
        else mret None) ≫= k) sw = k opp sw).
    { intros B k sw. unfold opp.
      destruct (has_token (player1 s') t); [done|].
      destruct (has_token (player2 s') t); done. }
    rewrite Hopp. rewrite bind_assoc, bind_gets. cbn [fst].
    assert (Hcv : ∀ q, on_state rules_victory.check_victory
                     (s', {| games := <[gid := s']> (games w); notifier := q |})
                   = Return (false, None, EmptyString)
                       (s', {| games := <[gid := s']> (games w); notifier := q |})).
    { intros q. apply on_state_Return, check_victory_placement. congruence. }
    destruct (truthy opp && bool_decide (current_player s' ≠ n)).
    + rewrite bind_assoc, bind_notify. cbn [games notifier].
      rewrite bind_assoc, (bind_Return _ _ _ _ _ (Hcv _)). simpl.
      eexists _, s', _, _. split; [exact Hr|]. split; [reflexivity|].
      split; [apply Hclose|]. simpl. by rewrite <- app_assoc.
    + rewrite bind_assoc, bind_ret.
      rewrite bind_assoc, (bind_Return _ _ _ _ _ (Hcv _)). simpl.
      eexists _, s', _, _. split; [exact Hr|]. split; [reflexivity|].
      split; [apply Hclose|]. simpl. done.
Qed.

(** ** Moves on the session *)

Lemma bind_get_opponent_token {B} t (k : option string → M (GameState * Service) B) s w :
  (GameService._get_opponent_token t ≫= k) (s, w) = k (opponent_token s t) (s, w).
Proof.
  unfold GameService._get_opponent_token, opponent_token.
  rewrite bind_assoc, bind_gets. cbn [fst].
  destruct (has_token (player1 s) t); [done|].
  destruct (has_token (player2 s) t); done.
Qed.

Lemma close_Return {A} gid (o : outcome (GameState * Service) A) a sw :
  o = Return a sw →
  match o with
  | Return a sw => Return a (close gid sw)
  | Raise e sw => Raise e (close gid sw)
  end = Return a (close gid sw).
Proof. by intros ->. Qed.

(** The service's answer to a legal move. *)
Lemma move_piece_answer w gid t s n from_x from_y to_x to_y reason :
  service_inv w →
  games w !! gid = Some s →
  seat s t = Some n →
  rules_phase2.can_move_piece from_x from_y to_x to_y n s = Return (true, reason) s →
  ∃ s1 captured s2 extra over win why w' rest,
    rules_phase2.move_piece from_x from_y to_x to_y s = Return () s1
    ∧ rules_capture.check_captures to_x to_y n s1 = Return captured s1
    ∧ (captured = [] ∧ s2 = s1 ∧ extra = false
       ∨ captured ≠ []
         ∧ rules_capture.apply_captures captured s1 = Return () s2
         ∧ rules_capture.has_capture_chain to_x to_y n s2 = Return extra s2)
    ∧ rules_victory.check_victory (after_move extra (to_x, to_y) s2)
        = Return (over, win, why) (after_move extra (to_x, to_y) s2)
    ∧ session_inv (after_move extra (to_x, to_y) s2)
    ∧ GameService.move_piece gid t from_x from_y to_x to_y w
        = Return
            {| response_state :=
                 GameService._serialize_state
                   (after_victory_check over win (after_move extra (to_x, to_y) s2)) n;
               response_result :=
                 let result :=
                   (if extra then set_extra_turn true else id)
                     (MoveResult_new captured false EmptyString) in
                 if over then set_result_over win why result else result |} w'
    ∧ games w'
        = <[gid := after_victory_check over win (after_move extra (to_x, to_y) s2)]>
            (games w)
    ∧ notifier w'
        = notifier w
          ++ notify_game_event gid
               (opponent_moved (from_x, from_y) (to_x, to_y) captured extra) (Some t)
             :: rest.
Proof.
  intros Hw Hg Hseat Hc. destruct (Hw _ _ Hg) as [Hid Hs].
  destruct (move_and_capture s from_x from_y to_x to_y n reason s Hs
              (seat_player _ _ _ Hseat) Hc)
    as (b1 & captured & b2 & counts2 & chain & Hm & Hcap & Ha & Hchain
        & Hwf1 & Hto1 & Hwf2 & Hto2 & Hk1 & Hk2).
  pose proof (can_move_piece_true _ _ _ _ _ _ _ _ Hc) as (Hph & Hcp & _).
  set (s1 := set_board b1 s) in *.
  set (s2' := set_pieces_count counts2 (set_board b2 s1)) in *.
  assert (Hfinal : ∀ s2 extra,
    (captured = [] ∧ s2 = s1 ∧ extra = false
     ∨ captured ≠ [] ∧ s2 = s2' ∧ extra = chain) →
    ∃ over win why,
      rules_victory.check_victory (after_move extra (to_x, to_y) s2)
        = Return (over, win, why) (after_move extra (to_x, to_y) s2)
      ∧ session_inv (after_move extra (to_x, to_y) s2)
      ∧ game_id (after_move extra (to_x, to_y) s2) = gid).
  { intros s2 extra Hcase.
    assert (Hs3 : session_inv (after_move extra (to_x, to_y) s2)).
    { unfold after_move.
      destruct Hcase as [(_ & -> & ->)|(_ & -> & ->)].
      - destruct (inv_counts _ Hs).
        by apply (session_inv_after_move s b1 (pieces_count s) None
                    (get_opponent (current_player s))).
      - destruct chain.
        + apply (session_inv_after_move s b2 counts2 (Some (to_x, to_y))
                   (current_player s)); try done.
          intros x y [= <- <-]. by rewrite Hcp.
        + by apply (session_inv_after_move s b2 counts2 None
                      (get_opponent (current_player s))). }
    destruct (check_victory_Return _ Hs3) as ([[over win] why] & Hv).
    exists over, win, why. split; [done|]. split; [done|].
    unfold after_move.
    destruct Hcase as [(_ & -> & ->)|(_ & -> & ->)]; [done|by destruct chain]. }
  assert (Htail : ∀ s3 over win why result,
    rules_victory.check_victory s3 = Return (over, win, why) s3 →
    game_id s3 = gid → result_game_over result = false →
    ∃ w' rest,
      ('(has_winner, winner, reason) ← on_state rules_victory.check_victory;
       result ←
         (if (has_winner : bool) then
            GameService.finish winner;;
            mret (set_result_over winner reason result)
          else mret result);
       repo_save;;
       GameService._notify_opponent_action gid t
         (opponent_moved (from_x, from_y) (to_x, to_y) captured (extra_turn result));;
       result ←
         (if result_game_over result then
            notify (notify_game_event gid (game_over_event winner reason) None);;
            mret result
          else if negb (extra_turn result) then
            '(has_winner, winner, reason) ← on_state rules_victory.check_victory;
            if (has_winner : bool) then
              GameService.finish winner;;
              repo_save;;
              notify (notify_game_event gid (game_over_event winner reason) None);;
              mret (set_result_over winner reason result)
            else
              opponent_token ← GameService._get_opponent_token t;
              notify (notify_specific_player gid opponent_token your_turn);;
              mret result
          else mret result);
       state ← gets fst;
       mret {| response_state := GameService._serialize_state state n;
               response_result := result |}) (s3, w)
      = Return
          {| response_state :=
               GameService._serialize_state (after_victory_check over win s3) n;
             response_result :=
               if over then set_result_over win why result else result |}
          (after_victory_check over win s3, w')
      ∧ is_Some (games w' !! gid)
      ∧ (∀ k, k ≠ gid → games w' !! k = games w !! k)
      ∧ notifier w'
          = notifier w
            ++ notify_game_event gid
                 (opponent_moved (from_x, from_y) (to_x, to_y) captured
                    (extra_turn result)) (Some t)
               :: rest).
  { intros s3 over win why result Hv Hid3 Hres.
    rewrite (bind_Return _ _ _ _ _ (on_state_Return _ _ w _ _ Hv)).
    unfold after_victory_check. destruct over.
    - simpl.
      eexists _, _. split; [reflexivity|]. simpl. rewrite Hid3.
      split; [by rewrite lookup_insert_eq|].
      split; [by intros k Hne; rewrite lookup_insert_ne|].
      by rewrite <- app_assoc.
    - rewrite bind_ret, bind_repo_save. unfold GameService._notify_opponent_action.
      rewrite bind_notify. rewrite Hres. cbn [games notifier]. rewrite Hid3.
      destruct (extra_turn result); cbn [negb].
      + rewrite bind_ret, bind_gets. cbn [fst].
        eexists _, _. split; [reflexivity|]. cbn [games notifier].
        split; [by rewrite lookup_insert_eq|].
        split; [by intros k Hne; rewrite lookup_insert_ne|]. done.
      + rewrite bind_assoc.
        rewrite (bind_Return _ _ _ _ _ (on_state_Return _ _ _ _ _ Hv)).
        rewrite !bind_assoc, bind_get_opponent_token, bind_assoc, bind_notify, bind_ret.
        rewrite bind_gets. cbn [fst].
        eexists _, _. split; [reflexivity|]. cbn [games notifier].
        split; [by rewrite lookup_insert_eq|].
        split; [by intros k Hne; rewrite lookup_insert_ne|].
        by rewrite <- app_assoc. }
  unfold GameService.move_piece.
  rewrite (validate_seated _ _ _ _ _ _ Hg Hseat).
  rewrite (bind_Return _ _ _ _ _ (get_player_number_seated _ _ w _ Hseat)).
  rewrite (bind_Return _ _ _ _ _ (on_state_Return _ _ w _ _ Hc)). cbn [negb].
  rewrite (bind_Return _ _ _ _ _ (on_state_Return _ _ w _ _ Hm)).
  rewrite (bind_Return _ _ _ _ _ (on_state_Return _ _ w _ _ Hcap)). cbv zeta.
  destruct (decide (0 < Z.of_nat (length captured))) as [Hlen|Hlen].
  - assert (Hne : captured ≠ []) by (intros ->; simpl in Hlen; lia).
    destruct (Hfinal s2' chain (or_intror (conj Hne (conj eq_refl eq_refl))))
      as (over & win & why & Hv & Hs3 & Hid3).
    rewrite bind_assoc.
    rewrite (bind_Return _ _ _ _ _ (on_state_Return _ _ w _ _ Ha)).
    rewrite bind_assoc.
    rewrite (bind_Return _ _ _ _ _ (on_state_Return _ _ w _ _ Hchain)).
    destruct chain.
    + rewrite bind_assoc, bind_on_state_modify, bind_ret.
      destruct (Htail _ over win why
                  (set_extra_turn true (MoveResult_new captured false EmptyString))
                  Hv Hid3 eq_refl) as (w' & rest & Hrun & Hsome & Hother & Hq).
      eexists s1, captured, s2', true, over, win, why, (close gid (_, w')), rest.
      split; [done|]. split; [done|]. split; [by right|]. split; [done|].
      split; [done|]. split; [exact (close_Return _ _ _ _ Hrun)|].
      split; [by apply close_saved|]. done.
    + rewrite bind_assoc, bind_on_state_modify, bind_assoc.
      pass_turn Hph. rewrite bind_ret.
      destruct (Htail _ over win why (MoveResult_new captured false EmptyString)
                  Hv Hid3 eq_refl) as (w' & rest & Hrun & Hsome & Hother & Hq).
      eexists s1, captured, s2', false, over, win, why, (close gid (_, w')), rest.
      split; [done|]. split; [done|]. split; [by right|]. split; [done|].
      split; [done|]. split; [exact (close_Return _ _ _ _ Hrun)|].
      split; [by apply close_saved|]. done.
  - assert (He : captured = []) by (destruct captured; [done|simpl in Hlen; lia]).
    destruct (Hfinal s1 false (or_introl (conj He (conj eq_refl eq_refl))))
      as (over & win & why & Hv & Hs3 & Hid3).
    rewrite bind_assoc, bind_on_state_modify, bind_assoc.
    pass_turn Hph. rewrite bind_ret.
    destruct (Htail _ over win why (MoveResult_new captured false EmptyString)
                Hv Hid3 eq_refl) as (w' & rest & Hrun & Hsome & Hother & Hq).
    eexists s1, captured, s1, false, over, win, why, (close gid (_, w')), rest.
    split; [done|]. split; [done|]. split; [by left|]. split; [done|].
    split; [done|]. split; [exact (close_Return _ _ _ _ Hrun)|].
    split; [by apply close_saved|]. done.
Qed.

(** ** What a placement or a move request leaves behind *)

Lemma can_place_piece_Return s x y player :
  wf_board (board s) →
  ∃ ok reason, rules_phase1.can_place_piece x y player s = Return (ok, reason) s.
Proof.
  intros Hwf. rewrite can_place_piece_eq by done.
  match goal with |- ∃ ok reason, Return ?e _ = _ => exists e.1, e.2; by destruct e end.
Qed.

Lemma can_move_piece_Return s from_x from_y to_x to_y player :
  wf_board (board s) →
  ∃ ok reason,
    rules_phase2.can_move_piece from_x from_y to_x to_y player s = Return (ok, reason) s.
Proof.
  intros Hwf. rewrite can_move_piece_eq by done.
  match goal with |- ∃ ok reason, Return ?e _ = _ => exists e.1, e.2; by destruct e end.
Qed.

Lemma with_game_missing {A} gid (body : M (GameState * Service) A) w :
  games w !! gid = None →
  with_game gid body w = Raise (HTTPException 404 "Partida no encontrada") w.
Proof. intros H. unfold with_game. by rewrite H. Qed.

Lemma validate_unseated {A} gid t (rest : M (GameState * Service) A) w s :
  games w !! gid = Some s → seat s t = None →
  GameService._get_and_validate_game gid t rest w
  = Raise (HTTPException 403 "Token inválido") w.
Proof.
  intros Hg [H1 H2]%seat_None. unfold GameService._get_and_validate_game.
  rewrite (with_game_found _ _ _ _ Hg), bind_gets. simpl. rewrite H1, H2. simpl.
  by rewrite close_unchanged.
Qed.

(** A placement request is either refused with an HTTP error that leaves
    the service as it was, or it was legal and is answered. *)
Lemma place_piece_final w gid t x y :
  service_inv w →
  (∃ c d, GameService.place_piece gid t x y w = Raise (HTTPException c d) w)
  ∨ ∃ s n reason changed s' w' rest,
      games w !! gid = Some s ∧ seat s t = Some n
      ∧ rules_phase1.can_place_piece x y n s = Return (true, reason) s
      ∧ rules_phase1.place_piece x y n s = Return changed s'
      ∧ GameService.place_piece gid t x y w
          = Return {| response_state := GameService._serialize_state s' n;
                      response_result :=
                        MoveResult_new [] changed "Pieza colocada exitosamente" |} w'
      ∧ games w' = <[gid := s']> (games w)
      ∧ notifier w'
          = notifier w ++ notify_game_event gid (opponent_placed x y n) (Some t) :: rest.
Proof.
  intros Hw.
  destruct (games w !! gid) as [s|] eqn:Hg.
  2:{ left. eexists _, _. by apply with_game_missing. }
  destruct (Hw _ _ Hg) as [Hid Hs].
  destruct (seat s t) as [n|] eqn:Hseat.
  2:{ left. eexists _, _. by apply (validate_unseated _ _ _ _ s). }
  destruct (can_place_piece_Return s x y n (inv_board _ Hs)) as ([] & reason & Hc).
  - right.
    destruct (place_piece_answer w gid t s n x y reason Hw Hg Hseat Hc)
      as (changed & s' & w' & rest & Hp & Hr & Hgames & Hq).
    by eexists s, n, reason, changed, s', w', rest.
  - left. exists 400, reason. unfold GameService.place_piece.
    rewrite (validate_seated _ _ _ _ _ _ Hg Hseat).
    rewrite (bind_Return _ _ _ _ _ (get_player_number_seated _ _ w _ Hseat)).
    rewrite (bind_Return _ _ _ _ _ (on_state_Return _ _ w _ _ Hc)).
    simpl. by rewrite close_unchanged.
Qed.

(** A move request is either refused with an HTTP error that leaves the
    service as it was, or it was legal and is answered. *)
Lemma move_piece_final w gid t from_x from_y to_x to_y :
  service_inv w →
  (∃ c d, GameService.move_piece gid t from_x from_y to_x to_y w
          = Raise (HTTPException c d) w)
  ∨ ∃ s n reason s1 captured s2 extra over win why w' rest,
      games w !! gid = Some s ∧ seat s t = Some n
      ∧ rules_phase2.can_move_piece from_x from_y to_x to_y n s = Return (true, reason) s
      ∧ rules_phase2.move_piece from_x from_y to_x to_y s = Return () s1
      ∧ rules_capture.check_captures to_x to_y n s1 = Return captured s1
      ∧ (captured = [] ∧ s2 = s1 ∧ extra = false
         ∨ captured ≠ []
           ∧ rules_capture.apply_captures captured s1 = Return () s2
           ∧ rules_capture.has_capture_chain to_x to_y n s2 = Return extra s2)
      ∧ rules_victory.check_victory (after_move extra (to_x, to_y) s2)
          = Return (over, win, why) (after_move extra (to_x, to_y) s2)
      ∧ GameService.move_piece gid t from_x from_y to_x to_y w
          = Return
              {| response_state :=
                   GameService._serialize_state
                     (after_victory_check over win (after_move extra (to_x, to_y) s2)) n;
                 response_result :=
                   let result :=
                     (if extra then set_extra_turn true else id)
                       (MoveResult_new captured false EmptyString) in
                   if over then set_result_over win why result else result |} w'
      ∧ games w'
          = <[gid := after_victory_check over win (after_move extra (to_x, to_y) s2)]>
              (games w)
      ∧ notifier w'
          = notifier w
            ++ notify_game_event gid
                 (opponent_moved (from_x, from_y) (to_x, to_y) captured extra) (Some t)
               :: rest.
Proof.
  intros Hw.
  destruct (games w !! gid) as [s|] eqn:Hg.
  2:{ left. eexists _, _. by apply with_game_missing. }
  destruct (Hw _ _ Hg) as [Hid Hs].
  destruct (seat s t) as [n|] eqn:Hseat.
  2:{ left. eexists _, _. by apply (validate_unseated _ _ _ _ s). }
  destruct (can_move_piece_Return s from_x from_y to_x to_y n (inv_board _ Hs))
    as ([] & reason & Hc).
  - right.
    destruct (move_piece_answer w gid t s n from_x from_y to_x to_y reason
                Hw Hg Hseat Hc)
      as (s1 & captured & s2 & extra & over & win & why & w' & rest
          & Hm & Hcap & Hcase & Hv & _ & Hr & Hgames & Hq).
    by eexists s, n, reason, s1, captured, s2, extra, over, win, why, w', rest.
  - left. exists 400, reason. unfold GameService.move_piece.
    rewrite (validate_seated _ _ _ _ _ _ Hg Hseat).
    rewrite (bind_Return _ _ _ _ _ (get_player_number_seated _ _ w _ Hseat)).
    rewrite (bind_Return _ _ _ _ _ (on_state_Return _ _ w _ _ Hc)).
    simpl. by rewrite close_unchanged.
Qed.

(** ** The books are kept *)

Lemma stored_sessions_insert (P : GameState → Prop) gid s' w w' :
  stored_sessions P w → P s' → games w' = <[gid := s']> (games w) →
  stored_sessions P w'.
Proof.
  intros Hw Hs' Hg k s. rewrite Hg, lookup_insert.
  case_decide; [by intros [= <-]|apply Hw].
Qed.

Lemma with_game_stored {A} (P : GameState → Prop) gid
    (body : M (GameState * Service) A) w :
  service_inv w →
  preserves (request_frame gid) body →
  (∀ s, games w !! gid = Some s → session_inv s → P s → P (final (body (s, w))).1) →
  stored_sessions P w → stored_sessions P (final (with_game gid body w)).
Proof.
  intros Hw Hf Hb HP k s' Hk. destruct (decide (k = gid)) as [->|Hne].
  - destruct (with_game_lookup _ _ _ _ Hw Hf Hk) as (s & Hg & -> & Hid).
    apply Hb; [done|by apply (Hw _ _ Hg)|by apply (HP _ _ Hg)].
  - rewrite with_game_lookup_ne in Hk by done. by apply (HP _ _ Hk).
Qed.

#[global] Hint Extern 2 (preserves (keeps ledger) (modify _)) =>
  apply preserves_modify; intros ? [? ? ? ? ?]; split; simpl; done : frame.

Ltac by_keeps P :=
  match goal with
  | |- P (final (?m ?sw)).1 =>
      let Hp := fresh "Hp" in
      assert (Hp : preserves (on_session (keeps P)) m)
        by (unfold_service; frame);
      apply (Hp sw)
  end.

Lemma ledger_new g t :
  ledger
    {| game_id := g; board := Board_new; phase := PLACEMENT; status := WAITING;
       current_player := 1;
       player1 := Some {| player_number := 1; token := t; connected := true |};
       player2 := None; pieces_count := {[ 1 := 0; 2 := 0 ]};
       placement_remaining := 2; chain_capture_piece := None; winner := None;
       game_over := false; total_pieces_placed := 0; rematch_requests := None |}.
Proof.
  split; simpl.
  - intros x y v [Hv Hg]. destruct (holds_Board_new x y Hv) as [_ Hg'].
    left. congruence.
  - by rewrite pieces_on_Board_new.
  - by rewrite pieces_on_Board_new.
  - intros _. split; [by apply holds_Board_new|].
    rewrite !pieces_on_Board_new by done. lia.
  - done.
Qed.

Lemma ledger_reset s c :
  ledger (set_rematch_requests (Some ∅)
    (set_chain_capture_piece None (set_game_over false (set_winner None
      (set_total_pieces_placed 0 (set_placement_remaining 2
        (set_pieces_count {[ 1 := 0; 2 := 0 ]} (set_current_player c
          (set_status PLAYING (set_phase PLACEMENT (set_board Board_new s))))))))))).
Proof.
  split; simpl.
  - intros x y v [Hv Hg]. destruct (holds_Board_new x y Hv) as [_ Hg'].
    left. congruence.
  - by rewrite pieces_on_Board_new.
  - by rewrite pieces_on_Board_new.
  - intros _. split; [by apply holds_Board_new|].
    rewrite !pieces_on_Board_new by done. lia.
  - done.
Qed.

Lemma place_piece_ledger s x y n reason changed s' :
  session_inv s → ledger s → n = 1 ∨ n = 2 →
  rules_phase1.can_place_piece x y n s = Return (true, reason) s →
  rules_phase1.place_piece x y n s = Return changed s' →
  ledger s'.
Proof.
  intros Hs Hl Hn Hc Hp.
  pose proof Hc as Hc'. rewrite can_place_piece_eq in Hc' by apply Hs.
  destruct (decide (phase s ≠ PLACEMENT)) as [|Hph%dec_stable]; [done|].
  destruct (decide (current_player s ≠ n)); [done|].
  destruct (decide (placement_remaining s ≤ 0)); [done|].
  destruct (decide (Board_is_valid_position x y = true)) as [Hv|]; [|done].
  destruct (decide (holds (board s) x y EMPTY)) as [He|]; [|done].
  destruct (decide ((x, y) = (REFUGE_X, REFUGE_Y))) as [|Hr]; [done|].
  clear Hc'.
  assert (Hk : pieces_count s !! n = Some (pieces_on (board s) n)).
  { destruct Hn as [-> | ->]; apply Hl. }
  destruct (place_piece_post s x y n _ (inv_board _ Hs) Hv Hk Hph)
    as (s0 & Hp0 & Hwf' & Hg & Hcounts & Htotal & _ & Hphase & _).
  rewrite Hp in Hp0. injection Hp0 as -> ->.
  destruct (ledger_placement _ Hl Hph) as (Href & Hsum & Hlt).
  assert (Hon : ∀ p, pieces_on (board s0) p
    = pieces_on (board s) p - (if decide (EMPTY = p) then 1 else 0)
      + (if decide (n = p) then 1 else 0)).
  { intros p. by apply (pieces_on_set _ _ x y). }
  split.
  - intros x' y' v [Hv' Hg']. rewrite Hg in Hg' by done.
    destruct (decide (x' = x ∧ y' = y)).
    + injection Hg' as <-. unfold PLAYER1, PLAYER2. lia.
    + by apply (ledger_cells _ Hl x' y').
  - rewrite Hcounts, Hon, lookup_insert. unfold EMPTY.
    destruct Hn as [-> | ->]; simpl.
    + f_equal. lia.
    + rewrite (ledger_player1 _ Hl). f_equal. lia.
  - rewrite Hcounts, Hon, lookup_insert. unfold EMPTY.
    destruct Hn as [-> | ->]; simpl.
    + rewrite (ledger_player2 _ Hl). f_equal. lia.
    + f_equal. lia.
  - intros Hph'. destruct (decide (24 ≤ total_pieces_placed s + 1)) as [|Hlt'].
    { destruct Hphase. congruence. }
    split; [|split].
    + destruct Href as [Hvr Hgr]. split; [done|]. rewrite Hg by done.
      rewrite decide_False; [done|]. intros [? ?]. apply Hr. congruence.
    + rewrite Htotal, !Hon, Hsum. unfold EMPTY.
      destruct Hn as [-> | ->]; simpl; lia.
    + lia.
  - intros Hph'. destruct (decide (24 ≤ total_pieces_placed s + 1)).
    + lia.
    + destruct Hphase. congruence.
Qed.

Lemma move_piece_books s from_x from_y to_x to_y n s1 :
  wf_board (board s) → n ≠ EMPTY →
  holds (board s) from_x from_y n → holds (board s) to_x to_y EMPTY →
  rules_phase2.move_piece from_x from_y to_x to_y s = Return () s1 →
  s1 = set_board (board s1) s
  ∧ wf_board (board s1)
  ∧ (∀ p, pieces_on (board s1) p = pieces_on (board s) p)
  ∧ (∀ x y v, holds (board s1) x y v →
       v = n ∨ v = EMPTY ∨ holds (board s) x y v).
Proof.
  intros Hwf Hn Hfrom Hto Hm.
  destruct (move_piece_Return s from_x from_y to_x to_y n Hwf Hfrom (proj1 Hto))
    as (b' & Hm' & Hwf' & Hg).
  rewrite Hm in Hm'. injection Hm' as ->. simpl.
  split; [done|]. split; [done|]. split.
  - intros p.
    destruct (Board_set_spec (board s) from_x from_y EMPTY Hwf (proj1 Hfrom))
      as (bm & _ & Hwfm & Hgm).
    assert (Hne : ¬ (to_x = from_x ∧ to_y = from_y)).
    { intros [-> ->]. destruct Hfrom as [_ H1], Hto as [_ H2]. congruence. }
    rewrite (pieces_on_set bm b' to_x to_y EMPTY n p).
    + rewrite (pieces_on_set (board s) bm from_x from_y n EMPTY p) by done.
      destruct (decide (EMPTY = p)), (decide (n = p)); lia.
    + split; [apply Hto|]. rewrite Hgm by apply Hto.
      rewrite decide_False by done. apply Hto.
    + intros x y Hv. rewrite Hg, Hgm by done.
      destruct (decide (x = to_x ∧ y = to_y)); [done|].
      destruct (decide (x = from_x ∧ y = from_y)); done.
  - intros x y v [Hv Hgv]. rewrite Hg in Hgv by done.
    destruct (decide (x = to_x ∧ y = to_y)); [left; congruence|].
    destruct (decide (x = from_x ∧ y = from_y)); [right; left; congruence|].
    right. right. done.
Qed.

(** Emptying distinct cells that hold [opp] takes them off its count. *)
Lemma pieces_on_clear b b' (cs : list (Z * Z)) opp p :
  wf_board b → opp ≠ EMPTY → p ≠ EMPTY →
  NoDup cs → Forall (λ c, holds b c.1 c.2 opp) cs →
  (∀ x y, Board_is_valid_position x y = true →
     Board_get b' x y = if decide ((x, y) ∈ cs) then Some EMPTY else Board_get b x y) →
  pieces_on b' p
  = pieces_on b p - (if decide (p = opp) then Z.of_nat (length cs) else 0).
Proof.
  intros Hwf Hopp Hp. revert b Hwf.
  induction cs as [|[cx cy] cs IH]; intros b Hwf Hnd Hcs Hg.
  - assert (Heq : pieces_on b' p = pieces_on b p).
    { unfold pieces_on. f_equal. apply length_filter_agree.
      intros [x y] Hv%elem_of_all_cells. unfold holds. simpl.
      rewrite Hg by done. rewrite decide_False; [done|]. by intros ?%elem_of_nil. }
    rewrite Heq. simpl. destruct (decide (p = opp)); lia.
  - apply NoDup_cons in Hnd as [Hni Hnd]. apply Forall_cons in Hcs as [Hc Hcs].
    simpl in Hc.
    destruct (Board_set_spec b cx cy EMPTY Hwf (proj1 Hc)) as (b1 & _ & Hwf1 & Hg1).
    rewrite (IH b1 Hwf1 Hnd).
    + rewrite (pieces_on_set b b1 cx cy opp EMPTY p Hc Hg1).
      rewrite (decide_False (P := EMPTY = p)) by done.
      replace (length ((cx, cy) :: cs)) with (S (length cs)) by done.
      destruct (decide (opp = p)), (decide (p = opp)); try congruence; lia.
    + apply Forall_forall. intros [x y] Hin.
      destruct (proj1 (Forall_forall _ _) Hcs _ Hin) as [Hv Hgc]. simpl in *.
      split; [done|]. rewrite Hg1 by done.
      rewrite decide_False; [done|]. intros [-> ->]. done.
    + intros x y Hv. rewrite Hg, Hg1 by done.
      destruct (decide ((x, y) ∈ cs)) as [Hin|Hin].
      * rewrite decide_True; [done|]. by right.
      * destruct (decide (x = cx ∧ y = cy)) as [[-> ->]|Hne].
        { rewrite decide_True; [done|]. by left. }
        rewrite decide_False; [done|].
        intros [[= -> ->]|?]%elem_of_cons; [by apply Hne|done].
Qed.

Lemma apply_captures_books s captured opp n s2 :
  wf_board (board s) → opp ≠ EMPTY →
  pieces_count s !! opp = Some n →
  Forall (λ c, holds (board s) c.1 c.2 opp) captured →
  NoDup captured →
  rules_capture.apply_captures captured s = Return () s2 →
  s2 = set_pieces_count (<[opp := n - Z.of_nat (length captured)]> (pieces_count s))
         (set_board (board s2) s)
  ∧ wf_board (board s2)
  ∧ (∀ p, p ≠ EMPTY →
       pieces_on (board s2) p
       = pieces_on (board s) p
         - (if decide (p = opp) then Z.of_nat (length captured) else 0))
  ∧ (∀ x y v, holds (board s2) x y v → v = EMPTY ∨ holds (board s) x y v).
Proof.
  intros Hwf Hopp Hn Hcs Hnd Ha.
  destruct (apply_captures_spec s captured opp n Hwf Hn Hcs Hnd) as (b' & Ha' & Hwf' & Hg).
  rewrite Ha in Ha'. injection Ha' as ->. simpl.
  split; [done|]. split; [done|]. split.
  - intros p Hp. by apply pieces_on_clear.
  - intros x y v [Hv Hgv]. rewrite Hg in Hgv by done.
    destruct (decide ((x, y) ∈ captured)); [left; congruence|by right].
Qed.

Lemma ledger_after_move s extra to over win :
  ledger s → ledger (after_victory_check over win (after_move extra to s)).
Proof.
  intros [? ? ? ? ?]. unfold after_victory_check, after_move.
  destruct over, extra; split; simpl; done.
Qed.

(** A legal move and the removal of what it captures keep the books. *)
Lemma move_ledger s from_x from_y to_x to_y n reason s1 captured s2 extra :
  session_inv s → ledger s → n = 1 ∨ n = 2 →
  rules_phase2.can_move_piece from_x from_y to_x to_y n s = Return (true, reason) s →
  rules_phase2.move_piece from_x from_y to_x to_y s = Return () s1 →
  rules_capture.check_captures to_x to_y n s1 = Return captured s1 →
  (captured = [] ∧ s2 = s1 ∧ extra = false
   ∨ captured ≠ []
     ∧ rules_capture.apply_captures captured s1 = Return () s2
     ∧ rules_capture.has_capture_chain to_x to_y n s2 = Return extra s2) →
  ledger s2.
Proof.
  intros Hs Hl Hn Hc Hm Hcap Hcase.
  pose proof (can_move_piece_true _ _ _ _ _ _ _ _ Hc) as (Hph & Hcp & Hfrom & Hto & _).
  assert (Hn0 : n ≠ EMPTY) by (unfold EMPTY; lia).
  destruct (move_piece_books s _ _ _ _ n s1 (inv_board _ Hs) Hn0 Hfrom Hto Hm)
    as (Hs1 & Hwf1 & Hon1 & Hcells1).
  assert (Hl1 : ledger s1).
  { rewrite Hs1. split; simpl.
    - intros x y v Hh. destruct (Hcells1 x y v Hh) as [->|[->|Hh']].
      + unfold PLAYER1, PLAYER2. lia.
      + by left.
      + by apply (ledger_cells _ Hl x y).
    - rewrite Hon1. apply Hl.
    - rewrite Hon1. apply Hl.
    - intros ?. congruence.
    - apply Hl. }
  destruct Hcase as [(_ & -> & _)|(_ & Ha & _)]; [done|].
  destruct (check_captures_cells s1 to_x to_y n Hwf1) as (captured' & Hcap' & Hcells & Hnd).
  rewrite Hcap in Hcap'. injection Hcap' as <-.
  assert (Hopp : get_opponent n = 1 ∨ get_opponent n = 2)
    by (unfold get_opponent; case_decide; lia).
  assert (Hopp0 : get_opponent n ≠ EMPTY) by (unfold EMPTY; lia).
  assert (Hk : pieces_count s1 !! get_opponent n
               = Some (pieces_on (board s1) (get_opponent n))).
  { destruct Hopp as [-> | ->]; apply Hl1. }
  destruct (apply_captures_books s1 captured _ _ s2 Hwf1 Hopp0 Hk Hcells Hnd Ha)
    as (Hs2 & Hwf2 & Hon2 & Hcells2).
  assert (Hph1 : phase s1 = MOVEMENT) by (rewrite Hs1; done).
  rewrite Hs2. split; simpl.
  - intros x y v Hh. destruct (Hcells2 x y v Hh) as [->|Hh']; [by left|].
    by apply (ledger_cells _ Hl1 x y).
  - rewrite Hon2 by done. rewrite lookup_insert.
    destruct (decide (get_opponent n = 1)) as [He|He].
    + rewrite He, decide_True by done. done.
    + rewrite decide_False by done. rewrite (ledger_player1 _ Hl1). f_equal. lia.
  - rewrite Hon2 by done. rewrite lookup_insert.
    destruct (decide (get_opponent n = 2)) as [He|He].
    + rewrite He, decide_True by done. done.
    + rewrite decide_False by done. rewrite (ledger_player2 _ Hl1). f_equal. lia.
  - intros ?. congruence.
  - intros _. by apply (ledger_movement _ Hl1).
Qed.

(** *** Request by request *)

Lemma create_game_ledger g t w :
  stored_sessions ledger w →
  stored_sessions ledger (final (GameService.create_game g t w)).
Proof.
  intros Hw k s. unfold GameService.create_game. simpl.
  rewrite lookup_insert. case_decide.
  - intros [= <-]. apply ledger_new.
  - apply Hw.
Qed.

Lemma place_piece_request_ledger gid t x y w :
  service_inv w → stored_sessions ledger w →
  stored_sessions ledger (final (GameService.place_piece gid t x y w)).
Proof.
  intros Hw Hl.
  destruct (place_piece_final w gid t x y Hw)
    as [(c & d & ->)|(s & n & reason & changed & s' & w' & rest
                      & Hg & Hseat & Hc & Hp & Hr & Hgames & _)];
    [done|].
  rewrite Hr. simpl. apply (stored_sessions_insert _ gid s' w); [done| |done].
  apply (place_piece_ledger s x y n reason changed); try done.
  - by apply (Hw _ _ Hg).
  - by apply (Hl _ _ Hg).
  - by eapply seat_player.
Qed.

Lemma move_piece_request_ledger gid t from_x from_y to_x to_y w :
  service_inv w → stored_sessions ledger w →
  stored_sessions ledger (final (GameService.move_piece gid t from_x from_y to_x to_y w)).
Proof.
  intros Hw Hl.
  destruct (move_piece_final w gid t from_x from_y to_x to_y Hw)
    as [(c & d & ->)|(s & n & reason & s1 & captured & s2 & extra & over & win & why
                      & w' & rest
                      & Hg & Hseat & Hc & Hm & Hcap & Hcase & Hv & Hr & Hgames & _)];
    [done|].
  rewrite Hr. simpl. eapply stored_sessions_insert; [exact Hl| |exact Hgames].
  apply ledger_after_move.
  apply (move_ledger s from_x from_y to_x to_y n reason s1 captured s2 extra);
    try done.
  - by apply (Hw _ _ Hg).
  - by apply (Hl _ _ Hg).
  - by eapply seat_player.
Qed.

Lemma framed_request_ledger {A} gid (body : M (GameState * Service) A) w :
  service_inv w → stored_sessions ledger w →
  preserves (request_frame gid) body →
  preserves (on_session (keeps ledger)) body →
  stored_sessions ledger (final (with_game gid body w)).
Proof.
  intros Hw Hl Hf Hb. apply with_game_stored; [done..| |done].
  intros s Hg Hs HP. by apply (Hb (s, w)).
Qed.

Lemma rematch_game_ledger c gid t w :
  service_inv w → stored_sessions ledger w →
  stored_sessions ledger (final (GameService.rematch_game c gid t w)).
Proof.
  intros Hw Hl. unfold GameService.rematch_game.
  apply with_game_stored; [done|unfold_service; frame| |done].
  intros s Hg Hs Hls. rewrite bind_gets. simpl.
  destruct (game_over s); [|done]. cbn [negb].
  destruct (has_token (player1 s) t); [|destruct (has_token (player2 s) t); [|done]].
  all: rewrite bind_ret.
  all: destruct (rematch_requests s) as [r|] eqn:Hr;
    [rewrite bind_ret|rewrite bind_on_state_modify].
  all: rewrite bind_on_state_modify, bind_gets.
  all: destruct (decide (2 ≤ size _)%nat); [simpl; apply ledger_reset|].
  all: by_keeps ledger; destruct Hls; by split.
Qed.

Lemma step_ledger a w :
  service_inv w → stored_sessions ledger w → stored_sessions ledger (step a w).
Proof.
  intros Hw Hl. destruct a; simpl.
  - by apply create_game_ledger.
  - apply framed_request_ledger; [done..| |]; unfold_service; frame.
  - apply framed_request_ledger; [done..| |]; unfold_service; frame.
  - apply framed_request_ledger; [done..| |]; unfold_service; frame.
  - apply framed_request_ledger; [done..| |]; unfold_service; frame.
  - by apply place_piece_request_ledger.
  - by apply move_piece_request_ledger.
  - apply framed_request_ledger; [done..| |]; unfold_service; frame.
  - by apply rematch_game_ledger.
Qed.

Lemma run_ledger l : stored_sessions ledger (run l initial).
Proof.
  assert (H : ∀ w, service_inv w → stored_sessions ledger w →
                   stored_sessions ledger (run l w)).
  { induction l as [|a l IH]; intros w Hw Hl; [done|]. simpl.
    apply IH; [by apply step_inv|by apply step_ledger]. }
  apply H; [apply initial_inv|]. intros k s. unfold initial. simpl.
  by rewrite lookup_empty.
Qed.

(** X13.  In every session a service holds after any sequence of requests
    since it started, every cell is empty or holds a piece of player 1 or of
    player 2, and the piece counter of each player is the number of its
    pieces on the board. *)
Theorem piece_counters_match_board (l : list Action) (gid : string) (s : GameState) :
  games (run l initial) !! gid = Some s →
  pieces_count s !! 1 = Some (pieces_on (board s) 1)
  ∧ pieces_count s !! 2 = Some (pieces_on (board s) 2)
  ∧ ∀ x y v, holds (board s) x y v → v = EMPTY ∨ v = PLAYER1 ∨ v = PLAYER2.
Proof.
  intros Hg. destruct (run_ledger l _ _ Hg) as [Hc H1 H2 _ _]. done.
Qed.

Lemma piece_counters_match_board_witness :
  ∃ s,
    games (run chain_game initial) !! "G1" = Some s
    ∧ (pieces_count s !! 1 = Some (pieces_on (board s) 1)
    ∧ pieces_count s !! 2 = Some (pieces_on (board s) 2)
    ∧ ∀ x y v, holds (board s) x y v → v = EMPTY ∨ v = PLAYER1 ∨ v = PLAYER2).
Proof.
  destruct (games (run chain_game initial) !! "G1") as [s|] eqn:Hg;
    [|by vm_compute in Hg].
  exists s. split; [reflexivity|].
  exact (piece_counters_match_board chain_game "G1" s Hg).
Defined.

(** X14.  In every session a service holds after any sequence of requests
    since it started: in the PLACEMENT phase the refuge is empty and the
    pieces placed, fewer than 24, are the pieces on the board; in the
    MOVEMENT phase 24 pieces were placed. *)
Theorem placement_counter_counts_pieces (l : list Action) (gid : string) (s : GameState) :
  games (run l initial) !! gid = Some s →
  (phase s = PLACEMENT →
     holds (board s) REFUGE_X REFUGE_Y EMPTY
     ∧ total_pieces_placed s = pieces_on (board s) 1 + pieces_on (board s) 2
     ∧ total_pieces_placed s < 24)
  ∧ (phase s = MOVEMENT → total_pieces_placed s = 24).
Proof.
  intros Hg. destruct (run_ledger l _ _ Hg) as [_ _ _ Hp Hm]. done.
Qed.

Lemma placement_counter_counts_pieces_witness :
  ∃ s,
    games (run last_piece_to_place initial) !! "G1" = Some s
    ∧ ((phase s = PLACEMENT →
       holds (board s) REFUGE_X REFUGE_Y EMPTY
       ∧ total_pieces_placed s = pieces_on (board s) 1 + pieces_on (board s) 2
       ∧ total_pieces_placed s < 24)
    ∧ (phase s = MOVEMENT → total_pieces_placed s = 24)).
Proof.
  destruct (games (run last_piece_to_place initial) !! "G1") as [s|] eqn:Hg;
    [|by vm_compute in Hg].
  exists s. split; [reflexivity|].
  exact (placement_counter_counts_pieces last_piece_to_place "G1" s Hg).
Defined.

(** ** The board when movement starts *)

Lemma length_filter_partition {A} (P0 P1 P2 : A → Prop) `{∀ a, Decision (P0 a)}
    `{∀ a, Decision (P1 a)} `{∀ a, Decision (P2 a)} (l : list A) :
  (∀ a, a ∈ l → (P0 a ∧ ¬ P1 a ∧ ¬ P2 a) ∨ (¬ P0 a ∧ P1 a ∧ ¬ P2 a)
                ∨ (¬ P0 a ∧ ¬ P1 a ∧ P2 a)) →
  (length (filter P0 l) + length (filter P1 l) + length (filter P2 l) = length l)%nat.
Proof.
  induction l as [|a l IH]; intros Hl; [done|].
  rewrite !filter_cons.
  assert (IH' := IH (λ a' Hin, Hl a' (list_elem_of_further _ _ _ Hin))).
  pose proof (Hl a (list_elem_of_here _ _)) as Ha.
  destruct (decide (P0 a)), (decide (P1 a)), (decide (P2 a)); simpl; try tauto; lia.
Qed.

Lemma pieces_on_total b :
  wf_board b →
  (∀ x y v, holds b x y v → v = EMPTY ∨ v = PLAYER1 ∨ v = PLAYER2) →
  pieces_on b EMPTY + pieces_on b PLAYER1 + pieces_on b PLAYER2 = 25.
Proof.
  intros Hwf Hcells. unfold pieces_on.
  pose proof (length_filter_partition
    (λ c, holds b c.1 c.2 EMPTY) (λ c, holds b c.1 c.2 PLAYER1)
    (λ c, holds b c.1 c.2 PLAYER2) all_cells) as Hp.
  change (length all_cells) with 25%nat in Hp.
  rewrite <- !Nat2Z.inj_add, Hp; [done|].
  intros [x y] Hv%elem_of_all_cells. simpl.
  destruct (Board_get_is_Some b x y Hwf Hv) as [v Hg].
  assert (Hh : ∀ u, holds b x y u ↔ u = v).
  { intros u. unfold holds. rewrite Hg. split; [by intros [_ [= ?]]|by intros ->]. }
  rewrite !Hh. unfold EMPTY, PLAYER1, PLAYER2 in *.
  destruct (Hcells x y v (conj Hv Hg)) as [->|[->| ->]]; lia.
Qed.

Lemma length_filter_one {A} (P : A → Prop) `{∀ a, Decision (P a)} (l : list A) a b :
  length (filter P l) = 1%nat → a ∈ l → b ∈ l → P a → P b → a = b.
Proof.
  intros Hlen Ha Hb HPa HPb.
  assert (Ha' : a ∈ filter P l) by (by apply list_elem_of_filter).
  assert (Hb' : b ∈ filter P l) by (by apply list_elem_of_filter).
  destruct (filter P l) as [|z [|z' l']]; simpl in Hlen; try lia.
  apply list_elem_of_singleton in Ha', Hb'. congruence.
Qed.

Lemma place_piece_inv s x y n reason changed s' :
  session_inv s → n = 1 ∨ n = 2 →
  rules_phase1.can_place_piece x y n s = Return (true, reason) s →
  rules_phase1.place_piece x y n s = Return changed s' →
  holds (board s) x y EMPTY ∧ (x, y) ≠ (REFUGE_X, REFUGE_Y)
  ∧ phase s = PLACEMENT ∧ current_player s = n
  ∧ changed = bool_decide (24 ≤ total_pieces_placed s + 1)
  ∧ wf_board (board s')
  ∧ (∀ x' y', Board_is_valid_position x' y' = true →
       Board_get (board s') x' y' =
         if decide (x' = x ∧ y' = y) then Some n else Board_get (board s) x' y')
  ∧ total_pieces_placed s' = total_pieces_placed s + 1
  ∧ (if decide (placement_remaining s = 1)
     then current_player s' = get_opponent (current_player s)
          ∧ placement_remaining s' = 2
     else current_player s' = current_player s
          ∧ placement_remaining s' = placement_remaining s - 1)
  ∧ (if decide (24 ≤ total_pieces_placed s + 1)
     then phase s' = MOVEMENT ∧ chain_capture_piece s' = None
     else phase s' = PLACEMENT ∧ chain_capture_piece s' = chain_capture_piece s)
  ∧ game_id s' = game_id s ∧ status s' = status s
  ∧ player1 s' = player1 s ∧ player2 s' = player2 s
  ∧ winner s' = winner s ∧ game_over s' = game_over s
  ∧ rematch_requests s' = rematch_requests s.
Proof.
  intros Hs Hn Hc Hp.
  pose proof Hc as Hc'. rewrite can_place_piece_eq in Hc' by apply Hs.
  destruct (decide (phase s ≠ PLACEMENT)) as [|Hph%dec_stable]; [done|].
  destruct (decide (current_player s ≠ n)) as [|Hcp%dec_stable]; [done|].
  destruct (decide (placement_remaining s ≤ 0)); [done|].
  destruct (decide (Board_is_valid_position x y = true)) as [Hv|]; [|done].
  destruct (decide (holds (board s) x y EMPTY)) as [He|]; [|done].
  destruct (decide ((x, y) = (REFUGE_X, REFUGE_Y))) as [|Hr]; [done|].
  clear Hc'.
  assert (Hk : is_Some (pieces_count s !! n))
    by (destruct Hn as [-> | ->]; apply (inv_counts _ Hs)).
  destruct Hk as [c Hk].
  destruct (place_piece_post s x y n c (inv_board _ Hs) Hv Hk Hph)
    as (s0 & Hp0 & Hrest).
  rewrite Hp in Hp0. injection Hp0 as -> ->.
  destruct Hrest as (? & ? & _ & ? & ? & ? & ?). done.
Qed.

(** X15.  When a placement request answers that the phase changed, the
    session it stored is in the MOVEMENT phase with 24 pieces placed, the
    refuge is the only empty cell of its board, and the only moves
    [can_move_piece] accepts on it go to the refuge. *)
Theorem movement_starts_with_only_the_refuge_empty
    (l : list Action) (gid t : string) (x y : Z) (r : ActionResponse) (w' : Service) :
  GameService.place_piece gid t x y (run l initial) = Return r w' →
  phase_changed (response_result r) = true →
  ∃ s',
    games w' !! gid = Some s'
    ∧ phase s' = MOVEMENT
    ∧ total_pieces_placed s' = 24
    ∧ (∀ cx cy, Board_is_valid_position cx cy = true →
         (holds (board s') cx cy EMPTY ↔ (cx, cy) = (REFUGE_X, REFUGE_Y)))
    ∧ ∀ from_x from_y to_x to_y player reason,
        rules_phase2.can_move_piece from_x from_y to_x to_y player s'
          = Return (true, reason) s' →
        (to_x, to_y) = (REFUGE_X, REFUGE_Y).
Proof.
  set (w := run l initial). intros Hr Hchanged.
  assert (Hw : service_inv w) by apply run_inv, initial_inv.
  pose proof (run_ledger l) as Hl. fold w in Hl.
  destruct (place_piece_final w gid t x y Hw)
    as [(c & d & Hraise)|(s & n & reason & changed & s' & w0 & rest
                          & Hg & Hseat & Hc & Hp & Hr0 & Hgames & _)];
    [congruence|].
  rewrite Hr in Hr0. injection Hr0 as -> ->. simpl in Hchanged. subst changed.
  destruct (Hw _ _ Hg) as [_ Hs]. pose proof (Hl _ _ Hg) as Hls.
  pose proof (seat_player _ _ _ Hseat) as Hn.
  destruct (place_piece_inv s x y n reason true s' Hs Hn Hc Hp)
    as (He & Hnr & Hph & _ & Hch & Hwf' & Hg' & Htotal & _ & Hphase & _).
  symmetry in Hch. apply bool_decide_eq_true in Hch.
  rewrite decide_True in Hphase by done. destruct Hphase as [Hph' _].
  destruct (ledger_placement _ Hls Hph) as (Href & Hsum & Hlt).
  pose proof (place_piece_ledger s x y n reason true s' Hs Hls Hn Hc Hp) as Hls'.
  assert (Hon : ∀ p, pieces_on (board s') p
    = pieces_on (board s) p - (if decide (EMPTY = p) then 1 else 0)
      + (if decide (n = p) then 1 else 0)).
  { intros p. by apply (pieces_on_set _ _ x y). }
  assert (Hempty : pieces_on (board s') EMPTY = 1).
  { pose proof (pieces_on_total _ Hwf' (ledger_cells _ Hls')) as Hall.
    pose proof (Hon PLAYER1) as H1. pose proof (Hon PLAYER2) as H2.
    unfold EMPTY, PLAYER1, PLAYER2 in *.
    destruct Hn as [-> | ->]; simpl in H1, H2; lia. }
  assert (Href' : holds (board s') REFUGE_X REFUGE_Y EMPTY).
  { destruct Href as [Hvr Hgr]. split; [done|]. rewrite Hg' by done.
    rewrite decide_False; [done|]. intros [? ?]. apply Hnr. congruence. }
  assert (Honly : ∀ cx cy, holds (board s') cx cy EMPTY →
                           (cx, cy) = (REFUGE_X, REFUGE_Y)).
  { intros cx cy Hc0. unfold pieces_on in Hempty.
    apply (length_filter_one (λ c, holds (board s') c.1 c.2 EMPTY) all_cells);
      try done.
    - lia.
    - apply elem_of_all_cells, Hc0.
    - by apply elem_of_all_cells. }
  exists s'. split; [by rewrite Hgames, lookup_insert_eq|].
  split; [done|]. split; [lia|]. split.
  - intros cx cy Hv. split; [apply Honly|]. by intros [= -> ->].
  - intros fx fy tx ty player reason' Hm.
    apply can_move_piece_true in Hm as (_ & _ & _ & Hto & _). by apply Honly.
Qed.

Lemma movement_starts_with_only_the_refuge_empty_witness :
  ∃ r w',
    GameService.place_piece "G1" "token-b" 4 4 (run last_piece_to_place initial) = Return r w'
    ∧ phase_changed (response_result r) = true
    ∧ (∃ s',
      games w' !! "G1" = Some s'
      ∧ phase s' = MOVEMENT
      ∧ total_pieces_placed s' = 24
      ∧ (∀ cx cy, Board_is_valid_position cx cy = true →
           (holds (board s') cx cy EMPTY ↔ (cx, cy) = (REFUGE_X, REFUGE_Y)))
      ∧ ∀ from_x from_y to_x to_y player reason,
          rules_phase2.can_move_piece from_x from_y to_x to_y player s'
            = Return (true, reason) s' →
          (to_x, to_y) = (REFUGE_X, REFUGE_Y)).
Proof.
  destruct (GameService.place_piece "G1" "token-b" 4 4 (run last_piece_to_place initial))
    as [r w'|e w'] eqn:Hp; [|by vm_compute in Hp].
  pose proof Hp as Hs. vm_compute in Hs. injection Hs as Hr Hw.
  assert (H2 : phase_changed (response_result r) = true)
    by (rewrite <- Hr; reflexivity).
  exists r, w'. split; [reflexivity|]. split; [exact H2|].
  exact (movement_starts_with_only_the_refuge_empty last_piece_to_place "G1" "token-b" 4 4 r w' Hp H2).
Defined.

(** ** Finished games *)

Lemma check_victory_winner s over win why s' :
  rules_victory.check_victory s = Return (over, win, why) s' →
  if over then win = Some 1 ∨ win = Some 2 else win = None.
Proof.
  unfold rules_victory.check_victory. rewrite bind_gets.
  destruct (decide (phase s ≠ MOVEMENT)); [by intros [= <- <- <-]|].
  unfold mbind at 1, M_bind at 1.
  destruct (count_get 1 s) as [p1 s1|]; [|done].
  unfold mbind at 1, M_bind at 1.
  destruct (count_get 2 s1) as [p2 s2|]; [|done].
  destruct (decide (p1 < 2)); [intros [= <- <- <-]; by right|].
  destruct (decide (p2 < 2)); [intros [= <- <- <-]; by left|].
  rewrite bind_gets. unfold mbind at 1, M_bind at 1.
  destruct (rules_phase2.get_all_valid_moves _ s2) as [moves s3|]; [|done].
  destruct (decide (length moves = 0%nat)); [|by intros [= <- <- <-]].
  destruct (decide (p2 < p1)); [intros [= <- <- <-]; by left|].
  destruct (decide (p1 < p2)); [intros [= <- <- <-]; by right|].
  rewrite bind_gets. intros [= <- <- <-].
  destruct (decide (current_player s3 = 1)); [by right|by left].
Qed.

Lemma settled_new g t :
  settled
    {| game_id := g; board := Board_new; phase := PLACEMENT; status := WAITING;
       current_player := 1;
       player1 := Some {| player_number := 1; token := t; connected := true |};
       player2 := None; pieces_count := {[ 1 := 0; 2 := 0 ]};
       placement_remaining := 2; chain_capture_piece := None; winner := None;
       game_over := false; total_pieces_placed := 0; rematch_requests := None |}.
Proof. split; simpl; [done| |done]. split; [done|]. by intros [? ?]. Qed.

Lemma settled_finished s n :
  n = 1 ∨ n = 2 →
  settled (set_status FINISHED (set_game_over true (set_winner (Some n) s))).
Proof. intros Hn. split; simpl; [done| |by intros ? [= <-]]. split; [by eexists|done]. Qed.

Lemma settled_abandoned s n :
  n = 1 ∨ n = 2 →
  settled (set_winner (Some n) (set_game_over true (set_status FINISHED s))).
Proof. intros Hn. split; simpl; [done| |by intros ? [= <-]]. split; [by eexists|done]. Qed.

Lemma settled_same s s' :
  settled s → status s' = status s → game_over s' = game_over s →
  winner s' = winner s → settled s'.
Proof. intros [? ? ?] H1 H2 H3. split; rewrite ?H1, ?H2, ?H3; done. Qed.

Lemma create_game_settled g t w :
  stored_sessions settled w →
  stored_sessions settled (final (GameService.create_game g t w)).
Proof.
  intros Hw k s. unfold GameService.create_game. simpl.
  rewrite lookup_insert. case_decide.
  - intros [= <-]. apply settled_new.
  - apply Hw.
Qed.

Lemma join_game_settled t c gid e w :
  service_inv w → stored_sessions settled w →
  stored_sessions settled (final (GameService.join_game t c gid e w)).
Proof.
  intros Hw Hl. unfold GameService.join_game.
  apply with_game_stored; [done|unfold_service; frame| |done].
  intros s Hg Hs Hst. rewrite bind_gets. simpl.
  destruct (truthy e && has_token (player1 s) (default EmptyString e)); [done|].
  destruct (truthy e && has_token (player2 s) (default EmptyString e)); [done|].
  destruct (decide (status s ≠ WAITING)) as [|Hwait%dec_stable].
  { destruct (player2 s); [destruct (negb (truthy e))|]; done. }
  simpl. destruct Hst as [H1 H2 H3]. rewrite Hwait in H1.
  split; simpl; [|done..]. split; [|done]. intros Ho. by apply H1 in Ho.
Qed.

Lemma place_piece_settled gid t x y w :
  service_inv w → stored_sessions settled w →
  stored_sessions settled (final (GameService.place_piece gid t x y w)).
Proof.
  intros Hw Hl.
  destruct (place_piece_final w gid t x y Hw)
    as [(c & d & ->)|(s & n & reason & changed & s' & w' & rest
                      & Hg & Hseat & Hc & Hp & Hr & Hgames & _)];
    [done|].
  rewrite Hr. simpl. apply (stored_sessions_insert _ gid s' w); [done| |done].
  destruct (Hw _ _ Hg) as [_ Hs].
  destruct (place_piece_inv s x y n reason changed s' Hs (seat_player _ _ _ Hseat) Hc Hp)
    as (_ & _ & _ & _ & _ & _ & _ & _ & _ & _ & _ & Hst & _ & _ & Hwin & Hover & _).
  by apply (settled_same s); [apply (Hl _ _ Hg)|..].
Qed.

Lemma move_piece_settled gid t from_x from_y to_x to_y w :
  service_inv w → stored_sessions settled w →
  stored_sessions settled
    (final (GameService.move_piece gid t from_x from_y to_x to_y w)).
Proof.
  intros Hw Hl.
  destruct (move_piece_final w gid t from_x from_y to_x to_y Hw)
    as [(c & d & ->)|(s & n & reason & s1 & captured & s2 & extra & over & win & why
                      & w' & rest
                      & Hg & Hseat & Hc & Hm & Hcap & Hcase & Hv & Hr & Hgames & _)];
    [done|].
  rewrite Hr. simpl. eapply stored_sessions_insert; [exact Hl| |exact Hgames].
  apply check_victory_winner in Hv. unfold after_victory_check.
  destruct over.
  { destruct Hv as [-> | ->]; apply settled_finished; [by left|by right]. }
  destruct (Hw _ _ Hg) as [_ Hs].
  pose proof (can_move_piece_true _ _ _ _ _ _ _ _ Hc) as (_ & _ & Hfrom & Hto & _).
  pose proof (seat_player _ _ _ Hseat) as Hn.
  assert (Hn0 : n ≠ EMPTY) by (unfold EMPTY; lia).
  destruct (move_piece_books s _ _ _ _ n s1 (inv_board _ Hs) Hn0 Hfrom Hto Hm)
    as (Hs1 & Hwf1 & _).
  assert (Hsame : status s2 = status s ∧ game_over s2 = game_over s
                  ∧ winner s2 = winner s).
  { destruct Hcase as [(_ & -> & _)|(_ & Ha & _)]; [by rewrite Hs1|].
    destruct (check_captures_cells s1 to_x to_y n Hwf1)
      as (captured' & Hcap' & Hcells & Hnd).
    rewrite Hcap in Hcap'. injection Hcap' as <-.
    assert (Hk : is_Some (pieces_count s1 !! get_opponent n)).
    { rewrite Hs1. simpl. unfold get_opponent.
      destruct Hn as [-> | ->]; simpl; apply (inv_counts _ Hs). }
    destruct Hk as [k Hk].
    assert (Hopp0 : get_opponent n ≠ EMPTY)
      by (unfold get_opponent, EMPTY; case_decide; lia).
    destruct (apply_captures_books s1 captured _ k s2 Hwf1 Hopp0 Hk Hcells Hnd Ha)
      as (Hs2 & _).
    rewrite Hs2, Hs1. done. }
  destruct Hsame as (H1 & H2 & H3).
  apply (settled_same s); [apply (Hl _ _ Hg)|..]; unfold after_move;
    by destruct extra.
Qed.

Lemma leave_game_settled gid t w :
  service_inv w → stored_sessions settled w →
  stored_sessions settled (final (GameService.leave_game gid t w)).
Proof.
  intros Hw Hl. unfold GameService.leave_game.
  apply with_game_stored; [done|unfold_service; frame| |done].
  intros s Hg Hs Hst. rewrite bind_gets. simpl.
  destruct (has_token (player1 s) t).
  - rewrite bind_assoc, bind_on_state_modify, bind_ret.
    destruct (truthy (token <$> player2 s));
      [rewrite bind_notify|rewrite bind_ret];
      rewrite bind_gets; cbn [fst player1 player2 set_player1];
      (destruct (player2 s); simpl;
         [by apply settled_abandoned; right|by apply (settled_same s)]).
  - destruct (has_token (player2 s) t); [|done].
    rewrite bind_assoc, bind_on_state_modify, bind_ret.
    destruct (truthy (token <$> player1 s));
      [rewrite bind_notify|rewrite bind_ret];
      rewrite bind_gets; cbn [fst player1 player2 set_player2];
      (destruct (player1 s); simpl;
         [by apply settled_abandoned; left|by apply (settled_same s)]).
Qed.

Lemma rematch_game_settled c gid t w :
  service_inv w → stored_sessions settled w →
  stored_sessions settled (final (GameService.rematch_game c gid t w)).
Proof.
  intros Hw Hl. unfold GameService.rematch_game.
  apply with_game_stored; [done|unfold_service; frame| |done].
  intros s Hg Hs Hls. rewrite bind_gets. simpl.
  destruct (game_over s) eqn:Hover; [|done]. cbn [negb].
  destruct (has_token (player1 s) t); [|destruct (has_token (player2 s) t); [|done]].
  all: rewrite bind_ret.
  all: destruct (rematch_requests s) as [r|] eqn:Hr;
    [rewrite bind_ret|rewrite bind_on_state_modify].
  all: rewrite bind_on_state_modify, bind_gets.
  all: destruct (decide (2 ≤ size _)%nat);
    [simpl; split; simpl; [done| |done]; split; [done|by intros [? ?]]|].
  all: by_keeps settled; by apply (settled_same s).
Qed.

Lemma framed_request_settled {A} gid (body : M (GameState * Service) A) w :
  service_inv w → stored_sessions settled w →
  preserves (request_frame gid) body →
  preserves (on_session (keeps settled)) body →
  stored_sessions settled (final (with_game gid body w)).
Proof.
  intros Hw Hl Hf Hb. apply with_game_stored; [done..| |done].
  intros s Hg Hs HP. by apply (Hb (s, w)).
Qed.

Lemma step_settled a w :
  service_inv w → stored_sessions settled w → stored_sessions settled (step a w).
Proof.
  intros Hw Hl. destruct a; simpl.
  - by apply create_game_settled.
  - by apply join_game_settled.
  - apply framed_request_settled; [done..| |]; unfold_service; frame.
  - apply framed_request_settled; [done..| |]; unfold_service; frame.
  - apply framed_request_settled; [done..| |]; unfold_service; frame.
  - by apply place_piece_settled.
  - by apply move_piece_settled.
  - by apply leave_game_settled.
  - by apply rematch_game_settled.
Qed.

Lemma run_settled l : stored_sessions settled (run l initial).
Proof.
  assert (H : ∀ w, service_inv w → stored_sessions settled w →
                   stored_sessions settled (run l w)).
  { induction l as [|a l IH]; intros w Hw Hl; [done|]. simpl.
    apply IH; [by apply step_inv|by apply step_settled]. }
  apply H; [apply initial_inv|]. intros k s. unfold initial. simpl.
  by rewrite lookup_empty.
Qed.

(** X16.  In every session a service holds after any sequence of requests
    since it started, the game is over exactly when the status is FINISHED
    and exactly when there is a winner, and a winner is player 1 or
    player 2. *)
Theorem finished_games_have_a_winner (l : list Action) (gid : string) (s : GameState) :
  games (run l initial) !! gid = Some s →
  (game_over s = true ↔ status s = FINISHED)
  ∧ (game_over s = true ↔ ∃ n, winner s = Some n)
  ∧ ∀ n, winner s = Some n → n = 1 ∨ n = 2.
Proof.
  intros Hg. destruct (run_settled l _ _ Hg) as [H1 H2 H3]. done.
Qed.

Lemma finished_games_have_a_winner_witness :
  ∃ s,
    games (run short_game initial) !! "G1" = Some s
    ∧ ((game_over s = true ↔ status s = FINISHED)
    ∧ (game_over s = true ↔ ∃ n, winner s = Some n)
    ∧ ∀ n, winner s = Some n → n = 1 ∨ n = 2).
Proof.
  destruct (games (run short_game initial) !! "G1") as [s|] eqn:Hg;
    [|by vm_compute in Hg].
  exists s. split; [reflexivity|].
  exact (finished_games_have_a_winner short_game "G1" s Hg).
Defined.

(** ** Requests that only read *)

Lemma on_state_readonly {A} (m : M GameState A) :
  preserves eq m → preserves eq (on_state m).
Proof.
  intros Hm [s w]. unfold on_state. specialize (Hm s).
  destruct (m s); simpl in *; by subst.
Qed.

#[global] Hint Resolve on_state_readonly : readonly.

Lemma with_game_readonly {A} gid (body : M (GameState * Service) A) w :
  preserves eq body → final (with_game gid body w) = w.
Proof.
  intros Hb. rewrite with_game_final.
  destruct (games w !! gid) as [s|] eqn:Hg; [|done].
  rewrite <- (Hb (s, w)). by apply close_unchanged.
Qed.

(** X17.  [reconnect_game], [get_game_state] and [get_valid_actions] leave
    the service as it was, sessions and queued notifications, whether they
    answer or fail. *)
Theorem reads_change_nothing (w : Service) (game_id player_token : string) :
  step (ReconnectGame game_id player_token) w = w
  ∧ step (GetGameState game_id player_token) w = w
  ∧ step (GetValidActions game_id player_token) w = w.
Proof.
  repeat split; simpl; apply with_game_readonly; unfold_service; readonly.
Qed.

(** ** Unknown games and unknown tokens *)

(** X18.  Every request on a game id the repository does not hold is
    answered with HTTP 404 (partida no encontrada), whatever its other
    arguments, and leaves the service as it was. *)
Theorem unknown_game_is_not_found
    (w : Service) (game_id token fresh : string) (existing : option string)
    (choice x y from_x from_y to_x to_y : Z) :
  games w !! game_id = None →
  GameService.join_game fresh choice game_id existing w
    = Raise (HTTPException 404 "Partida no encontrada") w
  ∧ GameService.reconnect_game game_id token w
    = Raise (HTTPException 404 "Partida no encontrada") w
  ∧ GameService.get_game_state game_id token w
    = Raise (HTTPException 404 "Partida no encontrada") w
  ∧ GameService.get_valid_actions game_id token w
    = Raise (HTTPException 404 "Partida no encontrada") w
  ∧ GameService.place_piece game_id token x y w
    = Raise (HTTPException 404 "Partida no encontrada") w
  ∧ GameService.move_piece game_id token from_x from_y to_x to_y w
    = Raise (HTTPException 404 "Partida no encontrada") w
  ∧ GameService.leave_game game_id token w
    = Raise (HTTPException 404 "Partida no encontrada") w
  ∧ GameService.rematch_game choice game_id token w
    = Raise (HTTPException 404 "Partida no encontrada") w.
Proof.
  intros Hg. repeat split; by apply with_game_missing.
Qed.

Lemma unknown_game_is_not_found_witness :
  games initial !! "G1" = None
  ∧ (GameService.join_game "token-b" 1 "G1" None initial
    = Raise (HTTPException 404 "Partida no encontrada") initial
  ∧ GameService.reconnect_game "G1" "token-a" initial
    = Raise (HTTPException 404 "Partida no encontrada") initial
  ∧ GameService.get_game_state "G1" "token-a" initial
    = Raise (HTTPException 404 "Partida no encontrada") initial
  ∧ GameService.get_valid_actions "G1" "token-a" initial
    = Raise (HTTPException 404 "Partida no encontrada") initial
  ∧ GameService.place_piece "G1" "token-a" 0 0 initial
    = Raise (HTTPException 404 "Partida no encontrada") initial
  ∧ GameService.move_piece "G1" "token-a" 0 0 0 1 initial
    = Raise (HTTPException 404 "Partida no encontrada") initial
  ∧ GameService.leave_game "G1" "token-a" initial
    = Raise (HTTPException 404 "Partida no encontrada") initial
  ∧ GameService.rematch_game 1 "G1" "token-a" initial
    = Raise (HTTPException 404 "Partida no encontrada") initial).
Proof.
  assert (H1 : games initial !! "G1" = None)
    by (by vm_compute).
  split; [exact H1|].
  exact (unknown_game_is_not_found initial "G1" "token-a" "token-b" None 1 0 0 0 0 0 1 H1).
Defined.

(** X19.  A token that holds no seat of the session is refused with HTTP
    403 by [reconnect_game], [get_game_state], [get_valid_actions],
    [place_piece], [move_piece] and [leave_game], the service staying as it
    was.  [rematch_game] refuses it with 403 once the game is over; before
    that it answers 400 (the game is not over) without looking at the
    token. *)
Theorem strangers_are_refused
    (w : Service) (game_id token : string) (s : GameState)
    (choice x y from_x from_y to_x to_y : Z) :
  games w !! game_id = Some s →
  seat s token = None →
  GameService.reconnect_game game_id token w
    = Raise (HTTPException 403 "Token inválido para esta partida") w
  ∧ GameService.get_game_state game_id token w
    = Raise (HTTPException 403 "Token inválido") w
  ∧ GameService.get_valid_actions game_id token w
    = Raise (HTTPException 403 "Token inválido") w
  ∧ GameService.place_piece game_id token x y w
    = Raise (HTTPException 403 "Token inválido") w
  ∧ GameService.move_piece game_id token from_x from_y to_x to_y w
    = Raise (HTTPException 403 "Token inválido") w
  ∧ GameService.leave_game game_id token w
    = Raise (HTTPException 403 "Token inválido") w
  ∧ GameService.rematch_game choice game_id token w
    = (if game_over s then Raise (HTTPException 403 "Token inválido") w
       else Raise (HTTPException 400 "El juego aún no ha terminado") w).
Proof.
  intros Hg Hseat. pose proof (seat_None _ _ Hseat) as [H1 H2].
  split; [|split; [|split; [|split; [|split; [|split]]]]].
  - unfold GameService.reconnect_game.
    rewrite (with_game_found _ _ _ _ Hg), bind_gets. simpl. rewrite H1, H2. simpl.
    by rewrite close_unchanged.
  - by apply (validate_unseated _ _ _ _ s).
  - by apply (validate_unseated _ _ _ _ s).
  - by apply (validate_unseated _ _ _ _ s).
  - by apply (validate_unseated _ _ _ _ s).
  - unfold GameService.leave_game.
    rewrite (with_game_found _ _ _ _ Hg), bind_gets. simpl. rewrite H1, H2. simpl.
    by rewrite close_unchanged.
  - unfold GameService.rematch_game.
    rewrite (with_game_found _ _ _ _ Hg), bind_gets. simpl.
    destruct (game_over s); simpl; [rewrite H1, H2; simpl|];
      by rewrite close_unchanged.
Qed.

Lemma strangers_are_refused_witness :
  games (stored custody_board) !! "G1" = Some custody_board
  ∧ seat custody_board "token-0" = None
  ∧ (GameService.reconnect_game "G1" "token-0" (stored custody_board)
    = Raise (HTTPException 403 "Token inválido para esta partida") (stored custody_board)
  ∧ GameService.get_game_state "G1" "token-0" (stored custody_board)
    = Raise (HTTPException 403 "Token inválido") (stored custody_board)
  ∧ GameService.get_valid_actions "G1" "token-0" (stored custody_board)
    = Raise (HTTPException 403 "Token inválido") (stored custody_board)
  ∧ GameService.place_piece "G1" "token-0" 0 0 (stored custody_board)
    = Raise (HTTPException 403 "Token inválido") (stored custody_board)
  ∧ GameService.move_piece "G1" "token-0" 1 1 1 0 (stored custody_board)
    = Raise (HTTPException 403 "Token inválido") (stored custody_board)
  ∧ GameService.leave_game "G1" "token-0" (stored custody_board)
    = Raise (HTTPException 403 "Token inválido") (stored custody_board)
  ∧ GameService.rematch_game 1 "G1" "token-0" (stored custody_board)
    = (if game_over custody_board then Raise (HTTPException 403 "Token inválido") (stored custody_board)
       else Raise (HTTPException 400 "El juego aún no ha terminado") (stored custody_board))).
Proof.
  assert (H1 : games (stored custody_board) !! "G1" = Some custody_board)
    by (by vm_compute).
  assert (H2 : seat custody_board "token-0" = None)
    by (by vm_compute).
  split; [exact H1|].
  split; [exact H2|].
  exact (strangers_are_refused (stored custody_board) "G1" "token-x" custody_board 1 0 0 1 1 1 0 H1 H2).
Defined.

(** ** Failures *)

Lemma validated_body {A} t (k : M (GameState * Service) A) e s w :
  (state ← gets fst;
   if has_token (player1 state) t then k
   else if has_token (player2 state) t then k
   else raise e) (s, w)
  = match seat s t with
    | Some n => k (s, w)
    | None => Raise e (s, w)
    end.
Proof.
  rewrite bind_gets. unfold seat. simpl.
  destruct (has_token (player1 s) t), (has_token (player2 s) t); done.
Qed.

Lemma with_game_failure {A} gid (body : M (GameState * Service) A) w e :
  (∀ s e, games w !! gid = Some s → failure (body (s, w)) = Some e →
          (∃ c d, e = HTTPException c d) ∧ final (body (s, w)) = (s, w)) →
  failure (with_game gid body w) = Some e →
  (∃ c d, e = HTTPException c d) ∧ final (with_game gid body w) = w.
Proof.
  intros Hb. unfold with_game. destruct (games w !! gid) as [s|] eqn:Hg.
  - specialize (Hb s). destruct (body (s, w)) as [a sw|e' sw]; simpl; [done|].
    intros [= <-]. destruct (Hb e' eq_refl eq_refl) as [He Hf]. simpl in Hf.
    subst sw. split; [done|]. by apply close_unchanged.
  - simpl. intros [= <-]. split; [by eexists _, _|done].
Qed.

Ltac http_leaf :=
  simpl; first [discriminate|intros [= <-]; split; [by eexists _, _|done]].

Lemma join_game_failure t c gid e0 w e :
  failure (GameService.join_game t c gid e0 w) = Some e →
  (∃ c d, e = HTTPException c d) ∧ final (GameService.join_game t c gid e0 w) = w.
Proof.
  unfold GameService.join_game. apply with_game_failure. clear e.
  intros s e Hg. rewrite bind_gets. cbn [fst].
  destruct (truthy e0 && has_token (player1 s) (default EmptyString e0)); [http_leaf|].
  destruct (truthy e0 && has_token (player2 s) (default EmptyString e0)); [http_leaf|].
  destruct (decide (status s ≠ WAITING)).
  - destruct (player2 s); [destruct (negb (truthy e0))|]; http_leaf.
  - http_leaf.
Qed.

Lemma reconnect_game_failure gid t w e :
  failure (GameService.reconnect_game gid t w) = Some e →
  (∃ c d, e = HTTPException c d) ∧ final (GameService.reconnect_game gid t w) = w.
Proof.
  unfold GameService.reconnect_game. apply with_game_failure. clear e.
  intros s e Hg. rewrite bind_gets. cbn [fst].
  destruct (has_token (player1 s) t); [http_leaf|].
  destruct (has_token (player2 s) t); http_leaf.
Qed.

Lemma get_game_state_failure gid t w e :
  failure (GameService.get_game_state gid t w) = Some e →
  (∃ c d, e = HTTPException c d) ∧ final (GameService.get_game_state gid t w) = w.
Proof.
  unfold GameService.get_game_state, GameService._get_and_validate_game.
  apply with_game_failure. clear e.
  intros s e Hg. rewrite validated_body.
  destruct (seat s t) as [n|] eqn:Hseat; [|http_leaf].
  rewrite (bind_Return _ _ _ _ _ (get_player_number_seated _ _ w _ Hseat)).
  http_leaf.
Qed.

Lemma get_valid_actions_failure gid t w e :
  service_inv w →
  failure (GameService.get_valid_actions gid t w) = Some e →
  (∃ c d, e = HTTPException c d) ∧ final (GameService.get_valid_actions gid t w) = w.
Proof.
  intros Hw. unfold GameService.get_valid_actions, GameService._get_and_validate_game.
  apply with_game_failure. clear e.
  intros s e Hg. destruct (Hw _ _ Hg) as [_ Hs]. rewrite validated_body.
  destruct (seat s t) as [n|] eqn:Hseat; [|http_leaf].
  rewrite (bind_Return _ _ _ _ _ (get_player_number_seated _ _ w _ Hseat)).
  rewrite bind_gets. cbn [fst].
  destruct (decide (current_player s ≠ n)); [http_leaf|].
  destruct (decide (phase s = PLACEMENT)).
  - rewrite (bind_Return _ _ _ _ _
      (on_state_Return _ _ w _ _ (get_valid_placements_eq s (inv_board _ Hs)))).
    http_leaf.
  - destruct (get_all_valid_moves_Return s n (inv_board _ Hs)) as (moves & Hm).
    { intros x y Hc. by destruct (inv_chain _ Hs _ _ Hc) as [_ [? _]]. }
    rewrite (bind_Return _ _ _ _ _ (on_state_Return _ _ w _ _ Hm)).
    http_leaf.
Qed.

Lemma leave_game_failure gid t w e :
  failure (GameService.leave_game gid t w) = Some e →
  (∃ c d, e = HTTPException c d) ∧ final (GameService.leave_game gid t w) = w.
Proof.
  unfold GameService.leave_game. apply with_game_failure. clear e.
  intros s e Hg. rewrite bind_gets. cbn [fst].
  destruct (has_token (player1 s) t).
  - rewrite bind_assoc, bind_on_state_modify, bind_ret.
    destruct (truthy (token <$> player2 s));
      [rewrite bind_notify|rewrite bind_ret];
      rewrite bind_gets; cbn [fst player1 player2 set_player1];
      destruct (player2 s); http_leaf.
  - destruct (has_token (player2 s) t); [|http_leaf].
    rewrite bind_assoc, bind_on_state_modify, bind_ret.
    destruct (truthy (token <$> player1 s));
      [rewrite bind_notify|rewrite bind_ret];
      rewrite bind_gets; cbn [fst player1 player2 set_player2];
      destruct (player1 s); http_leaf.
Qed.

Lemma bind_raise {S A B} (e : exn) (f : A → M S B) s : (raise e ≫= f) s = Raise e s.
Proof. done. Qed.

Lemma with_game_Raise {A} gid (body : M (GameState * Service) A) w e :
  failure (with_game gid body w) = Some e →
  games w !! gid = None ∧ e = HTTPException 404 "Partida no encontrada"
  ∨ ∃ s sw, games w !! gid = Some s ∧ body (s, w) = Raise e sw.
Proof.
  unfold with_game. destruct (games w !! gid) as [s|].
  - destruct (body (s, w)) as [a sw|e' sw] eqn:Hb; simpl; [done|].
    intros [= <-]. right. by eexists _, _.
  - simpl. intros [= <-]. by left.
Qed.

Lemma with_game_unchanged {A} gid (body : M (GameState * Service) A) w s e :
  games w !! gid = Some s →
  body (s, w) = Raise e (s, w) →
  final (with_game gid body w) = w.
Proof.
  intros Hg Hb. unfold with_game. rewrite Hg, Hb. simpl. by apply close_unchanged.
Qed.

Lemma rematch_game_failure c gid t w e :
  failure (GameService.rematch_game c gid t w) = Some e →
  (∃ c d, e = HTTPException c d) ∧ final (GameService.rematch_game c gid t w) = w
  ∨ e = AttributeError.
Proof.
  intros H. unfold GameService.rematch_game in *.
  apply with_game_Raise in H as [[Hg ->]|(s & sw & Hg & Hb)].
  - left. split; [by eexists _, _|]. unfold with_game. by rewrite Hg.
  - assert (Hc : (∃ c d, e = HTTPException c d) ∧ sw = (s, w) ∨ e = AttributeError).
    { clear Hg. revert Hb. rewrite bind_gets. cbn [fst].
      destruct (game_over s); cbn [negb].
      2:{ unfold raise. intros [= <- <-]. left. split; [by eexists _, _|done]. }
      destruct (has_token (player1 s) t); [|destruct (has_token (player2 s) t)].
      3:{ rewrite bind_raise. intros [= <- <-]. left. split; [by eexists _, _|done]. }
      all: rewrite bind_ret.
      all: destruct (rematch_requests s) as [r|] eqn:Hr;
        [rewrite bind_ret|rewrite bind_on_state_modify].
      all: rewrite bind_on_state_modify, bind_gets.
      all: destruct (decide (2 ≤ size _)%nat);
        [rewrite !bind_on_state_modify, bind_repo_save, bind_notify; discriminate|].
      all: rewrite bind_gets; cbn [fst].
      all: repeat case_decide; try lia.
      all: cbn [player1 player2 set_rematch_requests].
      all: match goal with
           | |- context [match ?p with Some _ => _ | None => _ end] => destruct p
           end;
        [rewrite bind_notify, bind_repo_save; discriminate
        |unfold raise; intros [= <- _]; by right]. }
    destruct Hc as [[He ->]|]; [left|by right].
    split; [done|]. by apply (with_game_unchanged _ _ _ s e).
Qed.

(** X20.  On a service reached by any sequence of requests since it
    started, a request that fails raises an [HTTPException] and leaves the
    service exactly as it was; the one exception is [rematch_game], which
    can also stop with an [AttributeError]. *)
Theorem requests_fail_only_with_http_errors (l : list Action) (a : Action) (e : exn) :
  raised a (run l initial) = Some e →
  (∃ c d, e = HTTPException c d) ∧ step a (run l initial) = run l initial
  ∨ e = AttributeError ∧ ∃ c g t, a = RematchGame c g t.
Proof.
  set (w := run l initial).
  assert (Hw : service_inv w) by apply run_inv, initial_inv.
  destruct a as [g t|t c g e0|g t|g t|g t|g t x y|g t fx fy tx ty|g t|c g t]; simpl.
  - discriminate.
  - intros H. left. by apply join_game_failure.
  - intros H. left. by apply reconnect_game_failure.
  - intros H. left. by apply get_game_state_failure.
  - intros H. left. by apply get_valid_actions_failure.
  - destruct (place_piece_final w g t x y Hw)
      as [(c & d & ->)|(s & n & reason & changed & s' & w' & rest
                        & _ & _ & _ & _ & -> & _)]; simpl; [|discriminate].
    intros [= <-]. left. split; [by eexists _, _|done].
  - destruct (move_piece_final w g t fx fy tx ty Hw)
      as [(c & d & ->)|(s & n & reason & s1 & captured & s2 & extra & over & win & why
                        & w' & rest & _ & _ & _ & _ & _ & _ & _ & -> & _)];
      simpl; [|discriminate].
    intros [= <-]. left. split; [by eexists _, _|done].
  - intros H. left. by apply leave_game_failure.
  - intros H. destruct (rematch_game_failure _ _ _ _ _ H) as [?| ->]; [by left|].
    right. split; [done|]. by eexists _, _, _.
Qed.

Lemma requests_fail_only_with_http_errors_witness :
  ∃ e,
    raised (RematchGame 1 "G1" "token-a") (run (short_game ++ [LeaveGame "G1" "token-b"]) initial) = Some e
    ∧ ((∃ c d, e = HTTPException c d) ∧ step (RematchGame 1 "G1" "token-a") (run (short_game ++ [LeaveGame "G1" "token-b"]) initial) = run (short_game ++ [LeaveGame "G1" "token-b"]) initial
    ∨ e = AttributeError ∧ ∃ c g t, (RematchGame 1 "G1" "token-a") = RematchGame c g t).
Proof.
  destruct (raised (RematchGame 1 "G1" "token-a")
              (run (short_game ++ [LeaveGame "G1" "token-b"]) initial))
    as [e|] eqn:He; [|by vm_compute in He].
  exists e. split; [reflexivity|].
  exact (requests_fail_only_with_http_errors (short_game ++ [LeaveGame "G1" "token-b"])
           (RematchGame 1 "G1" "token-a") e He).
Defined.

(** ** One game at a time *)

(** X21.  On a service reached by any sequence of requests since it
    started, a request changes no session but the one it names. *)
Theorem requests_leave_other_games_alone (l : list Action) (a : Action) (k : string) :
  k ≠ target a →
  games (step a (run l initial)) !! k = games (run l initial) !! k.
Proof.
  set (w := run l initial). intros Hk.
  assert (Hw : service_inv w) by apply run_inv, initial_inv.
  destruct (request_frames (target a))
    as (Hjoin & Hrec & Hget & Hval & Hplace & Hmove & Hleave & Hrem).
  destruct a as [g t|t c g e0|g t|g t|g t|g t x y|g t fx fy tx ty|g t|c g t]; simpl in *.
  - by rewrite lookup_insert_ne.
  - destruct (Hjoin t c e0) as (body & -> & Hf).
    by apply with_game_lookup_ne.
  - destruct (Hrec t) as (body & -> & Hf). by apply with_game_lookup_ne.
  - destruct (Hget t) as (body & -> & Hf). by apply with_game_lookup_ne.
  - destruct (Hval t) as (body & -> & Hf). by apply with_game_lookup_ne.
  - destruct (Hplace t x y) as (body & -> & Hf).
    by apply with_game_lookup_ne.
  - destruct (Hmove t fx fy tx ty) as (body & -> & Hf).
    by apply with_game_lookup_ne.
  - destruct (Hleave t) as (body & -> & Hf). by apply with_game_lookup_ne.
  - destruct (Hrem c t) as (body & -> & Hf).
    by apply with_game_lookup_ne.
Qed.

Lemma requests_leave_other_games_alone_witness :
  "G2" ≠ target (place_a 0 0)
  ∧ (games (step (place_a 0 0) (run seating initial)) !! "G2" = games (run seating initial) !! "G2").
Proof.
  assert (H1 : "G2" ≠ target (place_a 0 0))
    by (by vm_compute).
  split; [exact H1|].
  exact (requests_leave_other_games_alone seating (place_a 0 0) "G2" H1).
Defined.

(** ** Joining a game that has started *)

(** X22.  [join_game] on a session that is no longer WAITING changes
    nothing.  With a token it answers with the seat the token holds, or with
    HTTP 400 when it holds none.  Without a token (or with the empty one) it
    answers with seat 2 and the token of player 2 when that seat is taken,
    and with HTTP 400 when it is not. *)
Theorem join_game_after_the_start
    (w : Service) (game_id fresh : string) (choice : Z) (existing : option string)
    (s : GameState) :
  games w !! game_id = Some s →
  status s ≠ WAITING →
  GameService.join_game fresh choice game_id existing w
  = if truthy existing then
      match seat s (default EmptyString existing) with
      | Some n =>
          Return {| gameId := game_id; playerToken := default EmptyString existing;
                    playerNumber := n; join_status := status s |} w
      | None => Raise (HTTPException 400 "La partida ya está llena o terminada") w
      end
    else
      match player2 s with
      | Some p2 =>
          Return {| gameId := game_id; playerToken := token p2;
                    playerNumber := 2; join_status := status s |} w
      | None => Raise (HTTPException 400 "La partida ya está llena o terminada") w
      end.
Proof.
  intros Hg Hst. unfold GameService.join_game, seat.
  rewrite (with_game_found _ _ _ _ Hg), bind_gets. cbn [fst].
  destruct (truthy existing); cbn [andb negb].
  - destruct (has_token (player1 s) _); [simpl; by rewrite close_unchanged|].
    destruct (has_token (player2 s) _); [simpl; by rewrite close_unchanged|].
    destruct (decide (status s ≠ WAITING)); [|done].
    destruct (player2 s); simpl; by rewrite close_unchanged.
  - destruct (decide (status s ≠ WAITING)); [|done].
    destruct (player2 s); simpl; by rewrite close_unchanged.
Qed.

Lemma join_game_after_the_start_witness :
  games (stored custody_board) !! "G1" = Some custody_board
  ∧ status custody_board ≠ WAITING
  ∧ (GameService.join_game "token-c" 1 "G1" None (stored custody_board)
  = if truthy None then
      match seat custody_board (default EmptyString None) with
      | Some n =>
          Return {| gameId := "G1"; playerToken := default EmptyString None;
                    playerNumber := n; join_status := status custody_board |} (stored custody_board)
      | None => Raise (HTTPException 400 "La partida ya está llena o terminada") (stored custody_board)
      end
    else
      match player2 custody_board with
      | Some p2 =>
          Return {| gameId := "G1"; playerToken := token p2;
                    playerNumber := 2; join_status := status custody_board |} (stored custody_board)
      | None => Raise (HTTPException 400 "La partida ya está llena o terminada") (stored custody_board)
      end).
Proof.
  assert (H1 : games (stored custody_board) !! "G1" = Some custody_board)
    by (by vm_compute).
  assert (H2 : status custody_board ≠ WAITING)
    by (by vm_compute).
  split; [exact H1|].
  split; [exact H2|].
  exact (join_game_after_the_start (stored custody_board) "G1" "token-c" 1 None custody_board H1 H2).
Defined.

(** ** Leaving *)

Lemma close_deleted gid s' w q :
  games (close gid (s', {| games := delete gid (games w); notifier := q |}))
  = delete gid (games w).
Proof.
  unfold close. simpl. apply map_eq. intros k.
  rewrite lookup_alter. destruct (decide (gid = k)) as [->|Hne]; [|done].
  by rewrite lookup_delete_eq.
Qed.

Lemma close_stored gid s' w q :
  games (close gid (s', {| games := <[gid := s']> (games w); notifier := q |}))
  = <[gid := s']> (games w).
Proof.
  apply (close_saved gid s' w); simpl.
  - by rewrite lookup_insert_eq.
  - intros k Hne. by rewrite lookup_insert_ne.
Qed.

(** X23.  On a service reached by any sequence of requests since it
    started, [leave_game] by the holder of a seat answers.  When the other
    seat is taken, the session is stored with the leaver's seat emptied, as
    FINISHED and over, won by the other player, and the answer says the game
    was not deleted.  When the other seat is empty, the session is deleted
    from the repository and the answer says so. *)
Theorem leave_game_outcome
    (l : list Action) (game_id player_token : string) (s : GameState) (n : Z) :
  games (run l initial) !! game_id = Some s →
  seat s player_token = Some n →
  ∃ r w',
    GameService.leave_game game_id player_token (run l initial) = Return r w'
    ∧ match (if decide (n = 1) then player2 s else player1 s) with
      | None =>
          gameDeleted r = true
          ∧ games w' = delete game_id (games (run l initial))
      | Some _ =>
          gameDeleted r = false
          ∧ games w'
            = <[game_id :=
                  set_winner (Some (get_opponent n))
                    (set_game_over true
                       (set_status FINISHED
                          ((if decide (n = 1) then set_player1 None
                            else set_player2 None) s)))]>
                (games (run l initial))
      end.
Proof.
  set (w := run l initial).
  assert (Hw : service_inv w) by apply run_inv, initial_inv.
  clearbody w. intros Hg Hseat. destruct (Hw _ _ Hg) as [Hid _].
  unfold GameService.leave_game, seat in *.
  rewrite (with_game_found _ _ _ _ Hg), bind_gets. cbn [fst].
  destruct (has_token (player1 s) player_token) eqn:H1.
  - injection Hseat as <-.
    rewrite bind_assoc, bind_on_state_modify, bind_ret.
    destruct (truthy (token <$> player2 s));
      [rewrite bind_notify|rewrite bind_ret];
      rewrite bind_gets; cbn [fst player1 player2 set_player1];
      destruct (player2 s); simpl; rewrite ?Hid;
      (eexists _, _; split; [reflexivity|]; split; [done|]);
      first [apply close_deleted|apply close_stored].
  - destruct (has_token (player2 s) player_token) eqn:H2; [|done].
    injection Hseat as <-.
    rewrite bind_assoc, bind_on_state_modify, bind_ret.
    destruct (truthy (token <$> player1 s));
      [rewrite bind_notify|rewrite bind_ret];
      rewrite bind_gets; cbn [fst player1 player2 set_player2];
      destruct (player1 s); simpl; rewrite ?Hid;
      (eexists _, _; split; [reflexivity|]; split; [done|]);
      first [apply close_deleted|apply close_stored].
Qed.

Lemma leave_game_outcome_witness :
  ∃ s,
    games (run seating initial) !! "G1" = Some s
    ∧ seat s "token-a" = Some 1
    ∧ (∃ r w',
      GameService.leave_game "G1" "token-a" (run seating initial) = Return r w'
      ∧ match (if decide (1 = 1) then player2 s else player1 s) with
        | None =>
            gameDeleted r = true
            ∧ games w' = delete "G1" (games (run seating initial))
        | Some _ =>
            gameDeleted r = false
            ∧ games w'
              = <["G1" :=
                    set_winner (Some (get_opponent 1))
                      (set_game_over true
                         (set_status FINISHED
                            ((if decide (1 = 1) then set_player1 None
                              else set_player2 None) s)))]>
                  (games (run seating initial))
        end).
Proof.
  destruct (games (run seating initial) !! "G1") as [s|] eqn:Hg;
    [|by vm_compute in Hg].
  pose proof Hg as Hs. vm_compute in Hs. injection Hs as Hs.
  assert (H2 : seat s "token-a" = Some 1)
    by (rewrite <- Hs; by vm_compute).
  exists s. split; [reflexivity|].
  split; [exact H2|].
  exact (leave_game_outcome seating "G1" "token-a" s 1 Hg H2).
Defined.

(** ** Rematch *)

Lemma rematch_game_request c gid t w s n :
  games w !! gid = Some s →
  game_over s = true →
  seat s t = Some n →
  GameService.rematch_game c gid t w
  = match
      (let asked := {[ n ]} ∪ default ∅ (rematch_requests s) in
       let s1 := set_rematch_requests (Some asked) s in
       if decide (2 ≤ size asked)%nat then
         (on_state (modify (set_board Board_new));;
          on_state (modify (set_phase PLACEMENT));;
          on_state (modify (set_status PLAYING));;
          on_state (modify (set_current_player c));;
          on_state (modify (set_pieces_count {[ 1 := 0; 2 := 0 ]}));;
          on_state (modify (set_placement_remaining 2));;
          on_state (modify (set_total_pieces_placed 0));;
          on_state (modify (set_winner None));;
          on_state (modify (set_game_over false));;
          on_state (modify (set_chain_capture_piece None));;
          on_state (modify (set_rematch_requests (Some ∅)));;
          repo_save;;
          notify (notify_game_event gid (rematch_started c) None);;
          mret {| rematch_message := "Rematch iniciado"; rematchStarted := true;
                  rematch_currentPlayer := Some c |}) (s1, w)
       else
         match (if decide (n = 1) then player2 s else player1 s) with
         | None => Raise AttributeError (s1, w)
         | Some opponent =>
             (notify (notify_specific_player gid (Some (token opponent))
                        rematch_requested);;
              repo_save;;
              mret {| rematch_message := "Esperando confirmación del oponente";
                      rematchStarted := false; rematch_currentPlayer := None |})
               (s1, w)
         end)
    with
    | Return a sw => Return a (close gid sw)
    | Raise e sw => Raise e (close gid sw)
    end.
Proof.
  intros Hg Hover Hseat. unfold GameService.rematch_game, seat in *.
  rewrite (with_game_found _ _ _ _ Hg), bind_gets. cbn [fst].
  rewrite Hover. cbn [negb]. cbv zeta.
  destruct (has_token (player1 s) t);
    [|destruct (has_token (player2 s) t); [|done]].
  all: injection Hseat as <-.
  all: rewrite bind_ret.
  all: destruct (rematch_requests s) as [r|] eqn:Hr;
    [rewrite bind_ret|rewrite bind_on_state_modify].
  all: rewrite bind_on_state_modify, bind_gets.
  all: cbn [fst rematch_requests set_rematch_requests default from_option id].
  all: rewrite ?Hr; cbn [default from_option id].
  all: destruct (decide (2 ≤ size _)%nat); [reflexivity|].
  all: rewrite bind_gets; cbn [fst player1 player2 set_rematch_requests].
  all: repeat case_decide; try lia.
  all: match goal with
       | |- context [match ?p with Some _ => _ | None => _ end] => destruct p
       end; reflexivity.
Qed.

Lemma close_found gid s s' w :
  games w !! gid = Some s →
  games (close gid (s', w)) = <[gid := s']> (games w).
Proof.
  intros Hg. unfold close. simpl. apply map_eq. intros k.
  rewrite lookup_alter, lookup_insert.
  destruct (decide (gid = k)) as [->|Hne]; [by rewrite Hg|done].
Qed.

(** X24.  On a service reached by any sequence of requests since it
    started, once the game is over a rematch request by a player, while the
    opponent has not asked, records the request in the stored session and
    changes nothing else in it, so that asking again changes nothing.  When
    the opponent holds its seat the answer is that the rematch has not
    started and the opponent is notified; when the opponent has left, the
    request stops with an [AttributeError], the request recorded all the
    same and nobody notified. *)
Theorem rematch_waits_for_the_opponent
    (l : list Action) (choice : Z) (gid player_token : string)
    (s : GameState) (n : Z) :
  games (run l initial) !! gid = Some s →
  game_over s = true →
  seat s player_token = Some n →
  default ∅ (rematch_requests s) ⊆ {[ n ]} →
  ∃ w',
    games w' = <[gid := set_rematch_requests (Some {[ n ]}) s]>
                 (games (run l initial))
    ∧ match (if decide (n = 1) then player2 s else player1 s) with
      | Some opponent =>
          GameService.rematch_game choice gid player_token (run l initial)
          = Return {| rematch_message := "Esperando confirmación del oponente";
                      rematchStarted := false; rematch_currentPlayer := None |} w'
          ∧ notifier w'
            = notifier (run l initial)
              ++ [notify_specific_player gid (Some (token opponent))
                    rematch_requested]
      | None =>
          GameService.rematch_game choice gid player_token (run l initial)
          = Raise AttributeError w'
          ∧ notifier w' = notifier (run l initial)
      end.
Proof.
  set (w := run l initial).
  assert (Hw : service_inv w) by apply run_inv, initial_inv.
  clearbody w. intros Hg Hover Hseat Hsub. destruct (Hw _ _ Hg) as [Hid _].
  rewrite (rematch_game_request _ _ _ _ _ _ Hg Hover Hseat). cbv zeta.
  assert (Hu : {[ n ]} ∪ default ∅ (rematch_requests s) = ({[ n ]} : gset Z))
    by (by rewrite (comm_L (∪)), (subseteq_union_1_L _ _ Hsub)).
  rewrite Hu, size_singleton.
  destruct (decide (2 ≤ 1)%nat); [lia|].
  destruct (if decide (n = 1) then player2 s else player1 s) as [p|].
  - rewrite bind_notify, bind_repo_save. cbn [game_id set_rematch_requests games notifier].
    rewrite Hid. eexists. split; [|split; [reflexivity|done]].
    apply close_stored.
  - eexists. split; [|split; [reflexivity|done]]. by apply (close_found _ s).
Qed.

Lemma rematch_waits_for_the_opponent_witness :
  ∃ s,
    games (run short_game initial) !! "G1" = Some s
    ∧ game_over s = true
    ∧ seat s "token-a" = Some 1
    ∧ default ∅ (rematch_requests s) ⊆ {[ 1 ]}
    ∧ (∃ w',
      games w' = <["G1" := set_rematch_requests (Some {[ 1 ]}) s]>
                   (games (run short_game initial))
      ∧ match (if decide (1 = 1) then player2 s else player1 s) with
        | Some opponent =>
            GameService.rematch_game 1 "G1" "token-a" (run short_game initial)
            = Return {| rematch_message := "Esperando confirmación del oponente";
                        rematchStarted := false; rematch_currentPlayer := None |} w'
            ∧ notifier w'
              = notifier (run short_game initial)
                ++ [notify_specific_player "G1" (Some (token opponent))
                      rematch_requested]
        | None =>
            GameService.rematch_game 1 "G1" "token-a" (run short_game initial)
            = Raise AttributeError w'
            ∧ notifier w' = notifier (run short_game initial)
        end).
Proof.
  destruct (games (run short_game initial) !! "G1") as [s|] eqn:Hg;
    [|by vm_compute in Hg].
  pose proof Hg as Hs. vm_compute in Hs. injection Hs as Hs.
  assert (H2 : game_over s = true)
    by (rewrite <- Hs; by vm_compute).
  assert (H3 : seat s "token-a" = Some 1)
    by (rewrite <- Hs; by vm_compute).
  assert (H4 : default ∅ (rematch_requests s) ⊆ {[ 1 ]})
    by (rewrite <- Hs; simpl; apply empty_subseteq).
  exists s. split; [reflexivity|].
  split; [exact H2|].
  split; [exact H3|].
  split; [exact H4|].
  exact (rematch_waits_for_the_opponent short_game 1 "G1" "token-a" s 1 Hg H2 H3 H4).
Defined.

(** X25.  On a service reached by any sequence of requests since it
    started, once the game is over a rematch request by a player whose
    opponent has asked already restarts the game: the session is stored
    with an empty board, in the PLACEMENT phase, PLAYING, the drawn player
    to move with two placements, all counters at zero, no winner, no chain
    pointer and no pending rematch request, the seats as they were; the
    answer says so and one rematch_started event is queued. *)
Theorem rematch_restarts_when_both_asked
    (l : list Action) (choice : Z) (gid player_token : string)
    (s : GameState) (n : Z) :
  games (run l initial) !! gid = Some s →
  game_over s = true →
  seat s player_token = Some n →
  get_opponent n ∈ default ∅ (rematch_requests s) →
  ∃ w',
    GameService.rematch_game choice gid player_token (run l initial)
    = Return {| rematch_message := "Rematch iniciado"; rematchStarted := true;
                rematch_currentPlayer := Some choice |} w'
    ∧ games w'
      = <[gid :=
            {| game_id := gid; board := Board_new; phase := PLACEMENT;
               status := PLAYING; current_player := choice;
               player1 := player1 s; player2 := player2 s;
               pieces_count := {[ 1 := 0; 2 := 0 ]}; placement_remaining := 2;
               chain_capture_piece := None; winner := None; game_over := false;
               total_pieces_placed := 0; rematch_requests := Some ∅ |}]>
          (games (run l initial))
    ∧ notifier w'
      = notifier (run l initial)
        ++ [notify_game_event gid (rematch_started choice) None].
Proof.
  set (w := run l initial).
  assert (Hw : service_inv w) by apply run_inv, initial_inv.
  clearbody w. intros Hg Hover Hseat Hopp. destruct (Hw _ _ Hg) as [Hid _].
  rewrite (rematch_game_request _ _ _ _ _ _ Hg Hover Hseat). cbv zeta.
  assert (Hsize : (2 ≤ size ({[ n ]} ∪ default ∅ (rematch_requests s)))%nat).
  { assert (Hne : n ≠ get_opponent n)
      by (unfold get_opponent; case_decide; lia).
    assert (Hsub : ({[ n ]} ∪ {[ get_opponent n ]} : gset Z)
                   ⊆ {[ n ]} ∪ default ∅ (rematch_requests s))
      by (by apply union_mono_l, singleton_subseteq_l).
    apply subseteq_size in Hsub.
    rewrite size_union, !size_singleton in Hsub
      by (apply disjoint_singleton_l; by intros ?%elem_of_singleton).
    lia. }
  destruct (decide (2 ≤ size _)%nat); [|lia].
  rewrite !bind_on_state_modify, bind_repo_save, bind_notify.
  cbn [games notifier]. subst gid.
  eexists. split; [reflexivity|]. split; [|done].
  etrans; [apply close_stored|reflexivity].
Qed.

Lemma rematch_restarts_when_both_asked_witness :
  ∃ s,
    games (run (short_game ++ [RematchGame 2 "G1" "token-a"]) initial) !! "G1" = Some s
    ∧ game_over s = true
    ∧ seat s "token-b" = Some 2
    ∧ get_opponent 2 ∈ default ∅ (rematch_requests s)
    ∧ (∃ w',
      GameService.rematch_game 2 "G1" "token-b" (run (short_game ++ [RematchGame 2 "G1" "token-a"]) initial)
      = Return {| rematch_message := "Rematch iniciado"; rematchStarted := true;
                  rematch_currentPlayer := Some 2 |} w'
      ∧ games w'
        = <["G1" :=
              {| game_id := "G1"; board := Board_new; phase := PLACEMENT;
                 status := PLAYING; current_player := 2;
                 player1 := player1 s; player2 := player2 s;
                 pieces_count := {[ 1 := 0; 2 := 0 ]}; placement_remaining := 2;
                 chain_capture_piece := None; winner := None; game_over := false;
                 total_pieces_placed := 0; rematch_requests := Some ∅ |}]>
            (games (run (short_game ++ [RematchGame 2 "G1" "token-a"]) initial))
      ∧ notifier w'
        = notifier (run (short_game ++ [RematchGame 2 "G1" "token-a"]) initial)
          ++ [notify_game_event "G1" (rematch_started 2) None]).
Proof.
  destruct (games (run (short_game ++ [RematchGame 2 "G1" "token-a"]) initial) !! "G1") as [s|] eqn:Hg;
    [|by vm_compute in Hg].
  pose proof Hg as Hs. vm_compute in Hs. injection Hs as Hs.
  assert (H2 : game_over s = true)
    by (rewrite <- Hs; by vm_compute).
  assert (H3 : seat s "token-b" = Some 2)
    by (rewrite <- Hs; by vm_compute).
  assert (H4 : get_opponent 2 ∈ default ∅ (rematch_requests s))
    by (rewrite <- Hs; by vm_compute).
  exists s. split; [reflexivity|].
  split; [exact H2|].
  split; [exact H3|].
  split; [exact H4|].
  exact (rematch_restarts_when_both_asked (short_game ++ [RematchGame 2 "G1" "token-a"]) 2 "G1" "token-b" s 2 Hg H2 H3 H4).
Defined.

(** ** What a move does *)

(** X26.  On a service reached by any sequence of requests since it
    started, a move request that is answered moved a piece of the player
    from the origin to the destination, removed the pieces the answer
    lists as captured, which were pieces of the opponent, and changed no
    other cell; the counter of the opponent went down by the number of
    captures.  The player keeps the turn, pinned on the moved piece, exactly
    when the answer grants an extra turn; otherwise the turn passes and no
    piece is pinned.  The session is stored as finished, with the winner of
    the answer, exactly when the answer says the game is over. *)
Theorem move_piece_outcome
    (l : list Action) (gid t : string) (from_x from_y to_x to_y : Z)
    (r : ActionResponse) (w' : Service) :
  GameService.move_piece gid t from_x from_y to_x to_y (run l initial) = Return r w' →
  ∃ s n c s',
    games (run l initial) !! gid = Some s
    ∧ seat s t = Some n
    ∧ pieces_count s !! get_opponent n = Some c
    ∧ games w' = <[gid := s']> (games (run l initial))
    ∧ (∀ cell, cell ∈ captures (response_result r) →
         holds (board s) cell.1 cell.2 (get_opponent n))
    ∧ (∀ x y, Board_is_valid_position x y = true →
         Board_get (board s') x y =
           if decide ((x, y) ∈ captures (response_result r)) then Some EMPTY
           else if decide (x = to_x ∧ y = to_y) then Some n
           else if decide (x = from_x ∧ y = from_y) then Some EMPTY
           else Board_get (board s) x y)
    ∧ pieces_count s'
      = <[get_opponent n := c - Z.of_nat (length (captures (response_result r)))]>
          (pieces_count s)
    ∧ current_player s'
      = (if extra_turn (response_result r) then n else get_opponent n)
    ∧ chain_capture_piece s'
      = (if extra_turn (response_result r) then Some (to_x, to_y) else None)
    ∧ (if result_game_over (response_result r)
       then game_over s' = true ∧ status s' = FINISHED
            ∧ winner s' = result_winner (response_result r)
       else game_over s' = game_over s ∧ status s' = status s
            ∧ winner s' = winner s).
Proof.
  set (w := run l initial).
  assert (Hw : service_inv w) by apply run_inv, initial_inv.
  clearbody w. intros Hr.
  destruct (move_piece_final w gid t from_x from_y to_x to_y Hw)
    as [(c0 & d & Hx)|(s & n & reason & s1 & captured & s2 & extra & over & win & why
                       & w2 & rest
                       & Hg & Hseat & Hc & Hm & Hcap & Hcase & Hv & Hr' & Hgames & _)].
  { rewrite Hx in Hr. discriminate. }
  rewrite Hr' in Hr. injection Hr as <- <-.
  destruct (Hw _ _ Hg) as [Hid Hs].
  pose proof (seat_player _ _ _ Hseat) as Hn.
  destruct (can_move_piece_true _ _ _ _ _ _ _ _ Hc) as (Hph & Hcp & Hfrom & Hto & _).
  assert (Hk : is_Some (pieces_count s !! get_opponent n))
    by (destruct Hn as [-> | ->]; apply (inv_counts _ Hs)).
  destruct Hk as [c Hcnt].
  assert (Hopp : get_opponent n ≠ EMPTY)
    by (destruct Hn as [-> | ->]; done).
  destruct (move_piece_Return s from_x from_y to_x to_y n (inv_board _ Hs) Hfrom (proj1 Hto))
    as (b1 & Hm' & Hwf1 & Hb1).
  rewrite Hm in Hm'. injection Hm' as ->.
  destruct (check_captures_cells (set_board b1 s) to_x to_y n Hwf1)
    as (cap' & Hcap' & Hall & Hnd).
  rewrite Hcap in Hcap'. injection Hcap' as <-.
  assert (Hcells : ∀ cell, cell ∈ captured →
            holds (board s) cell.1 cell.2 (get_opponent n)
            ∧ ¬ (cell.1 = to_x ∧ cell.2 = to_y)
            ∧ ¬ (cell.1 = from_x ∧ cell.2 = from_y)).
  { intros [cx cy] Hin. rewrite Forall_forall in Hall.
    destruct (Hall _ Hin) as [Hvalid Hget]. cbn [fst snd board set_board] in *.
    rewrite (Hb1 _ _ Hvalid) in Hget.
    destruct (decide (cx = to_x ∧ cy = to_y)) as [?|Hne1].
    { injection Hget as Heq. by destruct (get_opponent_ne n). }
    destruct (decide (cx = from_x ∧ cy = from_y)) as [?|Hne2].
    { injection Hget as Heq. by destruct Hopp. }
    done. }
  set (res := response_result _).
  assert (Hres : captures res = captured ∧ extra_turn res = extra
                 ∧ result_game_over res = over
                 ∧ (over = true → result_winner res = win))
    by (subst res; destruct extra, over; done).
  clearbody res. destruct Hres as (Hr1 & Hr2 & Hr3 & Hr4).
  rewrite Hr1, Hr2, Hr3.
  set (s' := after_victory_check over win (after_move extra (to_x, to_y) s2)) in *.
  assert (Hs' : board s' = board s2 ∧ pieces_count s' = pieces_count s2
                ∧ current_player s'
                  = (if extra then current_player s2
                     else get_opponent (current_player s2))
                ∧ chain_capture_piece s' = (if extra then Some (to_x, to_y) else None)
                ∧ (if over
                   then game_over s' = true ∧ status s' = FINISHED ∧ winner s' = win
                   else game_over s' = game_over s2 ∧ status s' = status s2
                        ∧ winner s' = winner s2))
    by (subst s'; destruct extra, over; done).
  clearbody s'. destruct Hs' as (Hb' & Hp' & Ht' & Hch' & Hover').
  exists s, n, c, s'. rewrite Hb', Hp', Ht', Hch'.
  split; [done|]. split; [done|]. split; [done|]. split; [done|].
  split; [intros cell Hin; by apply Hcells|].
  destruct Hcase as [(-> & -> & ->)|(Hne & Happly & _)].
  - cbn [board pieces_count current_player set_board game_over status winner] in *.
    split.
    { intros x y Hxy. rewrite (Hb1 _ _ Hxy).
      destruct (decide ((x, y) ∈ [])) as [Hin|_]; [by apply elem_of_nil in Hin|done]. }
    split.
    { cbn [length]. rewrite Z.sub_0_r. by rewrite insert_id. }
    split; [by rewrite Hcp|]. split; [done|].
    destruct over; [|done].
    destruct Hover' as (? & ? & ->). by rewrite Hr4.
  - destruct (apply_captures_spec (set_board b1 s) captured (get_opponent n) c
                Hwf1 Hcnt Hall Hnd) as (b2 & Ha & Hwf2 & Hb2).
    rewrite Happly in Ha. injection Ha as ->.
    cbn [board pieces_count current_player set_board set_pieces_count
         game_over status winner] in *.
    split.
    { intros x y Hxy. rewrite (Hb2 _ _ Hxy).
      destruct (decide ((x, y) ∈ captured)); [done|]. by apply Hb1. }
    split; [done|].
    split; [by rewrite Hcp|]. split; [done|].
    destruct over; [|done].
    destruct Hover' as (? & ? & ->). by rewrite Hr4.
Qed.

Lemma move_piece_outcome_witness :
  ∃ r w',
    GameService.move_piece "G1" "token-a" 2 1 2 2 (run chain_opening initial) = Return r w'
    ∧ (∃ s n c s',
      games (run chain_opening initial) !! "G1" = Some s
      ∧ seat s "token-a" = Some n
      ∧ pieces_count s !! get_opponent n = Some c
      ∧ games w' = <["G1" := s']> (games (run chain_opening initial))
      ∧ (∀ cell, cell ∈ captures (response_result r) →
           holds (board s) cell.1 cell.2 (get_opponent n))
      ∧ (∀ x y, Board_is_valid_position x y = true →
           Board_get (board s') x y =
             if decide ((x, y) ∈ captures (response_result r)) then Some EMPTY
             else if decide (x = 2 ∧ y = 2) then Some n
             else if decide (x = 2 ∧ y = 1) then Some EMPTY
             else Board_get (board s) x y)
      ∧ pieces_count s'
        = <[get_opponent n := c - Z.of_nat (length (captures (response_result r)))]>
            (pieces_count s)
      ∧ current_player s'
        = (if extra_turn (response_result r) then n else get_opponent n)
      ∧ chain_capture_piece s'
        = (if extra_turn (response_result r) then Some (2, 2) else None)
      ∧ (if result_game_over (response_result r)
         then game_over s' = true ∧ status s' = FINISHED
              ∧ winner s' = result_winner (response_result r)
         else game_over s' = game_over s ∧ status s' = status s
              ∧ winner s' = winner s)).
Proof.
  destruct (GameService.move_piece "G1" "token-a" 2 1 2 2 (run chain_opening initial))
    as [r w'|e w'] eqn:Hp; try (by vm_compute in Hp).
  exists r, w'. split; [reflexivity|].
  exact (move_piece_outcome chain_opening "G1" "token-a" 2 1 2 2 r w' Hp).
Defined.

(** ** What a placement does *)

(** X27.  On a service reached by any sequence of requests since it
    started, a placement request that is answered was made in the PLACEMENT
    phase by the player to move, on an empty cell other than the refuge; it
    wrote the piece on that cell only and added one to the counter of the
    player and to the pieces placed.  The answer signals the phase change
    exactly when the 24th piece was placed, and the stored session is then in
    the MOVEMENT phase.  The turn passes exactly when the last placement of
    the turn was used.  A placement captures nothing and never ends the
    game. *)
Theorem place_piece_outcome
    (l : list Action) (gid t : string) (x y : Z)
    (r : ActionResponse) (w' : Service) :
  GameService.place_piece gid t x y (run l initial) = Return r w' →
  ∃ s n c s',
    games (run l initial) !! gid = Some s
    ∧ seat s t = Some n
    ∧ pieces_count s !! n = Some c
    ∧ games w' = <[gid := s']> (games (run l initial))
    ∧ phase s = PLACEMENT ∧ current_player s = n
    ∧ holds (board s) x y EMPTY ∧ (x, y) ≠ (REFUGE_X, REFUGE_Y)
    ∧ (∀ x' y', Board_is_valid_position x' y' = true →
         Board_get (board s') x' y' =
           if decide (x' = x ∧ y' = y) then Some n else Board_get (board s) x' y')
    ∧ pieces_count s' = <[n := c + 1]> (pieces_count s)
    ∧ total_pieces_placed s' = total_pieces_placed s + 1
    ∧ phase s' = (if phase_changed (response_result r) then MOVEMENT else PLACEMENT)
    ∧ (phase_changed (response_result r) = true ↔ total_pieces_placed s' = 24)
    ∧ current_player s'
      = (if decide (placement_remaining s = 1) then get_opponent n else n)
    ∧ captures (response_result r) = []
    ∧ result_game_over (response_result r) = false
    ∧ game_over s' = game_over s ∧ status s' = status s ∧ winner s' = winner s.
Proof.
  set (w := run l initial).
  assert (Hw : service_inv w) by apply run_inv, initial_inv.
  assert (Hl : stored_sessions ledger w) by apply run_ledger.
  clearbody w. intros Hr.
  destruct (place_piece_final w gid t x y Hw)
    as [(c0 & d & Hx)|(s & n & reason & changed & s' & w2 & rest
                       & Hg & Hseat & Hc & Hp & Hr' & Hgames & _)].
  { rewrite Hx in Hr. discriminate. }
  rewrite Hr' in Hr. injection Hr as <- <-.
  destruct (Hw _ _ Hg) as [Hid Hs].
  assert (Hcell : holds (board s) x y EMPTY ∧ (x, y) ≠ (REFUGE_X, REFUGE_Y)).
  { pose proof Hc as Hc2.
    rewrite (can_place_piece_eq s x y n (inv_board _ Hs)) in Hc2.
    repeat case_decide; try discriminate. done. }
  pose proof (can_place_piece_true _ _ _ _ _ _ Hc) as (Hph & Hcp & Hrem & Hv).
  assert (Hk : is_Some (pieces_count s !! n))
    by (destruct (seat_player _ _ _ Hseat) as [-> | ->]; apply (inv_counts _ Hs)).
  destruct Hk as [c Hcnt].
  destruct (place_piece_post s x y n c (inv_board _ Hs) Hv Hcnt Hph)
    as (s'' & Hp' & _ & Hb & Hpc & Htot & Hturn & Hphase & _ & Hst & _ & _ & Hwin & Hover & _).
  rewrite Hp in Hp'. injection Hp' as -> <-.
  pose proof (ledger_placement _ (Hl _ _ Hg) Hph) as (_ & _ & Hlt).
  exists s, n, c, s'. cbn [response_result phase_changed captures result_game_over
                           MoveResult_new].
  split; [done|]. split; [done|]. split; [done|]. split; [done|].
  split; [done|]. split; [done|]. split; [apply Hcell|]. split; [apply Hcell|].
  split; [done|]. split; [done|]. split; [done|].
  split.
  { destruct (decide (24 ≤ total_pieces_placed s + 1));
      [rewrite bool_decide_true by done|rewrite bool_decide_false by done];
      apply Hphase. }
  split; [rewrite bool_decide_eq_true, Htot; lia|].
  split.
  { destruct (decide (placement_remaining s = 1)); destruct Hturn as [-> _];
      by rewrite ?Hcp. }
  done.
Qed.

Lemma place_piece_outcome_witness :
  ∃ r w',
    GameService.place_piece "G1" "token-b" 4 4 (run last_piece_to_place initial) = Return r w'
    ∧ (∃ s n c s',
      games (run last_piece_to_place initial) !! "G1" = Some s
      ∧ seat s "token-b" = Some n
      ∧ pieces_count s !! n = Some c
      ∧ games w' = <["G1" := s']> (games (run last_piece_to_place initial))
      ∧ phase s = PLACEMENT ∧ current_player s = n
      ∧ holds (board s) 4 4 EMPTY ∧ (4, 4) ≠ (REFUGE_X, REFUGE_Y)
      ∧ (∀ x' y', Board_is_valid_position x' y' = true →
           Board_get (board s') x' y' =
             if decide (x' = 4 ∧ y' = 4) then Some n else Board_get (board s) x' y')
      ∧ pieces_count s' = <[n := c + 1]> (pieces_count s)
      ∧ total_pieces_placed s' = total_pieces_placed s + 1
      ∧ phase s' = (if phase_changed (response_result r) then MOVEMENT else PLACEMENT)
      ∧ (phase_changed (response_result r) = true ↔ total_pieces_placed s' = 24)
      ∧ current_player s'
        = (if decide (placement_remaining s = 1) then get_opponent n else n)
      ∧ captures (response_result r) = []
      ∧ result_game_over (response_result r) = false
      ∧ game_over s' = game_over s ∧ status s' = status s ∧ winner s' = winner s).
Proof.
  destruct (GameService.place_piece "G1" "token-b" 4 4 (run last_piece_to_place initial))
    as [r w'|e w'] eqn:Hp; try (by vm_compute in Hp).
  exists r, w'. split; [reflexivity|].
  exact (place_piece_outcome last_piece_to_place "G1" "token-b" 4 4 r w' Hp).
Defined.

(** ** The valid actions listed are the ones accepted *)

Lemma placements_left_same s s' :
  placements_left s → phase s' = phase s →
  placement_remaining s' = placement_remaining s → placements_left s'.
Proof. unfold placements_left. intros H -> ->. done. Qed.

Lemma create_game_placements_left g t w :
  stored_sessions placements_left w →
  stored_sessions placements_left (final (GameService.create_game g t w)).
Proof.
  intros Hw k s. unfold GameService.create_game. simpl.
  rewrite lookup_insert. case_decide.
  - intros [= <-]. intros _. simpl. lia.
  - apply Hw.
Qed.

Lemma join_game_placements_left t c gid e w :
  service_inv w → stored_sessions placements_left w →
  stored_sessions placements_left (final (GameService.join_game t c gid e w)).
Proof.
  intros Hw Hl. unfold GameService.join_game.
  apply with_game_stored; [done|unfold_service; frame| |done].
  intros s Hg Hs Hst. rewrite bind_gets. simpl.
  destruct (truthy e && has_token (player1 s) (default EmptyString e)); [done|].
  destruct (truthy e && has_token (player2 s) (default EmptyString e)); [done|].
  destruct (decide (status s ≠ WAITING)) as [|Hwait%dec_stable].
  { destruct (player2 s); [destruct (negb (truthy e))|]; done. }
  simpl. by apply (placements_left_same s).
Qed.

Lemma place_piece_placements_left gid t x y w :
  service_inv w → stored_sessions placements_left w →
  stored_sessions placements_left (final (GameService.place_piece gid t x y w)).
Proof.
  intros Hw Hl.
  destruct (place_piece_final w gid t x y Hw)
    as [(c & d & ->)|(s & n & reason & changed & s' & w' & rest
                      & Hg & Hseat & Hc & Hp & Hr & Hgames & _)];
    [done|].
  rewrite Hr. simpl. apply (stored_sessions_insert _ gid s' w); [done| |done].
  destruct (Hw _ _ Hg) as [_ Hs].
  pose proof (can_place_piece_true _ _ _ _ _ _ Hc) as (_ & _ & Hrem & _).
  destruct (place_piece_inv s x y n reason changed s' Hs (seat_player _ _ _ Hseat) Hc Hp)
    as (_ & _ & _ & _ & _ & _ & _ & _ & Hturn & _).
  intros _. destruct (decide (placement_remaining s = 1)); destruct Hturn as [_ ->]; lia.
Qed.

Lemma move_piece_placements_left gid t from_x from_y to_x to_y w :
  service_inv w → stored_sessions placements_left w →
  stored_sessions placements_left
    (final (GameService.move_piece gid t from_x from_y to_x to_y w)).
Proof.
  intros Hw Hl.
  destruct (move_piece_final w gid t from_x from_y to_x to_y Hw)
    as [(c & d & ->)|(s & n & reason & s1 & captured & s2 & extra & over & win & why
                      & w' & rest
                      & Hg & Hseat & Hc & Hm & Hcap & Hcase & Hv & Hr & Hgames & _)];
    [done|].
  rewrite Hr. simpl. eapply stored_sessions_insert; [exact Hl| |exact Hgames].
  destruct (Hw _ _ Hg) as [_ Hs].
  destruct (can_move_piece_true _ _ _ _ _ _ _ _ Hc) as (Hph & _ & Hfrom & Hto & _).
  destruct (move_piece_Return s from_x from_y to_x to_y n (inv_board _ Hs) Hfrom (proj1 Hto))
    as (b1 & Hm' & Hwf1 & _).
  rewrite Hm in Hm'. injection Hm' as ->.
  assert (Hph2 : phase s2 = MOVEMENT).
  { destruct Hcase as [(_ & -> & _)|(_ & Happly & _)]; [done|].
    destruct (check_captures_cells (set_board b1 s) to_x to_y n Hwf1)
      as (cap' & Hcap' & Hall & Hnd).
    rewrite Hcap in Hcap'. injection Hcap' as <-.
    assert (Hk : is_Some (pieces_count (set_board b1 s) !! get_opponent n))
      by (destruct (seat_player _ _ _ Hseat) as [-> | ->]; apply (inv_counts _ Hs)).
    destruct (apply_captures_Return (set_board b1 s) captured (get_opponent n)
                Hwf1 Hk Hall Hnd) as (b2 & counts2 & Ha & _).
    rewrite Happly in Ha. by injection Ha as ->. }
  intros Hp. exfalso. revert Hp. unfold after_victory_check, after_move.
  destruct over, extra; simpl; rewrite Hph2; done.
Qed.

Lemma leave_game_placements_left gid t w :
  service_inv w → stored_sessions placements_left w →
  stored_sessions placements_left (final (GameService.leave_game gid t w)).
Proof.
  intros Hw Hl. unfold GameService.leave_game.
  apply with_game_stored; [done|unfold_service; frame| |done].
  intros s Hg Hs Hst. rewrite bind_gets. simpl.
  destruct (has_token (player1 s) t).
  - rewrite bind_assoc, bind_on_state_modify, bind_ret.
    destruct (truthy (token <$> player2 s));
      [rewrite bind_notify|rewrite bind_ret];
      rewrite bind_gets; cbn [fst player1 player2 set_player1];
      (destruct (player2 s); simpl; by apply (placements_left_same s)).
  - destruct (has_token (player2 s) t); [|done].
    rewrite bind_assoc, bind_on_state_modify, bind_ret.
    destruct (truthy (token <$> player1 s));
      [rewrite bind_notify|rewrite bind_ret];
      rewrite bind_gets; cbn [fst player1 player2 set_player2];
      (destruct (player1 s); simpl; by apply (placements_left_same s)).
Qed.

Lemma rematch_game_placements_left c gid t w :
  service_inv w → stored_sessions placements_left w →
  stored_sessions placements_left (final (GameService.rematch_game c gid t w)).
Proof.
  intros Hw Hl. unfold GameService.rematch_game.
  apply with_game_stored; [done|unfold_service; frame| |done].
  intros s Hg Hs Hls. rewrite bind_gets. simpl.
  destruct (game_over s) eqn:Hover; [|done]. cbn [negb].
  destruct (has_token (player1 s) t); [|destruct (has_token (player2 s) t); [|done]].
  all: rewrite bind_ret.
  all: destruct (rematch_requests s) as [r|] eqn:Hr;
    [rewrite bind_ret|rewrite bind_on_state_modify].
  all: rewrite bind_on_state_modify, bind_gets.
  all: destruct (decide (2 ≤ size _)%nat); [simpl; intros _; simpl; lia|].
  all: by_keeps placements_left; by apply (placements_left_same s).
Qed.

Lemma framed_request_stored {A} (P : GameState → Prop) gid
    (body : M (GameState * Service) A) w :
  service_inv w → stored_sessions P w →
  preserves (request_frame gid) body →
  preserves (on_session (keeps P)) body →
  stored_sessions P (final (with_game gid body w)).
Proof.
  intros Hw Hl Hf Hb. apply with_game_stored; [done..| |done].
  intros s Hg Hs HP. by apply (Hb (s, w)).
Qed.

Lemma step_placements_left a w :
  service_inv w → stored_sessions placements_left w →
  stored_sessions placements_left (step a w).
Proof.
  intros Hw Hl.
  destruct a as [g t|t c g e0|g t|g t|g t|g t x y|g t fx fy tx ty|g t|c g t]; simpl.
  - by apply create_game_placements_left.
  - by apply join_game_placements_left.
  - apply framed_request_stored; [done..| |]; unfold_service; frame.
  - apply framed_request_stored; [done..| |]; unfold_service; frame.
  - apply framed_request_stored; [done..| |]; unfold_service; frame.
  - by apply place_piece_placements_left.
  - by apply move_piece_placements_left.
  - by apply leave_game_placements_left.
  - by apply rematch_game_placements_left.
Qed.

Lemma run_placements_left l : stored_sessions placements_left (run l initial).
Proof.
  assert (H : ∀ w, service_inv w → stored_sessions placements_left w →
                   stored_sessions placements_left (run l w)).
  { induction l as [|a l IH]; intros w Hw Hl; [done|]. simpl.
    apply IH; [by apply step_inv|by apply step_placements_left]. }
  apply H; [apply initial_inv|]. intros k s. unfold initial. simpl.
  by rewrite lookup_empty.
Qed.

(** X28.  On a service reached by any sequence of requests since it
    started, when [get_valid_actions] answers with placements, at least one
    placement remains in the turn, and the cells listed are exactly the
    cells on which a placement request of the same player is answered. *)
Theorem listed_placements_are_the_accepted_ones
    (l : list Action) (gid t : string) (placements : list (Z * Z)) (left : Z)
    (w' : Service) :
  GameService.get_valid_actions gid t (run l initial)
    = Return (placement_actions placements left) w' →
  0 < left
  ∧ ∀ x y,
      (x, y) ∈ placements ↔
      ∃ r w'', GameService.place_piece gid t x y (run l initial) = Return r w''.
Proof.
  set (w := run l initial).
  assert (Hw : service_inv w) by apply run_inv, initial_inv.
  assert (Hl : stored_sessions placements_left w) by apply run_placements_left.
  clearbody w. intros H. unfold GameService.get_valid_actions in H.
  destruct (games w !! gid) as [s|] eqn:Hg.
  2:{ unfold GameService._get_and_validate_game in H.
      rewrite (with_game_missing _ _ _ Hg) in H. discriminate. }
  destruct (seat s t) as [n|] eqn:Hseat.
  2:{ rewrite (validate_unseated _ _ _ _ s Hg Hseat) in H. discriminate. }
  destruct (Hw _ _ Hg) as [Hid Hs].
  rewrite (validate_seated _ _ _ _ _ _ Hg Hseat) in H.
  rewrite (bind_Return _ _ _ _ _ (get_player_number_seated _ _ w _ Hseat)) in H.
  rewrite bind_gets in H. cbn [fst] in H.
  destruct (decide (current_player s ≠ n)) as [|Hcp%dec_stable];
    [simpl in H; discriminate|].
  destruct (decide (phase s = PLACEMENT)) as [Hph|Hph].
  2:{ destruct (get_all_valid_moves_Return s n (inv_board _ Hs)) as (moves & Hm).
      { intros cx cy Hc. by destruct (inv_chain _ Hs _ _ Hc) as [_ [? _]]. }
      rewrite (bind_Return _ _ _ _ _ (on_state_Return _ _ w _ _ Hm)) in H.
      simpl in H. discriminate. }
  rewrite (bind_Return _ _ _ _ _
    (on_state_Return _ _ w _ _ (get_valid_placements_eq s (inv_board _ Hs)))) in H.
  rewrite bind_gets in H. cbn [fst] in H.
  rewrite decide_True in H by done.
  injection H as <- <- _.
  pose proof (Hl _ _ Hg Hph) as Hrem.
  split; [done|]. intros x y.
  rewrite list_elem_of_filter, elem_of_all_cells. cbn [fst snd].
  pose proof (can_place_piece_eq s x y n (inv_board _ Hs)) as Heq.
  split.
  - intros [[Hcell Href] Hv].
    assert (Hc : rules_phase1.can_place_piece x y n s = Return (true, "OK") s).
    { rewrite Heq. repeat case_decide; try done; lia. }
    destruct (place_piece_answer w gid t s n x y _ Hw Hg Hseat Hc)
      as (changed & s' & w2 & rest & _ & Hr & _).
    by eexists _, _.
  - intros (r & w2 & Hr).
    destruct (place_piece_final w gid t x y Hw)
      as [(c0 & d & Hx)|(s0 & n0 & reason & changed & s' & w3 & rest
                         & Hg0 & Hseat0 & Hc & _)].
    { rewrite Hx in Hr. discriminate. }
    rewrite Hg in Hg0. injection Hg0 as <-.
    rewrite Hseat in Hseat0. injection Hseat0 as <-.
    rewrite Heq in Hc. repeat case_decide; try discriminate. done.
Qed.

Lemma listed_placements_are_the_accepted_ones_witness :
  ∃ placements left w',
    GameService.get_valid_actions "G1" "token-a" (run seating initial) = Return (placement_actions placements left) w'
    ∧ (0 < left
    ∧ ∀ x y,
        (x, y) ∈ placements ↔
        ∃ r w'', GameService.place_piece "G1" "token-a" x y (run seating initial) = Return r w'').
Proof.
  destruct (GameService.get_valid_actions "G1" "token-a" (run seating initial))
    as [[reason|placements left|moves chain] w'|e w'] eqn:Hp; try (by vm_compute in Hp).
  exists placements, left, w'. split; [reflexivity|].
  exact (listed_placements_are_the_accepted_ones seating "G1" "token-a" placements left w' Hp).
Defined.
